(** * Virtual IOMMU topology: parsers, registry and endpoint resolver

    A shallow embedding of
      - drivers/iommu/virtio-iommu-topology.c (device config-region parser),
      - the ACPI VIOT parser (firmware-table parser),
      - the topology helpers (registry, [virt_iommu_setup], [virt_set_iommu_ops]),
      - include/linux/virt_iommu.h (the data model),
    and the properties of the specification that concern them.

    Conventions.  C integers are [Z]; pointers to [struct virt_iommu_spec]
    are addresses ([nat]) into an explicit heap, because the IOMMU
    specification is shared between the registry list and every endpoint
    that refers to it and is mutated in place by [virt_set_iommu_ops].
    A nullable pointer is an [option].  Memory regions (the ACPI table, the
    virtio configuration window) are byte-addressed functions read in little
    endian.  [kzalloc] may fail: its outcomes are an oracle in the state. *)

From Stdlib Require Import ZArith List Bool Lia.
From stdpp Require Import base option list gmap.

Local Open Scope Z_scope.

(** ** Error numbers (include/uapi/asm-generic/errno*.h) *)

Definition ENOMEM : Z := 12.
Definition ENODEV : Z := 19.
Definition EINVAL : Z := 22.
Definition EOVERFLOW : Z := 75.
Definition EPROBE_DEFER : Z := 517.

(** The three shapes of a pointer-or-error return value: a valid pointer,
    [NULL], or [ERR_PTR(e)]. *)
Inductive ptr_result (A : Type) : Type :=
  | Ptr (a : A)
  | Null
  | ErrPtr (e : Z).
Arguments Ptr {A} a.
Arguments Null {A}.
Arguments ErrPtr {A} e.

(** ** Byte-addressed regions, little-endian reads *)

Definition iomem : Type := Z → Z.

Definition mem_of_bytes (l : list Z) : iomem :=
  fun a => if a <? 0 then 0 else nth (Z.to_nat a) l 0.

Definition read8 (m : iomem) (a : Z) : Z := m a mod 256.
Definition read16 (m : iomem) (a : Z) : Z := read8 m a + 256 * read8 m (a + 1).
Definition read32 (m : iomem) (a : Z) : Z := read16 m a + 65536 * read16 m (a + 2).
Definition read64 (m : iomem) (a : Z) : Z :=
  read32 m a + 4294967296 * read32 m (a + 4).

(** [u32] arithmetic wraps around. *)
Definition wrap32 (z : Z) : Z := z mod 4294967296.

(** ** Data model (include/linux/virt_iommu.h) *)

(** [struct virt_iommu_dev_spec]: a type tag and a union; [DEV_UNSET] is the
    all-zero value left by [kzalloc]. *)
Inductive virt_iommu_dev_spec : Type :=
  | DEV_UNSET
  | DEV_PCI (segment bdf_start bdf_end : Z)
  | DEV_MMIO (base : Z).

Definition VIRT_IOMMU_DEV_TYPE_PCI : Z := 1.
Definition VIRT_IOMMU_DEV_TYPE_MMIO : Z := 2.

Definition dev_spec_type (d : virt_iommu_dev_spec) : Z :=
  match d with
  | DEV_UNSET => 0
  | DEV_PCI _ _ _ => VIRT_IOMMU_DEV_TYPE_PCI
  | DEV_MMIO _ => VIRT_IOMMU_DEV_TYPE_MMIO
  end.

(** [struct virt_iommu_spec]; [vs_dev], [vs_fwnode] and [vs_ops] are
    pointers (device address, fwnode handle, ops table). *)
Record virt_iommu_spec : Type := mk_viommu {
  vs_devid : virt_iommu_dev_spec;
  vs_dev : option nat;
  vs_fwnode : option Z;
  vs_ops : option Z
}.

Definition zero_viommu : virt_iommu_spec :=
  {| vs_devid := DEV_UNSET; vs_dev := None; vs_fwnode := None; vs_ops := None |}.

(** [struct virt_iommu_endpoint_spec]; [ep_viommu] points into the heap. *)
Record virt_iommu_endpoint_spec : Type := mk_endpoint {
  ep_devid : virt_iommu_dev_spec;
  endpoint_id : Z;
  ep_viommu : option nat
}.

(** A live system device, as far as the helpers look at it. *)
Inductive dev_bus : Type :=
  | BUS_PCI (domain_nr : Z) (dev_id : Z)
  | BUS_PLATFORM (mem0_start : option Z)
  | BUS_OTHER.

Record device : Type := mk_device {
  dev_addr : nat;
  dev_bus_info : dev_bus;
  dev_fwnode : option Z
}.

Definition dev_is_pci (d : device) : bool :=
  match dev_bus_info d with BUS_PCI _ _ => true | _ => false end.
Definition dev_is_platform (d : device) : bool :=
  match dev_bus_info d with BUS_PLATFORM _ => true | _ => false end.

(** [struct iommu_fwspec], reached through [dev_iommu_fwspec_get]. *)
Record iommu_fwspec : Type := mk_fwspec {
  fw_ops : option Z;
  fw_fwnode : option Z;
  fw_ids : list Z
}.

(** ** Global state

    [heap] holds the live [virt_iommu_spec] objects; [viommus],
    [pci_endpoints] and [mmio_endpoints] are the three registry lists;
    [iommus] is the VIOT parser's list of visited IOMMU nodes (offset and
    address of the embedded specification); [fwspecs] is the firmware
    specification of each device; [acs_requested] records
    [pci_request_acs()]; [kzalloc_plan] lists the outcomes of the coming
    [kzalloc] calls ([true] is success; once exhausted every call succeeds).
    An endpoint specification is held by value, in the local list of a
    parser and in the registry lists;
    [endpoint_objs] is the number of [struct virt_iommu_endpoint_spec]
    objects allocated and not freed: [kzalloc] of one adds 1, [kfree] of one
    subtracts 1. *)
Record state : Type := mk_state {
  heap : gmap nat virt_iommu_spec;
  endpoint_objs : Z;
  viommus : list nat;
  pci_endpoints : list virt_iommu_endpoint_spec;
  mmio_endpoints : list virt_iommu_endpoint_spec;
  iommus : list (Z * nat);
  fwspecs : gmap nat iommu_fwspec;
  acs_requested : bool;
  kzalloc_plan : list bool
}.

Definition empty_state : state :=
  {| heap := ∅; endpoint_objs := 0; viommus := []; pci_endpoints := [];
     mmio_endpoints := []; iommus := []; fwspecs := ∅; acs_requested := false;
     kzalloc_plan := [] |}.

Definition set_heap (hp : gmap nat virt_iommu_spec) (st : state) : state :=
  {| heap := hp; endpoint_objs := endpoint_objs st; viommus := viommus st; pci_endpoints := pci_endpoints st;
     mmio_endpoints := mmio_endpoints st; iommus := iommus st;
     fwspecs := fwspecs st; acs_requested := acs_requested st;
     kzalloc_plan := kzalloc_plan st |}.

Definition set_viommus (l : list nat) (st : state) : state :=
  {| heap := heap st; endpoint_objs := endpoint_objs st; viommus := l; pci_endpoints := pci_endpoints st;
     mmio_endpoints := mmio_endpoints st; iommus := iommus st;
     fwspecs := fwspecs st; acs_requested := acs_requested st;
     kzalloc_plan := kzalloc_plan st |}.

Definition set_pci_endpoints (l : list virt_iommu_endpoint_spec) (st : state) : state :=
  {| heap := heap st; endpoint_objs := endpoint_objs st; viommus := viommus st; pci_endpoints := l;
     mmio_endpoints := mmio_endpoints st; iommus := iommus st;
     fwspecs := fwspecs st; acs_requested := acs_requested st;
     kzalloc_plan := kzalloc_plan st |}.

Definition set_mmio_endpoints (l : list virt_iommu_endpoint_spec) (st : state) : state :=
  {| heap := heap st; endpoint_objs := endpoint_objs st; viommus := viommus st; pci_endpoints := pci_endpoints st;
     mmio_endpoints := l; iommus := iommus st;
     fwspecs := fwspecs st; acs_requested := acs_requested st;
     kzalloc_plan := kzalloc_plan st |}.

Definition set_iommus (l : list (Z * nat)) (st : state) : state :=
  {| heap := heap st; endpoint_objs := endpoint_objs st; viommus := viommus st; pci_endpoints := pci_endpoints st;
     mmio_endpoints := mmio_endpoints st; iommus := l;
     fwspecs := fwspecs st; acs_requested := acs_requested st;
     kzalloc_plan := kzalloc_plan st |}.

Definition set_fwspecs (f : gmap nat iommu_fwspec) (st : state) : state :=
  {| heap := heap st; endpoint_objs := endpoint_objs st; viommus := viommus st; pci_endpoints := pci_endpoints st;
     mmio_endpoints := mmio_endpoints st; iommus := iommus st;
     fwspecs := f; acs_requested := acs_requested st;
     kzalloc_plan := kzalloc_plan st |}.

Definition set_acs (b : bool) (st : state) : state :=
  {| heap := heap st; endpoint_objs := endpoint_objs st; viommus := viommus st; pci_endpoints := pci_endpoints st;
     mmio_endpoints := mmio_endpoints st; iommus := iommus st;
     fwspecs := fwspecs st; acs_requested := b;
     kzalloc_plan := kzalloc_plan st |}.

Definition set_plan (p : list bool) (st : state) : state :=
  {| heap := heap st; endpoint_objs := endpoint_objs st; viommus := viommus st; pci_endpoints := pci_endpoints st;
     mmio_endpoints := mmio_endpoints st; iommus := iommus st;
     fwspecs := fwspecs st; acs_requested := acs_requested st;
     kzalloc_plan := p |}.

Definition set_endpoint_objs (n : Z) (st : state) : state :=
  {| heap := heap st; endpoint_objs := n; viommus := viommus st;
     pci_endpoints := pci_endpoints st;
     mmio_endpoints := mmio_endpoints st; iommus := iommus st;
     fwspecs := fwspecs st; acs_requested := acs_requested st;
     kzalloc_plan := kzalloc_plan st |}.

(** What the resolver can see of the topology: the three lists. *)
Definition registry (st : state)
  : list nat * list virt_iommu_endpoint_spec * list virt_iommu_endpoint_spec :=
  (viommus st, pci_endpoints st, mmio_endpoints st).

(** ** Allocation *)

(** One [kzalloc] call: consumes one outcome of the plan. *)
Definition kzalloc (st : state) : bool * state :=
  match kzalloc_plan st with
  | [] => (true, st)
  | b :: p => (b, set_plan p st)
  end.

(** [kzalloc] of an object holding a [virt_iommu_spec]: a fresh address with
    zeroed content, or [None] for [NULL]. *)
Definition kzalloc_viommu (st : state) : option nat * state :=
  let (ok, st1) := kzalloc st in
  if ok then
    let h := fresh (dom (heap st1)) in
    (Some h, set_heap (<[h := zero_viommu]> (heap st1)) st1)
  else (None, st1).

Definition kfree_viommu (h : nat) (st : state) : state :=
  set_heap (delete h (heap st)) st.

(** [kzalloc] of a [struct virt_iommu_endpoint_spec]: on success one more
    object is allocated. *)
Definition kzalloc_endpoint (st : state) : bool * state :=
  let (ok, st1) := kzalloc st in
  if ok then (true, set_endpoint_objs (endpoint_objs st1 + 1) st1)
  else (false, st1).

(** [kfree] of an endpoint specification. *)
Definition kfree_endpoint (st : state) : state :=
  set_endpoint_objs (endpoint_objs st - 1) st.

(** [list_for_each_entry_safe(ep, next, &endpoints, list) kfree(ep);] *)
Definition kfree_endpoints (endpoints : list virt_iommu_endpoint_spec)
    (st : state) : state :=
  fold_left (fun s _ => kfree_endpoint s) endpoints st.

(** [*p] for [p] a [struct virt_iommu_spec *]. *)
Definition viommu_at (st : state) (h : nat) : virt_iommu_spec :=
  default zero_viommu (heap st !! h).

(** ** Registry (topology helpers) *)

(** [virt_iommu_add_endpoint_spec]: [list_add] puts the entry at the head. *)
Definition virt_iommu_add_endpoint_spec
    (spec : virt_iommu_endpoint_spec) (st : state) : state :=
  if dev_spec_type (ep_devid spec) =? VIRT_IOMMU_DEV_TYPE_MMIO
  then set_mmio_endpoints (spec :: mmio_endpoints st) st
  else set_pci_endpoints (spec :: pci_endpoints st) st.

(** [virt_iommu_add_iommu_spec]. *)
Definition virt_iommu_add_iommu_spec (h : nat) (st : state) : state :=
  set_viommus (h :: viommus st) st.

(** ** Device config-region parser (drivers/iommu/virtio-iommu-topology.c) *)

(** The structures of uapi/linux/virtio_iommu.h are not part of the sources:
    their type codes, sizes and field offsets are parameters.  The item
    header [struct viommu_topo_header] is declared by the driver itself:
    [type] at byte 0, [reserved] at byte 1, [length] at bytes 2-3. *)
Record topo_layout : Type := mk_topo_layout {
  VIRTIO_IOMMU_TOPO_PCI_RANGE : Z;
  VIRTIO_IOMMU_TOPO_MMIO : Z;
  topo_config_offset : Z;
  topo_config_num_items : Z;
  sizeof_topo_pci_range : Z;
  sizeof_topo_mmio : Z;
  topo_pci_segment : Z;
  topo_pci_bdf_start : Z;
  topo_pci_bdf_end : Z;
  topo_pci_endpoint_start : Z;
  topo_mmio_address : Z;
  topo_mmio_endpoint : Z
}.

(** Modelled from the spec: a concrete layout of the device configuration
    structures, which the sources do not declare.  Items are
    [{type:u8, reserved:u8, length:u16, payload}]; the PCI range payload is
    segment, bdf_start, bdf_end, endpoint_start and the MMIO payload is
    address, endpoint; the topology descriptor is [{offset:u16, num_items:u16}].
    Used for the concrete examples only. *)
Definition spec_topo_layout : topo_layout :=
  {| VIRTIO_IOMMU_TOPO_PCI_RANGE := 1;
     VIRTIO_IOMMU_TOPO_MMIO := 2;
     topo_config_offset := 36;
     topo_config_num_items := 38;
     sizeof_topo_pci_range := 16;
     sizeof_topo_mmio := 16;
     topo_pci_segment := 4;
     topo_pci_bdf_start := 6;
     topo_pci_bdf_end := 8;
     topo_pci_endpoint_start := 12;
     topo_mmio_address := 4;
     topo_mmio_endpoint := 12 |}.

Definition sizeof_viommu_topo_header : Z := 4.

Section Topology.

Variable L : topo_layout.

Definition ioread8 := read8.
Definition ioread16 := read16.
Definition ioread32 := read32.
Definition ioread64 := read64.

(** [viommu_parse_node(buf, len)], with [buf = cfg + offset].  The endpoint
    object is allocated first; every path that does not return it frees it. *)
Definition viommu_parse_node (cfg : iomem) (offset len : Z) (st : state)
  : ptr_result virt_iommu_endpoint_spec * state :=
  let ret := - EINVAL in
  let (ok, st1) := kzalloc_endpoint st in
  if negb ok then (ErrPtr (- ENOMEM), st1)
  else
    let ty := ioread8 cfg offset in
    if ty =? VIRTIO_IOMMU_TOPO_PCI_RANGE L then
      if len <? sizeof_topo_pci_range L then (ErrPtr ret, kfree_endpoint st1)
      else
        (Ptr {| ep_devid :=
                  DEV_PCI (ioread16 cfg (offset + topo_pci_segment L))
                          (ioread16 cfg (offset + topo_pci_bdf_start L))
                          (ioread16 cfg (offset + topo_pci_bdf_end L));
                endpoint_id := ioread32 cfg (offset + topo_pci_endpoint_start L);
                ep_viommu := None |}, st1)
    else if ty =? VIRTIO_IOMMU_TOPO_MMIO L then
      if len <? sizeof_topo_mmio L then (ErrPtr ret, kfree_endpoint st1)
      else
        (Ptr {| ep_devid := DEV_MMIO (ioread64 cfg (offset + topo_mmio_address L));
                endpoint_id := ioread32 cfg (offset + topo_mmio_endpoint L);
                ep_viommu := None |}, st1)
    else (ErrPtr ret, kfree_endpoint st1).

Definition set_ep_viommu (h : nat) (ep : virt_iommu_endpoint_spec)
  : virt_iommu_endpoint_spec :=
  {| ep_devid := ep_devid ep; endpoint_id := endpoint_id ep; ep_viommu := Some h |}.

(** The [for] loop of [viommu_parse_topology] with [n = num_items - i]
    iterations left.  [inr endpoints] is the local list at loop exit
    ([list_add]: last parsed first).  [inl ret] is a jump to [err_free]; the
    first loop of [err_free], which frees every entry of the local list, is
    run at the jump, where the list is at hand. *)
Fixpoint viommu_walk (cfg : iomem) (max_len : Z) (viommu_spec : nat)
    (n : nat) (offset : Z) (endpoints : list virt_iommu_endpoint_spec)
    (st : state) : (Z + list virt_iommu_endpoint_spec) * state :=
  match n with
  | O => (inr endpoints, st)
  | S n' =>
    if max_len <? offset + sizeof_viommu_topo_header
    then (inl (- EOVERFLOW), kfree_endpoints endpoints st)
    else
      let len := ioread16 cfg (offset + 2) in
      if max_len <? offset + len
      then (inl (- EOVERFLOW), kfree_endpoints endpoints st)
      else
        match viommu_parse_node cfg offset len st with
        | (Null, st1) =>
            viommu_walk cfg max_len viommu_spec n' (offset + len) endpoints st1
        | (ErrPtr e, st1) => (inl e, kfree_endpoints endpoints st1)
        | (Ptr ep, st1) =>
            viommu_walk cfg max_len viommu_spec n' (offset + len)
              (set_ep_viommu viommu_spec ep :: endpoints) st1
        end
  end.

(** Publishing the local list: each entry, from the head on, is added to the
    head of its registry list. *)
Definition publish_endpoints (endpoints : list virt_iommu_endpoint_spec)
    (st : state) : state :=
  fold_left (fun s ep => virt_iommu_add_endpoint_spec ep s) endpoints st.

Definition set_vs_dev (d : option nat) (s : virt_iommu_spec) : virt_iommu_spec :=
  {| vs_devid := vs_devid s; vs_dev := d; vs_fwnode := vs_fwnode s; vs_ops := vs_ops s |}.

(** [viommu_parse_topology(dev, cfg, max_len)]: the return code and the
    state it leaves. *)
Definition viommu_parse_topology (dev : device) (cfg : iomem) (max_len : Z)
    (st : state) : Z * state :=
  let offset := ioread16 cfg (topo_config_offset L) in
  let num_items := ioread16 cfg (topo_config_num_items L) in
  if (offset =? 0) || (num_items =? 0) then (0, st)
  else
    match kzalloc_viommu st with
    | (None, st1) => (- ENOMEM, st1)
    | (Some viommu_spec, st1) =>
      let st2 :=
        set_heap (<[viommu_spec :=
                      set_vs_dev (Some (dev_addr dev)) (viommu_at st1 viommu_spec)]>
                    (heap st1)) st1 in
      match viommu_walk cfg max_len viommu_spec (Z.to_nat num_items) offset [] st2 with
      | (inr endpoints, st3) =>
          (0, virt_iommu_add_iommu_spec viommu_spec (publish_endpoints endpoints st3))
      | (inl ret, st3) => (ret, kfree_viommu viommu_spec st3)
      end
    end.

End Topology.

(** ** Firmware-table parser (ACPI VIOT) *)

(** The node structures of the VIOT table are declared in headers that are
    not part of the sources: node type codes, structure sizes and field
    offsets are parameters. *)
Record viot_layout : Type := mk_viot_layout {
  ACPI_VIOT_NODE_PCI_RANGE : Z;
  ACPI_VIOT_NODE_MMIO : Z;
  ACPI_VIOT_NODE_VIRTIO_IOMMU_PCI : Z;
  ACPI_VIOT_NODE_VIRTIO_IOMMU_MMIO : Z;
  sizeof_acpi_table_viot : Z;
  sizeof_viot_pci_range : Z;
  sizeof_viot_mmio : Z;
  sizeof_viot_iommu_pci : Z;
  sizeof_viot_iommu_mmio : Z;
  viot_pci_segment : Z;
  viot_pci_bdf_start : Z;
  viot_pci_bdf_end : Z;
  viot_pci_endpoint_start : Z;
  viot_pci_output_node : Z;
  viot_mmio_base_address : Z;
  viot_mmio_endpoint : Z;
  viot_mmio_output_node : Z;
  viot_iommu_pci_segment : Z;
  viot_iommu_pci_bdf : Z;
  viot_iommu_mmio_base_address : Z
}.

(** Modelled from the spec: a concrete layout of the VIOT node structures,
    which the sources do not declare.  After the 4-byte node header the
    PCI range payload is segment, bdf_start, bdf_end, output_node, reserved,
    endpoint_start; the MMIO payload is endpoint, reserved, base_address (the
    [output_node] the code reads is placed in the reserved bytes); the nested
    IOMMU payloads are [{segment, bdf}] and [{reserved, base_address}].
    Used for the concrete examples only. *)
Definition spec_viot_layout : viot_layout :=
  {| ACPI_VIOT_NODE_PCI_RANGE := 1;
     ACPI_VIOT_NODE_MMIO := 2;
     ACPI_VIOT_NODE_VIRTIO_IOMMU_PCI := 3;
     ACPI_VIOT_NODE_VIRTIO_IOMMU_MMIO := 4;
     sizeof_acpi_table_viot := 48;
     sizeof_viot_pci_range := 20;
     sizeof_viot_mmio := 20;
     sizeof_viot_iommu_pci := 8;
     sizeof_viot_iommu_mmio := 16;
     viot_pci_segment := 4;
     viot_pci_bdf_start := 6;
     viot_pci_bdf_end := 8;
     viot_pci_output_node := 10;
     viot_pci_endpoint_start := 16;
     viot_mmio_endpoint := 4;
     viot_mmio_output_node := 8;
     viot_mmio_base_address := 12;
     viot_iommu_pci_segment := 4;
     viot_iommu_pci_bdf := 6;
     viot_iommu_mmio_base_address := 8 |}.

(** [struct acpi_table_viot *viot]: the header fields the parser reads and
    the bytes of the table, addressed from the start of the table.  A node
    pointer is its byte offset from [viot]. *)
Record acpi_table_viot : Type := mk_viot {
  header_length : Z;
  node_offset : Z;
  node_count : Z;
  viot_bytes : iomem
}.

(** Modelled from the spec: [struct acpi_viot_node], the sub-header of every
    record, is [{type:u8, reserved:u8, length:u16}]; its declaration is not
    part of the sources. *)
Definition sizeof_acpi_viot_node : Z := 4.
Definition node_type (viot : acpi_table_viot) (node : Z) : Z :=
  read8 (viot_bytes viot) node.
Definition node_reserved (viot : acpi_table_viot) (node : Z) : Z :=
  read8 (viot_bytes viot) (node + 1).
Definition node_length (viot : acpi_table_viot) (node : Z) : Z :=
  read16 (viot_bytes viot) (node + 2).

Section Viot.

Variable L : viot_layout.
Variable viot : acpi_table_viot.

(** [viot_check_bounds(node)]. *)
Definition viot_check_bounds (node : Z) : Z :=
  let start := node_offset viot in
  let end_ := header_length viot in
  if (node <? start) || (end_ <=? node) then - EOVERFLOW
  else if node_length viot node <? sizeof_acpi_viot_node then - EINVAL
  else 0.

Definition set_vs_devid (d : virt_iommu_dev_spec) (s : virt_iommu_spec)
  : virt_iommu_spec :=
  {| vs_devid := d; vs_dev := vs_dev s; vs_fwnode := vs_fwnode s; vs_ops := vs_ops s |}.

(** The tail of [viot_get_iommu] once the node is accepted: fill in the
    device id, link the node into [iommus] and publish the specification. *)
Definition viot_register_iommu (offset : Z) (h : nat)
    (d : virt_iommu_dev_spec) (st : state) : state :=
  let st1 := set_heap (<[h := set_vs_devid d (viommu_at st h)]> (heap st)) st in
  virt_iommu_add_iommu_spec h (set_iommus ((offset, h) :: iommus st1) st1).

(** The scan of [iommus] at the head of [viot_get_iommu]: the first visited
    node recorded with this offset. *)
Definition viot_find_iommu (offset : Z) (st : state) : option nat :=
  snd <$> find (fun e => fst e =? offset) (iommus st).

(** [viot_get_iommu(offset)]: the specification of the IOMMU node at
    [offset], or [NULL]. *)
Definition viot_get_iommu (offset : Z) (st : state) : option nat * state :=
  let node := offset in
  let m := viot_bytes viot in
  match viot_find_iommu offset st with
  | Some h => (Some h, st)
  | None =>
    if negb (viot_check_bounds node =? 0) then (None, st)
    else
      match kzalloc_viommu st with
      | (None, st1) => (None, st1)
      | (Some h, st1) =>
        let ty := node_type viot node in
        if ty =? ACPI_VIOT_NODE_VIRTIO_IOMMU_PCI L then
          if node_length viot node <? sizeof_viot_iommu_pci L
          then (None, kfree_viommu h st1)
          else
            let segment := read16 m (node + viot_iommu_pci_segment L) in
            let bdf := read16 m (node + viot_iommu_pci_bdf L) in
            (Some h, viot_register_iommu offset h (DEV_PCI segment bdf bdf) st1)
        else if ty =? ACPI_VIOT_NODE_VIRTIO_IOMMU_MMIO L then
          if node_length viot node <? sizeof_viot_iommu_mmio L
          then (None, kfree_viommu h st1)
          else
            let base := read64 m (node + viot_iommu_mmio_base_address L) in
            (Some h, viot_register_iommu offset h (DEV_MMIO base) st1)
        else (None, kfree_viommu h st1)
      end
  end.

(** The code after the [switch] of [viot_parse_node]: without IOMMU the
    endpoint is freed, otherwise it is published. *)
Definition viot_finish_node (spec : virt_iommu_endpoint_spec) (st : state)
  : Z * state :=
  match ep_viommu spec with
  | None => (- ENODEV, kfree_endpoint st)
  | Some _ => (0, virt_iommu_add_endpoint_spec spec st)
  end.

(** [viot_parse_node(node)]. *)
Definition viot_parse_node (node : Z) (st : state) : Z * state :=
  let ret := - EINVAL in
  let m := viot_bytes viot in
  if negb (viot_check_bounds node =? 0) then (- EINVAL, st)
  else
    let (ok, st1) := kzalloc_endpoint st in
    if negb ok then (- ENOMEM, st1)
    else
      let ty := node_type viot node in
      if ty =? ACPI_VIOT_NODE_PCI_RANGE L then
        if node_length viot node <? sizeof_viot_pci_range L
        then (ret, kfree_endpoint st1)
        else
          let (v, st2) := viot_get_iommu (read16 m (node + viot_pci_output_node L)) st1 in
          viot_finish_node
            {| ep_devid := DEV_PCI (read16 m (node + viot_pci_segment L))
                                   (read16 m (node + viot_pci_bdf_start L))
                                   (read16 m (node + viot_pci_bdf_end L));
               endpoint_id := read32 m (node + viot_pci_endpoint_start L);
               ep_viommu := v |} st2
      else if ty =? ACPI_VIOT_NODE_MMIO L then
        if node_length viot node <? sizeof_viot_mmio L
        then (ret, kfree_endpoint st1)
        else
          let (v, st2) := viot_get_iommu (read16 m (node + viot_mmio_output_node L)) st1 in
          viot_finish_node
            {| ep_devid := DEV_MMIO (read64 m (node + viot_mmio_base_address L));
               endpoint_id := read32 m (node + viot_mmio_endpoint L);
               ep_viommu := v |} st2
      else (0, kfree_endpoint st1).

(** The [for] loop of [viot_parse_nodes] with [n = node_count - i]
    iterations left and the cursor at [node]. *)
Fixpoint viot_walk (n : nat) (node : Z) (st : state) : state :=
  match n with
  | O => st
  | S n' =>
    let (ret, st1) := viot_parse_node node st in
    if negb (ret =? 0) then st1
    else viot_walk n' (node + node_length viot node) st1
  end.

(** The successive values of the cursor [node] with which the loop body of
    [viot_parse_nodes] is entered. *)
Fixpoint viot_walk_cursors (n : nat) (node : Z) (st : state) : list Z :=
  match n with
  | O => []
  | S n' =>
    let (ret, st1) := viot_parse_node node st in
    if negb (ret =? 0) then [node]
    else node :: viot_walk_cursors n' (node + node_length viot node) st1
  end.

(** [viot_parse_nodes()]. *)
Definition viot_parse_nodes (st : state) : state :=
  if node_offset viot <? sizeof_acpi_table_viot L then st
  else viot_walk (Z.to_nat (node_count viot)) (node_offset viot) st.

End Viot.

(** ** Endpoint resolver (topology helpers) *)

(** [viommu_device_match(dev, spec)]. *)
Definition viommu_device_match (dev : device) (spec : virt_iommu_dev_spec) : bool :=
  match spec, dev_bus_info dev with
  | DEV_PCI segment bdf_start bdf_end, BUS_PCI domain devid =>
      (domain =? segment) && (bdf_start <=? devid) && (devid <=? bdf_end)
  | DEV_MMIO base, BUS_PLATFORM mem =>
      match mem with
      | None => false
      | Some start => start =? base
      end
  | _, _ => false
  end.

(** [spec->bdf_start], read from an entry that matched as a PCI range. *)
Definition dev_spec_bdf_start (spec : virt_iommu_dev_spec) : Z :=
  match spec with
  | DEV_PCI _ bdf_start _ => bdf_start
  | _ => 0
  end.

(** [fwspec && fwspec->ops]. *)
Definition already_translated (dev : device) (st : state) : bool :=
  match fwspecs st !! dev_addr dev with
  | Some fwspec => bool_decide (is_Some (fw_ops fwspec))
  | None => false
  end.

(** The part of [virt_iommu_setup] that runs under [viommus_lock]: the first
    entry of the list for the device's bus that matches.  [None] when no
    entry matches; otherwise [epid] and [viommu_spec] (which may be [NULL]). *)
Definition virt_iommu_find (dev : device) (st : state) : option (Z * option nat) :=
  match dev_bus_info dev with
  | BUS_PCI _ devid =>
      match find (fun ep => viommu_device_match dev (ep_devid ep)) (pci_endpoints st) with
      | Some ep =>
          Some (wrap32 (devid - dev_spec_bdf_start (ep_devid ep) + endpoint_id ep),
                ep_viommu ep)
      | None => None
      end
  | BUS_PLATFORM _ =>
      match find (fun ep => viommu_device_match dev (ep_devid ep)) (mmio_endpoints st) with
      | Some ep => Some (endpoint_id ep, ep_viommu ep)
      | None => None
      end
  | BUS_OTHER => None
  end.

(** "We're not translating ourselves": the test against the IOMMU of the
    matched endpoint. *)
Definition is_own_iommu (dev : device) (viommu_spec : virt_iommu_spec) : bool :=
  viommu_device_match dev (vs_devid viommu_spec)
  || bool_decide (vs_dev viommu_spec = Some (dev_addr dev)).

Section Resolver.

(** The IOMMU core is outside the sources: [iommu_fwspec_init] returns a
    status and [iommu_fwspec_add_ids] records ids, both acting on the
    firmware specifications of the devices. *)
Variable iommu_fwspec_init :
  device → option Z → Z → gmap nat iommu_fwspec → Z * gmap nat iommu_fwspec.
Variable iommu_fwspec_add_ids :
  device → list Z → gmap nat iommu_fwspec → gmap nat iommu_fwspec.

(** [virt_iommu_setup(dev)]: [Null] is "no match", [ErrPtr (- EPROBE_DEFER)]
    is the defer result, [Ptr ops] a match with its operations. *)
Definition virt_iommu_setup (dev : device) (st : state) : ptr_result Z * state :=
  if already_translated dev st then (Null, st)
  else
    match virt_iommu_find dev st with
    | None => (Null, st)
    | Some (epid, None) => (Null, st)
    | Some (epid, Some h) =>
      let viommu_spec := viommu_at st h in
      if is_own_iommu dev viommu_spec then (Null, st)
      else
        let st1 := if dev_is_pci dev then set_acs true st else st in
        match vs_ops viommu_spec with
        | None => (ErrPtr (- EPROBE_DEFER), st1)
        | Some ops =>
          let (ret, fw) :=
            iommu_fwspec_init dev (vs_fwnode viommu_spec) ops (fwspecs st1) in
          if negb (ret =? 0) then (ErrPtr ret, set_fwspecs fw st1)
          else (Ptr ops, set_fwspecs (iommu_fwspec_add_ids dev [epid] fw) st1)
        end
    end.

End Resolver.

Definition set_vs_ops (ops fwnode : option Z) (s : virt_iommu_spec) : virt_iommu_spec :=
  {| vs_devid := vs_devid s; vs_dev := vs_dev s; vs_fwnode := fwnode; vs_ops := ops |}.

(** The loop of [virt_set_iommu_ops] over the remaining entries [l] of
    [viommus]. *)
Fixpoint set_iommu_ops_scan (dev : device) (ops : option Z) (l : list nat)
    (st : state) : state :=
  match l with
  | [] => st
  | h :: l' =>
    let st1 :=
      if negb (bool_decide (is_Some (vs_dev (viommu_at st h))))
         && viommu_device_match dev (vs_devid (viommu_at st h))
      then set_heap (<[h := set_vs_dev (Some (dev_addr dev)) (viommu_at st h)]> (heap st)) st
      else st in
    if bool_decide (vs_dev (viommu_at st1 h) = Some (dev_addr dev)) then
      set_heap
        (<[h := set_vs_ops ops (match ops with Some _ => dev_fwnode dev | None => None end)
                 (viommu_at st1 h)]> (heap st1)) st1
    else set_iommu_ops_scan dev ops l' st1
  end.

(** [virt_set_iommu_ops(dev, ops)]. *)
Definition virt_set_iommu_ops (dev : device) (ops : option Z) (st : state) : state :=
  set_iommu_ops_scan dev ops (viommus st) st.

(** ** Concrete inputs used by the examples *)

(** A configuration window whose topology descriptor (offset 40, three
    items) is followed by a PCI range item, an item of type 255 and an MMIO
    item. *)
Definition cfg_unknown_item : iomem :=
  mem_of_bytes
    (repeat 0 36 ++ [40; 0; 3; 0]
     ++ [1; 0; 16; 0;  0; 0;  16; 0;  31; 0;  0; 0;  100; 0; 0; 0]
     ++ [255; 0; 4; 0]
     ++ [2; 0; 16; 0;  0; 0; 0; 16; 0; 0; 0; 0;  7; 0; 0; 0]).

(** The same window with a second PCI range item in place of the item of
    type 255. *)
Definition cfg_three_items : iomem :=
  mem_of_bytes
    (repeat 0 36 ++ [40; 0; 3; 0]
     ++ [1; 0; 16; 0;  0; 0;  16; 0;  31; 0;  0; 0;  100; 0; 0; 0]
     ++ [1; 0; 16; 0;  0; 0;  32; 0;  47; 0;  0; 0;  200; 0; 0; 0]
     ++ [2; 0; 16; 0;  0; 0; 0; 16; 0; 0; 0; 0;  7; 0; 0; 0]).

Definition viommu_pci_dev : device :=
  {| dev_addr := 1%nat; dev_bus_info := BUS_PCI 0 8; dev_fwnode := Some 77 |}.

(** ** Notions used to state the properties *)

(** The cursor of item [k] of a walk that starts at [offset]: each item
    is followed by the next one [length] bytes further. *)
Fixpoint item_offset (cfg : iomem) (offset : Z) (k : nat) : Z :=
  match k with
  | O => offset
  | S k' => item_offset cfg (offset + read16 cfg (offset + 2)) k'
  end.

(** The item at [offset] violates a bound: its sub-header or its declared
    length reaches past [max_len]. *)
Definition item_overflows (cfg : iomem) (max_len offset : Z) : bool :=
  (max_len <? offset + sizeof_viommu_topo_header)
  || (max_len <? offset + read16 cfg (offset + 2)).

(** The item at [offset] carries a typed payload shorter than its type
    requires. *)
Definition item_too_short (L : topo_layout) (cfg : iomem) (offset : Z) : bool :=
  let ty := read8 cfg offset in
  let len := read16 cfg (offset + 2) in
  ((ty =? VIRTIO_IOMMU_TOPO_PCI_RANGE L) && (len <? sizeof_topo_pci_range L))
  || (negb (ty =? VIRTIO_IOMMU_TOPO_PCI_RANGE L)
      && (ty =? VIRTIO_IOMMU_TOPO_MMIO L) && (len <? sizeof_topo_mmio L)).

Definition item_fails_validation (L : topo_layout) (cfg : iomem)
    (max_len offset : Z) : bool :=
  item_overflows cfg max_len offset || item_too_short L cfg offset.

(** The item at [offset] is one the walk turns into an endpoint: in bounds,
    of type PCI_RANGE or MMIO, and long enough. *)
Definition item_accepted (L : topo_layout) (cfg : iomem)
    (max_len offset : Z) : bool :=
  negb (item_fails_validation L cfg max_len offset)
  && ((read8 cfg offset =? VIRTIO_IOMMU_TOPO_PCI_RANGE L)
      || (read8 cfg offset =? VIRTIO_IOMMU_TOPO_MMIO L)).

(** The next [k] calls of [kzalloc] succeed. *)
Definition kzalloc_succeeds (k : nat) (st : state) : bool :=
  forallb id (take k (kzalloc_plan st)).

Definition is_mmio_endpoint (ep : virt_iommu_endpoint_spec) : bool :=
  dev_spec_type (ep_devid ep) =? VIRT_IOMMU_DEV_TYPE_MMIO.

(** The entry at which the scan of [virt_set_iommu_ops dev] stops: a
    specification without device that matches [dev], or one already bound
    to [dev]. *)
Definition claims_iommu (dev : device) (vs : virt_iommu_spec) : bool :=
  (negb (bool_decide (is_Some (vs_dev vs))) && viommu_device_match dev (vs_devid vs))
  || bool_decide (vs_dev vs = Some (dev_addr dev)).

(** A stand-in for the IOMMU core, used by the examples:
    [iommu_fwspec_init] creates the firmware specification of a device that
    has none and otherwise accepts only the same ops;
    [iommu_fwspec_add_ids] appends the ids. *)
Definition example_fwspec_init (dev : device) (fwnode : option Z) (ops : Z)
    (fw : gmap nat iommu_fwspec) : Z * gmap nat iommu_fwspec :=
  match fw !! dev_addr dev with
  | Some f => (if bool_decide (fw_ops f = Some ops) then 0 else - EINVAL, fw)
  | None =>
      (0, <[dev_addr dev := {| fw_ops := Some ops; fw_fwnode := fwnode; fw_ids := [] |}]> fw)
  end.

Definition example_fwspec_add_ids (dev : device) (ids : list Z)
    (fw : gmap nat iommu_fwspec) : gmap nat iommu_fwspec :=
  match fw !! dev_addr dev with
  | Some f =>
      <[dev_addr dev := {| fw_ops := fw_ops f; fw_fwnode := fw_fwnode f;
                           fw_ids := fw_ids f ++ ids |}]> fw
  | None => fw
  end.

(** A VIOT table in the layout [spec_viot_layout]: a 48-byte header, then
    at 48 and 56 two PCI IOMMU nodes (segment 0, BDF 8 and BDF 31), at 64 and
    84 two PCI ranges [[0, 15]] (first id 0) and [[16, 31]] (first id 100)
    whose output node is the IOMMU at 56, at 104 a node of the unknown type
    9, and at 108 an MMIO endpoint (base 0x10000000, id 7) whose output node
    is the IOMMU at 48. *)
Definition example_viot_bytes : list Z :=
  repeat 0 48
  ++ [3; 0; 8; 0;  0; 0;  8; 0]
  ++ [3; 0; 8; 0;  0; 0;  31; 0]
  ++ [1; 0; 20; 0;  0; 0;  0; 0;  15; 0;  56; 0;  0; 0; 0; 0;  0; 0; 0; 0]
  ++ [1; 0; 20; 0;  0; 0;  16; 0;  31; 0;  56; 0;  0; 0; 0; 0;  100; 0; 0; 0]
  ++ [9; 0; 4; 0]
  ++ [2; 0; 20; 0;  7; 0; 0; 0;  48; 0; 0; 0;  0; 0; 0; 16; 0; 0; 0; 0].

Definition example_viot : acpi_table_viot :=
  {| header_length := 128; node_offset := 48; node_count := 6;
     viot_bytes := mem_of_bytes example_viot_bytes |}.

(** The topology discovered from [example_viot]. *)
Definition example_topology : state :=
  viot_parse_nodes spec_viot_layout example_viot empty_state.

(** The PCI devices at BDF 8 (the transport of the IOMMU node at 48),
    at BDF 31 (the transport of the IOMMU node at 56, inside the second
    range), at BDF 0x15 (an endpoint of the second range), and a platform
    device at the MMIO endpoint's base. *)
Definition pci_dev_8 : device :=
  {| dev_addr := 10%nat; dev_bus_info := BUS_PCI 0 8; dev_fwnode := Some 1008 |}.
Definition pci_dev_31 : device :=
  {| dev_addr := 11%nat; dev_bus_info := BUS_PCI 0 31; dev_fwnode := Some 1031 |}.
Definition pci_dev_21 : device :=
  {| dev_addr := 12%nat; dev_bus_info := BUS_PCI 0 21; dev_fwnode := None |}.

(** A VIOT table with two PCI IOMMU nodes, at 48 and 56, that both name the
    device at segment 0, BDF 31; the range [[0, 15]] (first id 0) has the node
    at 48 as output node, the range [[16, 30]] (first id 100) the node at
    56.  [viot_get_iommu] tells IOMMU nodes apart by their offset, so the
    table gives two IOMMU specifications with the same device id. *)
Definition twin_iommu_viot : acpi_table_viot :=
  {| header_length := 104; node_offset := 48; node_count := 4;
     viot_bytes :=
       mem_of_bytes
         (repeat 0 48
          ++ [3; 0; 8; 0;  0; 0;  31; 0]
          ++ [3; 0; 8; 0;  0; 0;  31; 0]
          ++ [1; 0; 20; 0;  0; 0;  0; 0;  15; 0;  48; 0;  0; 0; 0; 0;  0; 0; 0; 0]
          ++ [1; 0; 20; 0;  0; 0;  16; 0;  30; 0;  56; 0;  0; 0; 0; 0;  100; 0; 0; 0]) |}.

(** The topology discovered from [twin_iommu_viot]. *)
Definition twin_topology : state :=
  viot_parse_nodes spec_viot_layout twin_iommu_viot empty_state.

(** The PCI device at BDF 5, an endpoint of the range [[0, 15]]. *)
Definition pci_dev_5 : device :=
  {| dev_addr := 14%nat; dev_bus_info := BUS_PCI 0 5; dev_fwnode := None |}.

(** [registry_extends st st']: the registry lists of [st'] are those of
    [st] with entries added in front, and every object live in [st] is live
    and unchanged in [st']. *)
Definition registry_extends (st st' : state) : Prop :=
  (∃ l, viommus st' = l ++ viommus st)
  ∧ (∃ l, pci_endpoints st' = l ++ pci_endpoints st)
  ∧ (∃ l, mmio_endpoints st' = l ++ mmio_endpoints st)
  ∧ heap st ⊆ heap st'.

(** The invariant of the visited-node list: no offset is recorded twice,
    no specification is in [viommus] twice, every specification in
    [viommus] is live and every visited node is in [viommus]. *)
Definition viot_inv (st : state) : Prop :=
  NoDup (fst <$> iommus st)
  ∧ NoDup (viommus st)
  ∧ (∀ h, h ∈ viommus st → is_Some (heap st !! h))
  ∧ (∀ e, e ∈ iommus st → snd e ∈ viommus st).

(** [example_viot] cut short at byte 120: the MMIO record at 108 declares
    20 bytes and reaches 8 bytes past the end of the table. *)
Definition truncated_viot : acpi_table_viot :=
  {| header_length := 120; node_offset := 48; node_count := 6;
     viot_bytes := mem_of_bytes example_viot_bytes |}.

(** The output node an endpoint record refers to, read according to its
    type as [viot_parse_node] does. *)
Definition node_output_node (L : viot_layout) (viot : acpi_table_viot)
    (node : Z) : Z :=
  if node_type viot node =? ACPI_VIOT_NODE_PCI_RANGE L
  then read16 (viot_bytes viot) (node + viot_pci_output_node L)
  else read16 (viot_bytes viot) (node + viot_mmio_output_node L).

(** The endpoint an endpoint record describes, decoded as [viot_parse_node]
    does, pointing to the IOMMU specification [h]. *)
Definition node_endpoint (L : viot_layout) (viot : acpi_table_viot)
    (h : nat) (node : Z) : virt_iommu_endpoint_spec :=
  let m := viot_bytes viot in
  if node_type viot node =? ACPI_VIOT_NODE_PCI_RANGE L then
    {| ep_devid := DEV_PCI (read16 m (node + viot_pci_segment L))
                           (read16 m (node + viot_pci_bdf_start L))
                           (read16 m (node + viot_pci_bdf_end L));
       endpoint_id := read32 m (node + viot_pci_endpoint_start L);
       ep_viommu := Some h |}
  else
    {| ep_devid := DEV_MMIO (read64 m (node + viot_mmio_base_address L));
       endpoint_id := read32 m (node + viot_mmio_endpoint L);
       ep_viommu := Some h |}.

(** The declared length of an endpoint record is below the size of the
    structure of its type. *)
Definition node_too_short (L : viot_layout) (viot : acpi_table_viot)
    (node : Z) : bool :=
  if node_type viot node =? ACPI_VIOT_NODE_PCI_RANGE L
  then node_length viot node <? sizeof_viot_pci_range L
  else if node_type viot node =? ACPI_VIOT_NODE_MMIO L
  then node_length viot node <? sizeof_viot_mmio L
  else false.

(** A table whose only record is a PCI range that declares 12 bytes, less
    than the 20 bytes of the structure. *)
Definition short_range_viot : acpi_table_viot :=
  {| header_length := 60; node_offset := 48; node_count := 1;
     viot_bytes :=
       mem_of_bytes (repeat 0 48 ++ [1; 0; 12; 0;  0; 0;  0; 0;  15; 0;  56; 0]) |}.

(** The endpoint a record has just put at the head of its registry list. *)
Definition published_by (ep : virt_iommu_endpoint_spec) (before after : state) : Prop :=
  (is_mmio_endpoint ep = false
   ∧ pci_endpoints after = ep :: pci_endpoints before
   ∧ mmio_endpoints after = mmio_endpoints before)
  ∨ (is_mmio_endpoint ep = true
     ∧ mmio_endpoints after = ep :: mmio_endpoints before
     ∧ pci_endpoints after = pci_endpoints before).

(** [example_viot] cut at byte 104: the walk meets a record outside the
    table after the two IOMMU nodes and the two PCI ranges. *)
Definition corrupt_viot : acpi_table_viot :=
  {| header_length := 104; node_offset := 48; node_count := 6;
     viot_bytes := mem_of_bytes example_viot_bytes |}.

(** ** Locating the topology of a PCI virtio-iommu
    (drivers/iommu/virtio-iommu-topology.c, second half) *)

(** [struct viommu_cap_config]. *)
Record viommu_cap_config : Type := mk_cap {
  cap_bar : Z;
  cap_length : Z;
  cap_offset : Z
}.

(** uapi/linux/virtio_pci.h and uapi/linux/virtio_iommu.h are not part of
    the sources: the capability type codes, the offsets of the fields of
    [struct virtio_pci_cap] ([VPCI_FIELD]), the offset of [device_feature] in
    [struct virtio_pci_common_cfg] and the number of the topology feature bit
    are parameters. *)
Record virtio_pci_layout : Type := mk_pci_layout {
  VIRTIO_PCI_CAP_COMMON_CFG : Z;
  VIRTIO_PCI_CAP_DEVICE_CFG : Z;
  VIRTIO_PCI_CAP_PCI_CFG : Z;
  vpci_cfg_type : Z;
  vpci_bar : Z;
  vpci_length : Z;
  vpci_offset : Z;
  common_cfg_device_feature : Z;
  VIRTIO_IOMMU_F_TOPOLOGY : Z
}.

(** A PCI device as the fixup sees it: the embedded [struct device], the
    configuration space, the positions of the vendor-specific capabilities in
    the order in which [pci_find_capability] and [pci_find_next_capability]
    yield them (after the last one they yield 0), the status of
    [pci_enable_device_mem], what [pci_iomap(dev, bar, 0)] maps ([None] is
    [NULL]; the common configuration window is read with
    [device_feature_select] written to 0) and [pci_resource_len(dev, 0)]. *)
Record pci_dev : Type := mk_pci_dev {
  pd_dev : device;
  pd_config : iomem;
  pd_vndr_caps : list Z;
  pd_enable_device_mem : Z;
  pd_iomap : Z → option iomem;
  pd_resource_len0 : Z
}.

(** [size_t] and [resource_size_t] arithmetic wraps around at 64 bits. *)
Definition wrap64 (z : Z) : Z := z mod 18446744073709551616.

Section PciTopology.

Variable P : virtio_pci_layout.
Variable L : topo_layout.

(** The loop of [viommu_pci_find_capability] over the capability positions
    still to come.  Returns the position found, or 0, and [*cap]. *)
Fixpoint viommu_pci_find_capability_from (config : iomem) (cfg_type : Z)
    (cap : viommu_cap_config) (caps : list Z) : Z * viommu_cap_config :=
  match caps with
  | [] => (0, cap)
  | pos :: rest =>
    if pos <=? 0 then (0, cap)
    else
      let type := read8 config (pos + vpci_cfg_type P) in
      if negb (type =? cfg_type)
      then viommu_pci_find_capability_from config cfg_type cap rest
      else
        let bar := read8 config (pos + vpci_bar P) in
        if negb (type =? VIRTIO_PCI_CAP_PCI_CFG P) && (5 <? bar)
        then viommu_pci_find_capability_from config cfg_type cap rest
        else
          (pos, {| cap_bar := bar;
                   cap_length := read32 config (pos + vpci_length P);
                   cap_offset := read32 config (pos + vpci_offset P) |})
  end.

(** [viommu_pci_find_capability(dev, cfg_type, cap)]. *)
Definition viommu_pci_find_capability (dev : pci_dev) (cfg_type : Z)
    (cap : viommu_cap_config) : Z * viommu_cap_config :=
  viommu_pci_find_capability_from (pd_config dev) cfg_type cap (pd_vndr_caps dev).

(** [viommu_pci_parse_topology(dev)]; the status of [viommu_parse_topology]
    is only logged. *)
Definition viommu_pci_parse_topology (dev : pci_dev) (st : state) : state :=
  let cap0 := {| cap_bar := 0; cap_length := 0; cap_offset := 0 |} in
  let (ret, cap) := viommu_pci_find_capability dev (VIRTIO_PCI_CAP_COMMON_CFG P) cap0 in
  if ret =? 0 then st
  else if negb (pd_enable_device_mem dev =? 0) then st
  else
    match pd_iomap dev (cap_bar cap) with
    | None => st
    | Some regs =>
      let features := read32 regs (cap_offset cap + common_cfg_device_feature P) in
      if negb (Z.testbit features (VIRTIO_IOMMU_F_TOPOLOGY P)) then st
      else
        let (ret2, cap2) :=
          viommu_pci_find_capability dev (VIRTIO_PCI_CAP_DEVICE_CFG P) cap in
        if ret2 =? 0 then st
        else
          match pd_iomap dev (cap_bar cap2) with
          | None => st
          | Some regs2 =>
            snd (viommu_parse_topology L (pd_dev dev)
                   (fun a => regs2 (cap_offset cap2 + a))
                   (wrap64 (pd_resource_len0 dev - cap_offset cap2)) st)
          end
    end.

End PciTopology.

(** ** [acpi_viot_init]: [None] stands for a failed [acpi_get_table]. *)
Definition acpi_viot_init (L : viot_layout) (table : option acpi_table_viot)
    (st : state) : state :=
  match table with
  | None => st
  | Some viot => viot_parse_nodes L viot st
  end.

(** ** [virt_dma_configure] *)

Definition MAX_ERRNO : Z := 4095.

(** [IS_ERR_OR_NULL(ptr)]: [ERR_PTR(e)] is an error pointer for
    [-MAX_ERRNO <= e < 0] only. *)
Definition IS_ERR_OR_NULL (p : ptr_result Z) : bool :=
  match p with
  | Ptr _ => false
  | Null => true
  | ErrPtr e => (- MAX_ERRNO <=? e) && (e <? 0)
  end.

(** The pointer as an integer: [ERR_PTR(e)] is [(void * )e]. *)
Definition ptr_value (p : ptr_result Z) : Z :=
  match p with
  | Ptr a => a
  | Null => 0
  | ErrPtr e => e
  end.

Definition PTR_ERR (p : ptr_result Z) : Z := ptr_value p.

(** The calls [virt_dma_configure] makes into the DMA and IOMMU core:
    [iommu_probe_device(dev)], and [arch_setup_dma_ops] or
    [iommu_setup_dma_ops], recorded with the [iommu_ops] that the former is
    given. *)
Inductive dma_call : Type :=
  | IOMMU_PROBE_DEVICE (dev : nat)
  | SETUP_DMA_OPS (dev : nat) (iommu_ops : Z).

Section DmaConfigure.

Variable iommu_fwspec_init :
  device → option Z → Z → gmap nat iommu_fwspec → Z * gmap nat iommu_fwspec.
Variable iommu_fwspec_add_ids :
  device → list Z → gmap nat iommu_fwspec → gmap nat iommu_fwspec.
(** [dev->bus != NULL] and [device_iommu_mapped(dev)], which depend on the
    driver core. *)
Variable dev_has_bus : device → bool.
Variable device_iommu_mapped : device → state → bool.

(** [virt_dma_configure(dev)]: the status, the state and the calls made
    into the core, in order. *)
Definition virt_dma_configure (dev : device) (st : state)
  : Z * state * list dma_call :=
  let (iommu_ops, st1) :=
    virt_iommu_setup iommu_fwspec_init iommu_fwspec_add_ids dev st in
  if IS_ERR_OR_NULL iommu_ops then
    let ret := PTR_ERR iommu_ops in
    if (ret =? - EPROBE_DEFER) || (ret =? 0) then (ret, st1, [])
    else (0, st1, [])
  else
    let probe :=
      if dev_has_bus dev && negb (device_iommu_mapped dev st1)
      then [IOMMU_PROBE_DEVICE (dev_addr dev)] else [] in
    (0, st1, probe ++ [SETUP_DMA_OPS (dev_addr dev) (ptr_value iommu_ops)]).

End DmaConfigure.

(** ** Further notions used to state the properties *)

(** The endpoint [viommu_parse_node] builds from an item of known type,
    linked to the IOMMU specification [h]. *)
Definition item_endpoint (L : topo_layout) (cfg : iomem) (h : nat) (offset : Z)
  : virt_iommu_endpoint_spec :=
  if read8 cfg offset =? VIRTIO_IOMMU_TOPO_PCI_RANGE L then
    {| ep_devid := DEV_PCI (read16 cfg (offset + topo_pci_segment L))
                           (read16 cfg (offset + topo_pci_bdf_start L))
                           (read16 cfg (offset + topo_pci_bdf_end L));
       endpoint_id := read32 cfg (offset + topo_pci_endpoint_start L);
       ep_viommu := Some h |}
  else
    {| ep_devid := DEV_MMIO (read64 cfg (offset + topo_mmio_address L));
       endpoint_id := read32 cfg (offset + topo_mmio_endpoint L);
       ep_viommu := Some h |}.

(** The registry is well formed: the PCI list holds PCI ranges and the MMIO
    list MMIO regions, and every endpoint points to a live IOMMU
    specification that is in [viommus]. *)
Definition endpoint_ok (st : state) (mmio : bool) (ep : virt_iommu_endpoint_spec) : Prop :=
  (if mmio then ∃ b, ep_devid ep = DEV_MMIO b
   else ∃ s b e, ep_devid ep = DEV_PCI s b e)
  ∧ ∃ h, ep_viommu ep = Some h ∧ h ∈ viommus st ∧ is_Some (heap st !! h).

Definition registry_wf (st : state) : Prop :=
  Forall (endpoint_ok st false) (pci_endpoints st)
  ∧ Forall (endpoint_ok st true) (mmio_endpoints st).

(** A PCI layout for the examples: the capability types and field offsets
    of the virtio specification, with feature bit 6 for the topology. *)
Definition example_pci_layout : virtio_pci_layout :=
  {| VIRTIO_PCI_CAP_COMMON_CFG := 1;
     VIRTIO_PCI_CAP_DEVICE_CFG := 4;
     VIRTIO_PCI_CAP_PCI_CFG := 5;
     vpci_cfg_type := 3;
     vpci_bar := 4;
     vpci_offset := 8;
     vpci_length := 12;
     common_cfg_device_feature := 4;
     VIRTIO_IOMMU_F_TOPOLOGY := 6 |}.

(** The endpoint id [virt_iommu_setup] computes for [dev] from the
    endpoint entry [ep]. *)
Definition endpoint_id_for (dev : device) (ep : virt_iommu_endpoint_spec) : Z :=
  match dev_bus_info dev with
  | BUS_PCI _ devid =>
      wrap32 (devid - dev_spec_bdf_start (ep_devid ep) + endpoint_id ep)
  | _ => endpoint_id ep
  end.

(** What [virt_set_iommu_ops dev ops] leaves in the specification it
    stops at. *)
Definition bound_viommu (dev : device) (ops : option Z) (vs : virt_iommu_spec)
  : virt_iommu_spec :=
  {| vs_devid := vs_devid vs;
     vs_dev := Some (dev_addr dev);
     vs_fwnode := match ops with Some _ => dev_fwnode dev | None => None end;
     vs_ops := ops |}.

(** The endpoints of the [n] items of a configuration walk that starts at
    [offset], in item order. *)
Definition topology_items (L : topo_layout) (cfg : iomem) (h : nat)
    (offset : Z) (n : nat) : list virt_iommu_endpoint_spec :=
  map (fun k => item_endpoint L cfg h (item_offset cfg offset k)) (seq 0 n).

(** The invariant of the whole store: the visited-node list and the
    registry are well formed. *)
Definition topology_wf (st : state) : Prop := viot_inv st ∧ registry_wf st.

(** The capability at [pos] is one [viommu_pci_find_capability] accepts for
    [cfg_type]: its type is [cfg_type] and its BAR is not reserved (BARs
    above 5), unless the type is [VIRTIO_PCI_CAP_PCI_CFG]. *)
Definition cap_qualifies (P : virtio_pci_layout) (config : iomem)
    (cfg_type pos : Z) : bool :=
  (read8 config (pos + vpci_cfg_type P) =? cfg_type)
  && negb (negb (read8 config (pos + vpci_cfg_type P) =? VIRTIO_PCI_CAP_PCI_CFG P)
           && (5 <? read8 config (pos + vpci_bar P))).

(** The fields of the capability at [pos]. *)
Definition cap_at (P : virtio_pci_layout) (config : iomem) (pos : Z)
  : viommu_cap_config :=
  {| cap_bar := read8 config (pos + vpci_bar P);
     cap_length := read32 config (pos + vpci_length P);
     cap_offset := read32 config (pos + vpci_offset P) |}.

(** A virtio-iommu function whose vendor capabilities sit at 64 (type 9),
    80 (common configuration, BAR 7: reserved), 96 (common configuration,
    BAR 0, offset 0) and 112 (device configuration, BAR 0, offset 16); BAR 0
    holds the common configuration with feature bit 6 set and, from byte 16,
    the window [cfg_three_items]. *)
Definition example_pci_config : iomem :=
  mem_of_bytes
    (repeat 0 64
     ++ [9; 80; 16; 9;  0; 0; 0; 0;  0; 0; 0; 0;  0; 0; 0; 0]
     ++ [9; 96; 16; 1;  7; 0; 0; 0;  0; 0; 0; 0;  8; 0; 0; 0]
     ++ [9; 112; 16; 1;  0; 0; 0; 0;  0; 0; 0; 0;  16; 0; 0; 0]
     ++ [9; 0; 16; 4;  0; 0; 0; 0;  16; 0; 0; 0;  88; 0; 0; 0]).

Definition example_bar0 : iomem :=
  fun a => if a <? 16 then mem_of_bytes [0; 0; 0; 0; 64; 0; 0; 0] a
           else cfg_three_items (a - 16).

Definition example_pci_dev : pci_dev :=
  {| pd_dev := viommu_pci_dev;
     pd_config := example_pci_config;
     pd_vndr_caps := [64; 80; 96; 112];
     pd_enable_device_mem := 0;
     pd_iomap := fun bar => if bar =? 0 then Some example_bar0 else None;
     pd_resource_len0 := 104 |}.

(** The device id [viot_get_iommu] gives the specification of the IOMMU
    node at [node], and the test that the node is one it accepts: a PCI or
    MMIO IOMMU node that is long enough. *)
Definition iommu_node_devid (L : viot_layout) (viot : acpi_table_viot)
    (node : Z) : virt_iommu_dev_spec :=
  if node_type viot node =? ACPI_VIOT_NODE_VIRTIO_IOMMU_PCI L then
    DEV_PCI (read16 (viot_bytes viot) (node + viot_iommu_pci_segment L))
            (read16 (viot_bytes viot) (node + viot_iommu_pci_bdf L))
            (read16 (viot_bytes viot) (node + viot_iommu_pci_bdf L))
  else DEV_MMIO (read64 (viot_bytes viot) (node + viot_iommu_mmio_base_address L)).

Definition iommu_node_ok (L : viot_layout) (viot : acpi_table_viot)
    (node : Z) : bool :=
  if node_type viot node =? ACPI_VIOT_NODE_VIRTIO_IOMMU_PCI L
  then negb (node_length viot node <? sizeof_viot_iommu_pci L)
  else (node_type viot node =? ACPI_VIOT_NODE_VIRTIO_IOMMU_MMIO L)
       && negb (node_length viot node <? sizeof_viot_iommu_mmio L).

(** ** State bookkeeping *)

(** [plan_only st st']: [st'] differs from [st] at most in the allocation
    plan. *)
Definition plan_only (st st' : state) : Prop :=
  st' = set_plan (kzalloc_plan st') st.

(** [alloc_only st st']: [st'] differs from [st] at most in the allocation
    plan and in the number of endpoint objects. *)
Definition alloc_only (st st' : state) : Prop :=
  st' = set_endpoint_objs (endpoint_objs st') (set_plan (kzalloc_plan st') st).

(** * Properties *)

(** ** State bookkeeping *)


Lemma plan_only_refl st : plan_only st st.
Proof. by destruct st. Qed.

Lemma plan_only_trans st1 st2 st3 :
  plan_only st1 st2 → plan_only st2 st3 → plan_only st1 st3.
Proof. unfold plan_only. intros -> ->. by destruct st1. Qed.

Lemma kzalloc_plan_only st : plan_only st (snd (kzalloc st)).
Proof.
  unfold kzalloc. destruct (kzalloc_plan st) eqn:E; simpl.
  - apply plan_only_refl.
  - by destruct st.
Qed.

Lemma plan_only_registry st st' : plan_only st st' → registry st' = registry st.
Proof. by intros ->. Qed.

Lemma plan_only_heap st st' : plan_only st st' → heap st' = heap st.
Proof. by intros ->. Qed.

Lemma kzalloc_no_plan st : kzalloc_plan st = [] → kzalloc st = (true, st).
Proof. unfold kzalloc. by intros ->. Qed.

Lemma kzalloc_succeeds_nil k st :
  kzalloc_plan st = [] → kzalloc_succeeds k st = true.
Proof. unfold kzalloc_succeeds. intros ->. by destruct k. Qed.

Lemma kzalloc_succeeds_S k st :
  kzalloc_succeeds (S k) st = true →
  fst (kzalloc st) = true ∧ kzalloc_succeeds k (snd (kzalloc st)) = true.
Proof.
  unfold kzalloc_succeeds, kzalloc.
  destruct (kzalloc_plan st) as [|b p] eqn:E; simpl.
  - rewrite E. by destruct k.
  - intros [-> Hp]%andb_true_iff. done.
Qed.

Lemma read8_range m a : 0 ≤ read8 m a < 256.
Proof. unfold read8. by apply Z.mod_pos_bound. Qed.

Lemma read16_range m a : 0 ≤ read16 m a < 65536.
Proof.
  unfold read16.
  pose proof (read8_range m a). pose proof (read8_range m (a + 1)). lia.
Qed.


Lemma plan_only_alloc_only st st' : plan_only st st' → alloc_only st st'.
Proof. unfold plan_only, alloc_only. intros ->. by destruct st. Qed.

Lemma alloc_only_trans st1 st2 st3 :
  alloc_only st1 st2 → alloc_only st2 st3 → alloc_only st1 st3.
Proof. unfold alloc_only. intros -> ->. by destruct st1. Qed.

Lemma alloc_only_registry st st' : alloc_only st st' → registry st' = registry st.
Proof. by intros ->. Qed.

Lemma alloc_only_heap st st' : alloc_only st st' → heap st' = heap st.
Proof. by intros ->. Qed.

Lemma alloc_only_registry_fields st st' :
  alloc_only st st' →
  pci_endpoints st' = pci_endpoints st ∧ mmio_endpoints st' = mmio_endpoints st.
Proof. by intros ->. Qed.

(** An allocation that is freed again leaves the number of objects as it
    was. *)
Lemma alloc_only_same_count st st' :
  alloc_only st st' → endpoint_objs st' = endpoint_objs st → plan_only st st'.
Proof.
  unfold alloc_only, plan_only. intros -> E. simpl in *. rewrite E.
  by destruct st.
Qed.

Lemma kzalloc_endpoint_fst st : fst (kzalloc_endpoint st) = fst (kzalloc st).
Proof. unfold kzalloc_endpoint. by destruct (kzalloc st) as [[] ?]. Qed.

Lemma kzalloc_endpoint_true st :
  fst (kzalloc st) = true →
  kzalloc_endpoint st
  = (true, set_endpoint_objs (endpoint_objs st + 1) (snd (kzalloc st))).
Proof.
  unfold kzalloc_endpoint. pose proof (kzalloc_plan_only st) as Hk.
  destruct (kzalloc st) as [ok k]; simpl in *. intros ->.
  by rewrite Hk.
Qed.

Lemma kzalloc_endpoint_false st :
  fst (kzalloc st) = false → kzalloc_endpoint st = (false, snd (kzalloc st)).
Proof.
  unfold kzalloc_endpoint. destruct (kzalloc st) as [ok k]; simpl. by intros ->.
Qed.

Lemma kzalloc_endpoint_alloc_only st : alloc_only st (snd (kzalloc_endpoint st)).
Proof.
  unfold kzalloc_endpoint. pose proof (kzalloc_plan_only st) as Hk.
  destruct (kzalloc st) as [ok k]; simpl in *.
  destruct ok; simpl; [|by apply plan_only_alloc_only].
  rewrite Hk. unfold alloc_only. by destruct st.
Qed.

(** Freeing the object just allocated. *)
Lemma kfree_kzalloc_endpoint st :
  fst (kzalloc st) = true →
  kfree_endpoint (snd (kzalloc_endpoint st)) = snd (kzalloc st).
Proof.
  intros Hk. rewrite (kzalloc_endpoint_true _ Hk).
  pose proof (kzalloc_plan_only st) as Hp. rewrite Hp.
  generalize (kzalloc_plan (snd (kzalloc st))). intros p.
  unfold kfree_endpoint, set_endpoint_objs, set_plan. destruct st. simpl.
  f_equal. lia.
Qed.

Lemma kfree_alloc_endpoint k :
  kfree_endpoint (set_endpoint_objs (endpoint_objs k + 1) k) = k.
Proof.
  unfold kfree_endpoint, set_endpoint_objs. destruct k. simpl. f_equal. lia.
Qed.

Lemma kfree_endpoint_plan_only st st' :
  plan_only st st' → plan_only (kfree_endpoint st) (kfree_endpoint st').
Proof. unfold plan_only. intros ->. by destruct st. Qed.

(** The two outcomes of [kzalloc_endpoint]. *)
Lemma kzalloc_endpoint_cases st :
  kzalloc_endpoint st = (false, snd (kzalloc st))
  ∨ kzalloc_endpoint st
    = (true, set_endpoint_objs (endpoint_objs (snd (kzalloc st)) + 1)
               (snd (kzalloc st))).
Proof. unfold kzalloc_endpoint. destruct (kzalloc st) as [[] k]; auto. Qed.

Lemma kfree_endpoints_count eps : ∀ st,
  kfree_endpoints eps st
  = set_endpoint_objs (endpoint_objs st - Z.of_nat (length eps)) st.
Proof.
  unfold kfree_endpoints.
  induction eps as [|ep eps IH]; intros st; simpl fold_left.
  - destruct st. unfold set_endpoint_objs. simpl. f_equal. lia.
  - rewrite IH. unfold kfree_endpoint. destruct st. unfold set_endpoint_objs.
    simpl. f_equal. lia.
Qed.

Lemma kfree_endpoints_nil st : kfree_endpoints [] st = st.
Proof. done. Qed.

Lemma kfree_endpoints_alloc_only eps st : alloc_only st (kfree_endpoints eps st).
Proof. rewrite kfree_endpoints_count. unfold alloc_only. by destruct st. Qed.

Create HintDb viommu.
#[local] Hint Resolve plan_only_refl kzalloc_plan_only : viommu.

(** ** Device config-region parser *)

Section TopologyFacts.

Variable L : topo_layout.

(** [viommu_parse_node] changes the allocation plan, and the number of
    endpoint objects exactly when it returns one: on every error path the
    object it allocated is freed. *)
Lemma viommu_parse_node_alloc cfg offset len st :
  let r := viommu_parse_node L cfg offset len st in
  alloc_only st (snd r)
  ∧ endpoint_objs (snd r)
    = match fst r with
      | Ptr _ => endpoint_objs st + 1
      | _ => endpoint_objs st
      end.
Proof.
  unfold viommu_parse_node, kzalloc_endpoint.
  pose proof (kzalloc_plan_only st) as Hk.
  destruct (kzalloc st) as [ok st1]; simpl in Hk.
  assert (Ha : alloc_only st st1) by (by apply plan_only_alloc_only).
  assert (Hc : endpoint_objs st1 = endpoint_objs st) by (by rewrite Hk).
  assert (Hf : alloc_only st (kfree_endpoint (set_endpoint_objs
                                (endpoint_objs st1 + 1) st1))
               ∧ endpoint_objs (kfree_endpoint (set_endpoint_objs
                                (endpoint_objs st1 + 1) st1)) = endpoint_objs st).
  { rewrite Hk. unfold alloc_only. split; [by destruct st|]. simpl. lia. }
  assert (Hs : alloc_only st (set_endpoint_objs (endpoint_objs st1 + 1) st1)
               ∧ endpoint_objs (set_endpoint_objs (endpoint_objs st1 + 1) st1)
                 = endpoint_objs st + 1).
  { rewrite Hk. unfold alloc_only. split; [by destruct st|]. done. }
  destruct ok; simpl; [|done].
  repeat case_match; simpl; done.
Qed.

(** [viommu_parse_node] never returns [NULL]. *)
Lemma viommu_parse_node_not_null cfg offset len st :
  fst (viommu_parse_node L cfg offset len st) ≠ Null.
Proof.
  unfold viommu_parse_node, kzalloc_endpoint.
  destruct (kzalloc st) as [ok st1]. destruct ok; simpl; [|done].
  repeat case_match; done.
Qed.

(** The walk changes the allocation plan and the number of endpoint objects
    only.  When it goes through, each of the [n] items has added one object;
    when it fails, every object of the local list has been freed: those it
    allocated itself and those of the list it started with. *)
Lemma viommu_walk_alloc cfg max_len v n : ∀ offset eps st,
  let r := viommu_walk L cfg max_len v n offset eps st in
  alloc_only st (snd r)
  ∧ endpoint_objs (snd r)
    = match fst r with
      | inr _ => endpoint_objs st + Z.of_nat n
      | inl _ => endpoint_objs st - Z.of_nat (length eps)
      end.
Proof.
  induction n as [|n IH]; intros offset eps st; simpl.
  { split; [by apply plan_only_alloc_only, plan_only_refl|lia]. }
  assert (Hfree : ∀ s, alloc_only st s →
            alloc_only st (kfree_endpoints eps s)
            ∧ endpoint_objs (kfree_endpoints eps s)
              = endpoint_objs s - Z.of_nat (length eps)).
  { intros s Hs. split.
    - eapply alloc_only_trans; [exact Hs|apply kfree_endpoints_alloc_only].
    - by rewrite kfree_endpoints_count. }
  destruct (max_len <? _).
  { simpl. apply Hfree, plan_only_alloc_only, plan_only_refl. }
  destruct (max_len <? _).
  { simpl. apply Hfree, plan_only_alloc_only, plan_only_refl. }
  pose proof (viommu_parse_node_alloc cfg offset
                (ioread16 cfg (offset + 2)) st) as [Hp Hc].
  pose proof (viommu_parse_node_not_null cfg offset
                (ioread16 cfg (offset + 2)) st) as Hnn.
  destruct (viommu_parse_node _ _ _ _ _) as [[ep| |e] st1]; simpl in *.
  - destruct (IH (offset + ioread16 cfg (offset + 2))
                (set_ep_viommu v ep :: eps) st1) as [H1 H2].
    split; [by eapply alloc_only_trans|].
    rewrite H2. destruct (fst (viommu_walk _ _ _ _ _ _ _ _)); simpl length; lia.
  - done.
  - destruct (Hfree st1 Hp) as [H1 H2]. split; [done|]. lia.
Qed.

Lemma viommu_walk_alloc_only cfg max_len v n offset eps st :
  alloc_only st (snd (viommu_walk L cfg max_len v n offset eps st)).
Proof. apply viommu_walk_alloc. Qed.

Lemma kzalloc_viommu_some st h st1 :
  kzalloc_viommu st = (Some h, st1) →
  heap st !! h = None
  ∧ st1 = set_heap (<[h := zero_viommu]> (heap st)) (snd (kzalloc st)).
Proof.
  unfold kzalloc_viommu.
  pose proof (kzalloc_plan_only st) as Hk.
  destruct (kzalloc st) as [ok k]; simpl in *. destruct ok; [|done].
  intros [= <- <-]. rewrite (plan_only_heap _ _ Hk). split; [|done].
  apply not_elem_of_dom, is_fresh.
Qed.

Lemma kzalloc_viommu_none st st1 :
  kzalloc_viommu st = (None, st1) → plan_only st st1.
Proof.
  unfold kzalloc_viommu.
  pose proof (kzalloc_plan_only st) as Hk.
  destruct (kzalloc st) as [ok k]; simpl in *. destruct ok; [done|].
  by intros [= <-].
Qed.

(** The walk at an item that violates a bound. *)
Lemma viommu_walk_overflow cfg max_len v n offset eps st :
  item_overflows cfg max_len offset = true →
  viommu_walk L cfg max_len v (S n) offset eps st
  = (inl (- EOVERFLOW), kfree_endpoints eps st).
Proof.
  unfold item_overflows. simpl. unfold ioread16.
  destruct (max_len <? offset + sizeof_viommu_topo_header); [done|].
  simpl. by intros ->.
Qed.

(** The walk over a prefix of the items, continued. *)
Lemma viommu_walk_app cfg max_len v k m : ∀ offset eps st eps1 st1,
  viommu_walk L cfg max_len v k offset eps st = (inr eps1, st1) →
  viommu_walk L cfg max_len v (k + m) offset eps st
  = viommu_walk L cfg max_len v m (item_offset cfg offset k) eps1 st1.
Proof.
  induction k as [|k IH]; intros offset eps st eps1 st1; simpl.
  - by intros [= <- <-].
  - destruct (max_len <? _); [done|].
    destruct (max_len <? _); [done|].
    destruct (viommu_parse_node _ _ _ _ _) as [[ep| |e] st2]; [| |done].
    + apply IH.
    + apply IH.
Qed.

(** A walk that succeeds has met no item failing validation. *)
Lemma viommu_walk_ok_valid cfg max_len v n : ∀ offset eps st eps1 st1,
  viommu_walk L cfg max_len v n offset eps st = (inr eps1, st1) →
  ∀ k, (k < n)%nat →
  item_fails_validation L cfg max_len (item_offset cfg offset k) = false.
Proof.
  induction n as [|n IH]; intros offset eps st eps1 st1 Hw k Hk; [lia|].
  simpl in Hw.
  destruct (max_len <? offset + sizeof_viommu_topo_header) eqn:E1; [done|].
  destruct (max_len <? offset + ioread16 cfg (offset + 2)) eqn:E2; [done|].
  destruct k as [|k].
  - simpl. unfold item_fails_validation, item_overflows, item_too_short.
    unfold ioread16 in *. rewrite E1, E2. simpl.
    revert Hw. unfold viommu_parse_node, kzalloc_endpoint, ioread8, ioread16.
    destruct (kzalloc st) as [ok st2]. destruct ok; simpl; [|done].
    destruct (read8 cfg offset =? VIRTIO_IOMMU_TOPO_PCI_RANGE L); simpl.
    { destruct (_ <? sizeof_topo_pci_range L); [done|]. by rewrite orb_false_r. }
    destruct (read8 cfg offset =? VIRTIO_IOMMU_TOPO_MMIO L); simpl; [|done].
    by destruct (_ <? sizeof_topo_mmio L).
  - simpl. destruct (viommu_parse_node _ _ _ _ _) as [[ep| |e] st2]; [| |done].
    + eapply IH; [exact Hw|lia].
    + eapply IH; [exact Hw|lia].
Qed.

(** Without allocation failure, accepted items are walked through. *)
Lemma viommu_walk_accepted cfg max_len v k : ∀ offset eps st,
  kzalloc_succeeds k st = true →
  (∀ j, (j < k)%nat → item_accepted L cfg max_len (item_offset cfg offset j) = true) →
  ∃ eps1 st1, viommu_walk L cfg max_len v k offset eps st = (inr eps1, st1).
Proof.
  induction k as [|k IH]; intros offset eps st Hp Hacc; [by eexists _, _|].
  apply kzalloc_succeeds_S in Hp as [Hk1 Hk2].
  assert (Hnext : ∀ ep,
    ∃ eps1 st1, viommu_walk L cfg max_len v k (offset + read16 cfg (offset + 2))
                  (ep :: eps) (snd (kzalloc_endpoint st)) = (inr eps1, st1)).
  { intros ep. apply IH.
    - by rewrite (kzalloc_endpoint_true _ Hk1).
    - intros j Hj. apply (Hacc (S j)). lia. }
  pose proof (Hacc 0%nat ltac:(lia)) as H0. simpl in H0.
  unfold item_accepted, item_fails_validation, item_overflows, item_too_short in H0.
  cbn [viommu_walk]. unfold ioread16, viommu_parse_node, ioread8.
  rewrite <- kzalloc_endpoint_fst in Hk1.
  destruct (kzalloc_endpoint st) as [ok st1]; simpl in Hk1, Hnext. subst ok.
  cbn [negb].
  destruct (max_len <? offset + sizeof_viommu_topo_header); [done|].
  destruct (max_len <? offset + read16 cfg (offset + 2)); [done|].
  simpl in H0.
  destruct (read8 cfg offset =? VIRTIO_IOMMU_TOPO_PCI_RANGE L); simpl in H0.
  { destruct (_ <? sizeof_topo_pci_range L); [done|]. apply Hnext. }
  destruct (read8 cfg offset =? VIRTIO_IOMMU_TOPO_MMIO L); simpl in H0; [|done].
  destruct (_ <? sizeof_topo_mmio L); [done|]. apply Hnext.
Qed.

(** The code with which a walk fails is not 0. *)
Lemma viommu_walk_error_nonzero cfg max_len v n : ∀ offset eps st e st1,
  viommu_walk L cfg max_len v n offset eps st = (inl e, st1) → e ≠ 0.
Proof.
  induction n as [|n IH]; intros offset eps st e st1; simpl; [done|].
  destruct (max_len <? _); [by intros [= <- <-]|].
  destruct (max_len <? _); [by intros [= <- <-]|].
  destruct (viommu_parse_node _ _ _ _ _) as [[ep| |e'] st2] eqn:Ep;
    [apply IH|apply IH|].
  intros [= -> _]. revert Ep. unfold viommu_parse_node, kzalloc_endpoint.
  destruct (kzalloc st) as [ok st5]. destruct ok; simpl; [|by intros [= <- <-]].
  repeat case_match; try done; by intros [= <- <-].
Qed.

(** Every endpoint collected by the walk points to the IOMMU of the walk,
    and each item walked adds one endpoint. *)
Lemma viommu_walk_endpoints cfg max_len v n : ∀ offset eps st eps1 st1,
  viommu_walk L cfg max_len v n offset eps st = (inr eps1, st1) →
  Forall (λ ep, ep_viommu ep = Some v) eps →
  Forall (λ ep, ep_viommu ep = Some v) eps1
  ∧ length eps1 = (n + length eps)%nat.
Proof.
  induction n as [|n IH]; intros offset eps st eps1 st1; simpl.
  - by intros [= <- <-].
  - destruct (max_len <? _); [done|].
    destruct (max_len <? _); [done|].
    pose proof (viommu_parse_node_not_null cfg offset
                  (ioread16 cfg (offset + 2)) st) as Hnn.
    destruct (viommu_parse_node _ _ _ _ _) as [[ep| |e] st2]; [|done|done].
    intros Hw Hall. apply IH in Hw as [H1 H2].
    + split; [done|]. rewrite H2. simpl. lia.
    + by constructor.
Qed.

Lemma publish_endpoints_spec eps : ∀ st,
  pci_endpoints (publish_endpoints eps st)
  = rev (List.filter (λ ep, negb (is_mmio_endpoint ep)) eps) ++ pci_endpoints st
  ∧ mmio_endpoints (publish_endpoints eps st)
    = rev (List.filter is_mmio_endpoint eps) ++ mmio_endpoints st
  ∧ viommus (publish_endpoints eps st) = viommus st
  ∧ heap (publish_endpoints eps st) = heap st.
Proof.
  unfold publish_endpoints.
  induction eps as [|ep eps IH]; intros st; simpl; [done|].
  destruct (IH (virt_iommu_add_endpoint_spec ep st)) as (H1 & H2 & H3 & H4).
  rewrite H1, H2, H3, H4. unfold virt_iommu_add_endpoint_spec, is_mmio_endpoint.
  destruct (dev_spec_type (ep_devid ep) =? VIRT_IOMMU_DEV_TYPE_MMIO); simpl;
    rewrite <- ?app_assoc; done.
Qed.

End TopologyFacts.

(** ** Device config-region parser: what is published *)

Section TopologyPublish.

Variable L : topo_layout.

(** An endpoint returned by [viommu_parse_node] is the decoded item. *)
Lemma viommu_parse_node_decode cfg offset len st ep st1 v :
  viommu_parse_node L cfg offset len st = (Ptr ep, st1) →
  set_ep_viommu v ep = item_endpoint L cfg v offset.
Proof.
  unfold viommu_parse_node, kzalloc_endpoint, item_endpoint,
    ioread8, ioread16, ioread32, ioread64.
  destruct (kzalloc st) as [ok k]. destruct ok; simpl; [|done].
  destruct (read8 cfg offset =? VIRTIO_IOMMU_TOPO_PCI_RANGE L).
  { destruct (len <? _); [done|]. by intros [= <- <-]. }
  destruct (read8 cfg offset =? VIRTIO_IOMMU_TOPO_MMIO L); [|done].
  destruct (len <? _); [done|]. by intros [= <- <-].
Qed.

(** The list a successful walk collects is the list of the decoded items,
    last item first. *)
Lemma viommu_walk_decode cfg max_len v n : ∀ offset eps st eps1 st1,
  viommu_walk L cfg max_len v n offset eps st = (inr eps1, st1) →
  eps1 = rev (topology_items L cfg v offset n) ++ eps.
Proof.
  unfold topology_items.
  induction n as [|n IH]; intros offset eps st eps1 st1; simpl.
  - by intros [= <- <-].
  - destruct (max_len <? _); [done|].
    destruct (max_len <? _); [done|].
    pose proof (viommu_parse_node_not_null L cfg offset
                  (ioread16 cfg (offset + 2)) st) as Hnn.
    destruct (viommu_parse_node _ _ _ _ _) as [[ep| |e] st2] eqn:Ep; [|done|done].
    intros Hw. apply IH in Hw. rewrite Hw.
    rewrite (viommu_parse_node_decode _ _ _ _ _ _ v Ep).
    rewrite <- seq_shift, map_map. unfold ioread16.
    by rewrite <- app_assoc.
Qed.

Lemma publish_endpoints_rest eps : ∀ st,
  iommus (publish_endpoints eps st) = iommus st
  ∧ fwspecs (publish_endpoints eps st) = fwspecs st
  ∧ acs_requested (publish_endpoints eps st) = acs_requested st
  ∧ kzalloc_plan (publish_endpoints eps st) = kzalloc_plan st
  ∧ endpoint_objs (publish_endpoints eps st) = endpoint_objs st.
Proof.
  unfold publish_endpoints.
  induction eps as [|ep eps IH]; intros st; simpl; [done|].
  destruct (IH (virt_iommu_add_endpoint_spec ep st)) as (-> & -> & -> & -> & ->).
  unfold virt_iommu_add_endpoint_spec. by destruct (_ =? _).
Qed.

(** The three outcomes of [viommu_parse_topology]: a failure, after which
    the state differs at most in the allocation plan (every object allocated
    by the call has been freed); an empty descriptor, with the state
    untouched; or a completed walk, published, with one endpoint object per
    item. *)
Lemma viommu_parse_topology_outcome dev cfg max_len st :
  let offset := ioread16 cfg (topo_config_offset L) in
  let n := Z.to_nat (ioread16 cfg (topo_config_num_items L)) in
  (fst (viommu_parse_topology L dev cfg max_len st) ≠ 0
   ∧ plan_only st (snd (viommu_parse_topology L dev cfg max_len st)))
  ∨ ((offset = 0 ∨ n = 0%nat)
     ∧ viommu_parse_topology L dev cfg max_len st = (0, st))
  ∨ (offset ≠ 0 ∧ n ≠ 0%nat
     ∧ ∃ h p,
         heap st !! h = None
         ∧ viommu_parse_topology L dev cfg max_len st
           = (0,
              {| heap := <[h := set_vs_dev (Some (dev_addr dev)) zero_viommu]> (heap st);
                 endpoint_objs := endpoint_objs st + Z.of_nat n;
                 viommus := h :: viommus st;
                 pci_endpoints :=
                   List.filter (λ ep, negb (is_mmio_endpoint ep))
                     (topology_items L cfg h offset n) ++ pci_endpoints st;
                 mmio_endpoints :=
                   List.filter is_mmio_endpoint (topology_items L cfg h offset n)
                   ++ mmio_endpoints st;
                 iommus := iommus st;
                 fwspecs := fwspecs st;
                 acs_requested := acs_requested st;
                 kzalloc_plan := p |})).
Proof.
  intros offset n. unfold viommu_parse_topology. fold offset.
  destruct (offset =? 0) eqn:Eo; simpl.
  { apply Z.eqb_eq in Eo. right. left. auto. }
  apply Z.eqb_neq in Eo.
  destruct (ioread16 cfg (topo_config_num_items L) =? 0) eqn:En; simpl.
  { apply Z.eqb_eq in En. right. left. split; [|done]. right. subst n. by rewrite En. }
  apply Z.eqb_neq in En.
  assert (Hn : n ≠ 0%nat).
  { subst n. pose proof (read16_range cfg (topo_config_num_items L)).
    unfold ioread16 in *. lia. }
  pose proof (kzalloc_plan_only st) as Hk.
  destruct (kzalloc_viommu st) as [[h|] st1] eqn:Ek.
  2:{ left. split; [done|]. by apply kzalloc_viommu_none. }
  apply kzalloc_viommu_some in Ek as [Hfresh ->].
  set (k0 := snd (kzalloc st)) in *.
  set (st2 := set_heap _ _).
  assert (Hst2 : st2 = set_heap (<[h := set_vs_dev (Some (dev_addr dev)) zero_viommu]>
                                   (heap st)) k0).
  { subst st2. unfold viommu_at. simpl. rewrite lookup_insert_eq. simpl.
    by rewrite insert_insert_eq. }
  rewrite Hst2. clear Hst2 st2. set (st2 := set_heap _ k0).
  pose proof (viommu_walk_alloc L cfg max_len h n offset [] st2) as [Ha Hc].
  fold n in Ha, Hc |- *.
  destruct (viommu_walk L cfg max_len h n offset [] st2) as [[ret|eps] st3] eqn:Ew;
    simpl in *.
  - left. split; [by eapply viommu_walk_error_nonzero|].
    assert (Hw : plan_only st2 st3).
    { apply alloc_only_same_count; [done|].
      change (endpoint_objs st2) with (endpoint_objs k0). lia. }
    unfold plan_only, kfree_viommu. rewrite Hw. subst st2. simpl. rewrite Hk. simpl.
    rewrite delete_insert_eq, delete_id by done. by destruct st.
  - right. right. split; [done|]. split; [done|].
    exists h, (kzalloc_plan st3). split; [done|].
    pose proof (viommu_walk_decode cfg max_len h n offset [] st2 eps st3 Ew) as He.
    rewrite app_nil_r in He. subst eps.
    destruct (publish_endpoints_spec (rev (topology_items L cfg h offset n)) st3)
      as (H1 & H2 & H3 & H4).
    destruct (publish_endpoints_rest (rev (topology_items L cfg h offset n)) st3)
      as (H5 & H6 & H7 & H8 & H9).
    assert (Hst3 : heap st3 = <[h := set_vs_dev (Some (dev_addr dev)) zero_viommu]> (heap st)
                   ∧ viommus st3 = viommus st
                   ∧ pci_endpoints st3 = pci_endpoints st
                   ∧ mmio_endpoints st3 = mmio_endpoints st
                   ∧ iommus st3 = iommus st
                   ∧ fwspecs st3 = fwspecs st
                   ∧ acs_requested st3 = acs_requested st).
    { rewrite Ha. subst st2. simpl. rewrite Hk. simpl. done. }
    assert (G8 : endpoint_objs st3 = endpoint_objs st + Z.of_nat n).
    { rewrite Hc. subst st2. simpl. by rewrite Hk. }
    destruct Hst3 as (G1 & G2 & G3 & G4 & G5 & G6 & G7).
    rewrite G3 in H1. rewrite G4 in H2. rewrite G2 in H3. rewrite G1 in H4.
    rewrite G5 in H5. rewrite G6 in H6. rewrite G7 in H7. rewrite G8 in H9.
    rewrite List.filter_rev, rev_involutive in H1.
    rewrite List.filter_rev, rev_involutive in H2.
    f_equal. unfold virt_iommu_add_iommu_spec, set_viommus.
    by rewrite H1, H2, H3, H4, H5, H6, H7, H8, H9.
Qed.

End TopologyPublish.

(** C1 (the code departs from the claim): in the device config-region
    parser an item that passes the bounds checks and whose type byte is
    neither PCI_RANGE nor MMIO is not skipped.  [viommu_parse_node] takes the
    [default] branch to [err_free] and returns [ERR_PTR(-EINVAL)], never
    [NULL], so the [continue] of the caller is not reached: the walk stops at
    that item with [-EINVAL], whatever items remain and whatever endpoints
    were collected; the endpoint object of the item and the collected ones
    are freed. *)
Theorem viommu_walk_unrecognized_type_fails
    (L : topo_layout) cfg max_len v n offset eps st :
  item_overflows cfg max_len offset = false →
  read8 cfg offset ≠ VIRTIO_IOMMU_TOPO_PCI_RANGE L →
  read8 cfg offset ≠ VIRTIO_IOMMU_TOPO_MMIO L →
  fst (kzalloc st) = true →
  viommu_walk L cfg max_len v (S n) offset eps st
  = (inl (- EINVAL), kfree_endpoints eps (snd (kzalloc st))).
Proof.
  unfold item_overflows. intros Hb Hp Hm Hk.
  apply orb_false_iff in Hb as [Hb1 Hb2].
  simpl. unfold ioread16. rewrite Hb1, Hb2.
  unfold viommu_parse_node, ioread8.
  pose proof (kfree_kzalloc_endpoint _ Hk) as Hf.
  rewrite <- kzalloc_endpoint_fst in Hk.
  destruct (kzalloc_endpoint st) as [ok st1]; simpl in *. subst ok. simpl.
  apply Z.eqb_neq in Hp, Hm. by rewrite Hp, Hm, Hf.
Qed.

Lemma viommu_walk_unrecognized_type_fails_witness :
  viommu_walk spec_topo_layout cfg_unknown_item 88 0%nat 2 56 [] empty_state
  = (inl (- EINVAL), empty_state).
Proof.
  apply (viommu_walk_unrecognized_type_fails
           spec_topo_layout cfg_unknown_item 88 0%nat 1 56 [] empty_state);
    vm_compute; congruence.
Defined.

(** The whole parser on a window whose second item has type 255: the call
    fails with [-EINVAL] and nothing is published, although the first and
    the third item are well formed; with a known type in its place the three
    items are published. *)
Lemma viommu_parse_topology_unknown_item :
  viommu_parse_topology spec_topo_layout viommu_pci_dev cfg_unknown_item 88 empty_state
  = (- EINVAL, empty_state)
  ∧ fst (viommu_parse_topology spec_topo_layout viommu_pci_dev cfg_three_items 88
           empty_state) = 0.
Proof. split; vm_compute; reflexivity. Qed.

(** C3: the device config-region parser is all-or-nothing.  (1) If some item
    of the walk fails validation (a bound is violated or a typed payload is
    too short) the call fails.  (2) Whenever the call fails, the registry
    lists, the heap and the number of endpoint objects are as before the
    call: nothing is published, every endpoint object allocated for an item
    is freed and so is the IOMMU specification.  (3) If the first item that
    is not accepted violates a bound (and no allocation fails) the result is
    [-EOVERFLOW].  (4) If the registry changes, the call returned 0, the
    walk went through all [num_items] items, one freshly allocated IOMMU
    specification bound to the transport device was added to [viommus], once,
    and every collected endpoint was published, each pointing to it.
    (5) If every one of the [num_items] items is accepted and the
    allocations of the call (one IOMMU specification and one endpoint per
    item) succeed, the call returns 0.  (6) Whenever the call returns 0 for a
    descriptor that is not empty, it has published: one fresh IOMMU
    specification, bound to the transport device, is at the head of
    [viommus]; the decoded items, in item order and pointing to it, are in
    front of [pci_endpoints] and [mmio_endpoints]; and one endpoint object
    per item stays allocated. *)
Theorem viommu_parse_topology_all_or_nothing
    (L : topo_layout) dev cfg max_len st :
  let offset := ioread16 cfg (topo_config_offset L) in
  let num_items := Z.to_nat (ioread16 cfg (topo_config_num_items L)) in
  let r := viommu_parse_topology L dev cfg max_len st in
  (offset ≠ 0 →
   ∀ k, (k < num_items)%nat →
        item_fails_validation L cfg max_len (item_offset cfg offset k) = true →
        fst r ≠ 0)
  ∧ (fst r ≠ 0 →
     registry (snd r) = registry st ∧ heap (snd r) = heap st
     ∧ endpoint_objs (snd r) = endpoint_objs st)
  ∧ (offset ≠ 0 → kzalloc_plan st = [] →
     ∀ k, (k < num_items)%nat →
          (∀ j, (j < k)%nat →
                item_accepted L cfg max_len (item_offset cfg offset j) = true) →
          item_overflows cfg max_len (item_offset cfg offset k) = true →
          fst r = - EOVERFLOW)
  ∧ (registry (snd r) ≠ registry st →
     fst r = 0
     ∧ ∃ h eps,
         heap st !! h = None
         ∧ heap (snd r) = <[h := set_vs_dev (Some (dev_addr dev)) zero_viommu]> (heap st)
         ∧ viommus (snd r) = h :: viommus st
         ∧ length eps = num_items
         ∧ Forall (λ ep, ep_viommu ep = Some h) eps
         ∧ pci_endpoints (snd r)
           = rev (List.filter (λ ep, negb (is_mmio_endpoint ep)) eps) ++ pci_endpoints st
         ∧ mmio_endpoints (snd r)
           = rev (List.filter is_mmio_endpoint eps) ++ mmio_endpoints st)
  ∧ (offset ≠ 0 → num_items ≠ 0%nat →
     kzalloc_succeeds (S num_items) st = true →
     (∀ k, (k < num_items)%nat →
           item_accepted L cfg max_len (item_offset cfg offset k) = true) →
     fst r = 0)
  ∧ (offset ≠ 0 → num_items ≠ 0%nat → fst r = 0 →
     ∃ h,
       heap st !! h = None
       ∧ heap (snd r) = <[h := set_vs_dev (Some (dev_addr dev)) zero_viommu]> (heap st)
       ∧ viommus (snd r) = h :: viommus st
       ∧ pci_endpoints (snd r)
         = List.filter (λ ep, negb (is_mmio_endpoint ep))
             (topology_items L cfg h offset num_items) ++ pci_endpoints st
       ∧ mmio_endpoints (snd r)
         = List.filter is_mmio_endpoint (topology_items L cfg h offset num_items)
           ++ mmio_endpoints st
       ∧ endpoint_objs (snd r) = endpoint_objs st + Z.of_nat num_items).
Proof.
  intros offset num_items r. subst r. unfold viommu_parse_topology.
  fold offset.
  destruct (offset =? 0) eqn:Eo; simpl.
  { apply Z.eqb_eq in Eo. repeat split; try done. }
  destruct (ioread16 cfg (topo_config_num_items L) =? 0) eqn:En; simpl.
  { apply Z.eqb_eq in En. subst num_items. rewrite En. simpl.
    repeat split; try done; intros; lia. }
  destruct (kzalloc_viommu st) as [[h|] st1] eqn:Ek.
  2:{ pose proof (kzalloc_viommu_none _ _ Ek) as Hn. simpl.
      split; [done|]. split; [intros _; split;
        [by apply plan_only_registry|split; [by apply plan_only_heap|by rewrite Hn]]|].
      split.
      { intros _ Hp. revert Ek. unfold kzalloc_viommu.
        rewrite (kzalloc_no_plan _ Hp). done. }
      split.
      { intros Hr. destruct Hr. by apply plan_only_registry. }
      split; [|done].
      intros _ _ Hs _. apply kzalloc_succeeds_S in Hs as [Hs _].
      revert Ek. unfold kzalloc_viommu.
      destruct (kzalloc st) as [ok k]; simpl in Hs. by subst ok. }
  assert (Hok : fst (kzalloc st) = true).
  { revert Ek. unfold kzalloc_viommu. by destruct (kzalloc st) as [[] ?]. }
  apply kzalloc_viommu_some in Ek as [Hfresh ->].
  pose proof (kzalloc_plan_only st) as Hk.
  set (k0 := snd (kzalloc st)) in *.
  set (st2 := set_heap _ _).
  assert (Hst2 : st2 = set_heap (<[h := set_vs_dev (Some (dev_addr dev)) zero_viommu]>
                                   (heap st)) k0).
  { subst st2. unfold viommu_at. simpl. rewrite lookup_insert_eq. simpl.
    by rewrite insert_insert_eq. }
  rewrite Hst2. clear Hst2 st2.
  set (st2 := set_heap _ k0).
  pose proof (viommu_walk_alloc L cfg max_len h num_items offset [] st2) as [Hw Hc].
  pose proof (viommu_walk_ok_valid L cfg max_len h num_items offset [] st2) as Hv.
  pose proof (viommu_walk_endpoints L cfg max_len h num_items offset [] st2) as He.
  pose proof (viommu_walk_decode L cfg max_len h num_items offset [] st2) as Hd.
  fold num_items.
  assert (Hobj : endpoint_objs st2 = endpoint_objs st).
  { subst st2. simpl. by rewrite Hk. }
  destruct (viommu_walk L cfg max_len h num_items offset [] st2)
    as [[ret|eps] st3] eqn:Ew; simpl in *.
  - (* the walk failed *)
    assert (Hroll : registry (kfree_viommu h st3) = registry st
                    ∧ heap (kfree_viommu h st3) = heap st
                    ∧ endpoint_objs (kfree_viommu h st3) = endpoint_objs st).
    { split; [|split].
      - rewrite Hw. subst st2. simpl. rewrite Hk. simpl. by destruct st.
      - rewrite Hw. subst st2. simpl.
        rewrite delete_insert_eq. by apply delete_id.
      - simpl. lia. }
    pose proof (viommu_walk_error_nonzero L _ _ _ _ _ _ _ _ _ Ew) as Hnz.
    split; [done|]. split; [done|]. split.
    { intros _ Hp k Hlt Hacc Hov.
      assert (Hp2 : kzalloc_succeeds k st2 = true).
      { apply kzalloc_succeeds_nil. subst st2 k0. simpl.
        by rewrite (kzalloc_no_plan _ Hp). }
      destruct (viommu_walk_accepted L cfg max_len h k offset [] st2 Hp2 Hacc)
        as (eps1 & s1 & Hpre).
      replace num_items with (k + S (num_items - S k))%nat in Ew by lia.
      rewrite (viommu_walk_app L _ _ _ _ _ _ _ _ _ _ Hpre) in Ew.
      rewrite viommu_walk_overflow in Ew by done. congruence. }
    split.
    { intros Hr. destruct Hr. apply Hroll. }
    split; [|done].
    intros _ _ Hs Hacc. apply kzalloc_succeeds_S in Hs as [_ Hs].
    destruct (viommu_walk_accepted L cfg max_len h num_items offset [] st2 Hs Hacc)
      as (eps1 & s1 & Hall). congruence.
  - (* the walk succeeded *)
    destruct (He eps st3 eq_refl ltac:(constructor)) as [Hall Hlen].
    destruct (publish_endpoints_spec eps st3) as (H1 & H2 & H3 & H4).
    destruct (publish_endpoints_rest eps st3) as (_ & _ & _ & _ & H5).
    assert (Hst3 : heap st3 = <[h := set_vs_dev (Some (dev_addr dev)) zero_viommu]> (heap st)
                   ∧ viommus st3 = viommus st
                   ∧ pci_endpoints st3 = pci_endpoints st
                   ∧ mmio_endpoints st3 = mmio_endpoints st).
    { rewrite Hw. subst st2. simpl. rewrite Hk. simpl. done. }
    destruct Hst3 as (G1 & G2 & G3 & G4).
    split.
    { intros _ k Hlt Hbad. rewrite (Hv eps st3 eq_refl k Hlt) in Hbad. done. }
    split; [done|]. split.
    { intros _ _ k Hlt _ Hov.
      pose proof (Hv eps st3 eq_refl k Hlt) as Hok'.
      unfold item_fails_validation in Hok'. rewrite Hov in Hok'. done. }
    split.
    { intros _. split; [done|]. exists h, eps.
      rewrite H1, H2, H3, H4, G1, G2, G3, G4, Hlen. simpl.
      repeat split; try done; lia. }
    split; [done|].
    intros _ _ _. exists h.
    specialize (Hd eps st3 eq_refl). rewrite app_nil_r in Hd.
    rewrite H1, H2, H3, H4, H5, G1, G2, G3, G4, Hd.
    rewrite !List.filter_rev, !rev_involutive.
    repeat split; try done. lia.
Qed.

Lemma viommu_parse_topology_all_or_nothing_witness :
  (fst (viommu_parse_topology spec_topo_layout viommu_pci_dev cfg_three_items 87
          empty_state) = - EOVERFLOW
   ∧ registry (snd (viommu_parse_topology spec_topo_layout viommu_pci_dev
                      cfg_three_items 87 empty_state)) = registry empty_state
   ∧ heap (snd (viommu_parse_topology spec_topo_layout viommu_pci_dev
                  cfg_three_items 87 empty_state)) = heap empty_state
   ∧ endpoint_objs (snd (viommu_parse_topology spec_topo_layout viommu_pci_dev
                           cfg_three_items 87 empty_state)) = 0)
  ∧ (fst (viommu_parse_topology spec_topo_layout viommu_pci_dev cfg_three_items 88
            empty_state) = 0
     ∧ viommus (snd (viommu_parse_topology spec_topo_layout viommu_pci_dev
                       cfg_three_items 88 empty_state)) = [0%nat]
     ∧ pci_endpoints (snd (viommu_parse_topology spec_topo_layout viommu_pci_dev
                             cfg_three_items 88 empty_state))
       = [{| ep_devid := DEV_PCI 0 16 31; endpoint_id := 100;
             ep_viommu := Some 0%nat |};
          {| ep_devid := DEV_PCI 0 32 47; endpoint_id := 200;
             ep_viommu := Some 0%nat |}]
     ∧ length (mmio_endpoints (snd (viommu_parse_topology spec_topo_layout
                                      viommu_pci_dev cfg_three_items 88
                                      empty_state))) = 1%nat
     ∧ endpoint_objs (snd (viommu_parse_topology spec_topo_layout viommu_pci_dev
                             cfg_three_items 88 empty_state)) = 3).
Proof.
  assert (Hoff : ioread16 cfg_three_items (topo_config_offset spec_topo_layout) ≠ 0)
    by (vm_compute; congruence).
  assert (Hnum : Z.to_nat (ioread16 cfg_three_items
                             (topo_config_num_items spec_topo_layout)) = 3%nat)
    by (vm_compute; reflexivity).
  split.
  - destruct (viommu_parse_topology_all_or_nothing
                spec_topo_layout viommu_pci_dev cfg_three_items 87 empty_state)
      as (_ & Hroll & Hovf & _).
    assert (Hret : fst (viommu_parse_topology spec_topo_layout viommu_pci_dev
                          cfg_three_items 87 empty_state) = - EOVERFLOW).
    { apply (Hovf Hoff eq_refl 2%nat).
      - rewrite Hnum. lia.
      - intros [|[|j]] Hj; [vm_compute; reflexivity|vm_compute; reflexivity|lia].
      - vm_compute. reflexivity. }
    split; [exact Hret|]. apply Hroll. rewrite Hret. vm_compute. congruence.
  - destruct (viommu_parse_topology_all_or_nothing
                spec_topo_layout viommu_pci_dev cfg_three_items 88 empty_state)
      as (_ & _ & _ & _ & Hgo & Hpub).
    assert (Hn0 : Z.to_nat (ioread16 cfg_three_items
                              (topo_config_num_items spec_topo_layout)) ≠ 0%nat)
      by (rewrite Hnum; lia).
    assert (Hret : fst (viommu_parse_topology spec_topo_layout viommu_pci_dev
                          cfg_three_items 88 empty_state) = 0).
    { apply (Hgo Hoff Hn0).
      - vm_compute. reflexivity.
      - rewrite Hnum.
        intros [|[|[|k]]] Hk; [vm_compute; reflexivity..|lia]. }
    destruct (Hpub Hoff Hn0 Hret) as (h & _ & _ & Hv & Hpci & Hmmio & Hobj).
    assert (Hh : h = 0%nat).
    { revert Hv. vm_compute. congruence. }
    subst h. split; [exact Hret|].
    rewrite Hv, Hpci, Hmmio, Hobj. vm_compute. auto.
Defined.

(** ** Endpoint resolver *)



Section ResolverFacts.

Variable iommu_fwspec_init :
  device → option Z → Z → gmap nat iommu_fwspec → Z * gmap nat iommu_fwspec.
Variable iommu_fwspec_add_ids :
  device → list Z → gmap nat iommu_fwspec → gmap nat iommu_fwspec.

(** The resolver below the "already translated" test and the lookup, for a
    device whose matched endpoint points to the specification at [h]. *)
Lemma virt_iommu_setup_matched dev st epid h :
  already_translated dev st = false →
  virt_iommu_find dev st = Some (epid, Some h) →
  virt_iommu_setup iommu_fwspec_init iommu_fwspec_add_ids dev st =
    if is_own_iommu dev (viommu_at st h) then (Null, st)
    else
      let st1 := if dev_is_pci dev then set_acs true st else st in
      match vs_ops (viommu_at st h) with
      | None => (ErrPtr (- EPROBE_DEFER), st1)
      | Some ops =>
        let (ret, fw) :=
          iommu_fwspec_init dev (vs_fwnode (viommu_at st h)) ops (fwspecs st1) in
        if negb (ret =? 0) then (ErrPtr ret, set_fwspecs fw st1)
        else (Ptr ops, set_fwspecs (iommu_fwspec_add_ids dev [epid] fw) st1)
      end.
Proof. intros Ht Hf. unfold virt_iommu_setup. by rewrite Ht, Hf. Qed.

End ResolverFacts.

(** C10: a device whose firmware specification already carries IOMMU ops is
    answered "no match" at once: the result is [NULL] and the state is left
    as it was, whatever the registry lists hold, so the call neither defers
    nor configures the device a second time. *)
Theorem virt_iommu_setup_already_translated
    iommu_fwspec_init iommu_fwspec_add_ids dev st fwspec ops :
  fwspecs st !! dev_addr dev = Some fwspec →
  fw_ops fwspec = Some ops →
  virt_iommu_setup iommu_fwspec_init iommu_fwspec_add_ids dev st = (Null, st)
  ∧ ∀ viommus' pci' mmio',
      virt_iommu_setup iommu_fwspec_init iommu_fwspec_add_ids dev
        (set_viommus viommus' (set_pci_endpoints pci' (set_mmio_endpoints mmio' st)))
      = (Null, set_viommus viommus' (set_pci_endpoints pci' (set_mmio_endpoints mmio' st))).
Proof.
  intros Hfw Hops.
  assert (Ht : ∀ st', fwspecs st' = fwspecs st → already_translated dev st' = true).
  { intros st' Heq. unfold already_translated. rewrite Heq, Hfw, Hops.
    apply bool_decide_eq_true. by eexists. }
  split.
  - unfold virt_iommu_setup. by rewrite Ht.
  - intros v p m. unfold virt_iommu_setup. by rewrite Ht.
Qed.

Lemma virt_iommu_setup_already_translated_witness :
  let st := set_fwspecs {[ dev_addr pci_dev_21 :=
                           {| fw_ops := Some 555; fw_fwnode := None; fw_ids := [105] |} ]}
              example_topology in
  virt_iommu_find pci_dev_21 st = Some (105, Some 0%nat)
  ∧ virt_iommu_setup example_fwspec_init example_fwspec_add_ids pci_dev_21 st
    = (Null, st).
Proof.
  intros st. split; [vm_compute; reflexivity|].
  assert (Hfw : fwspecs st !! dev_addr pci_dev_21
                = Some {| fw_ops := Some 555; fw_fwnode := None; fw_ids := [105] |})
    by (vm_compute; reflexivity).
  exact (proj1 (virt_iommu_setup_already_translated
                  example_fwspec_init example_fwspec_add_ids pci_dev_21 st
                  _ 555 Hfw eq_refl)).
Defined.



(** C2 as stated does not hold: in the topology discovered from
    [example_viot] the PCI device at BDF 8 is the transport device of a
    registered IOMMU (the node at 48) and its BDF lies in the registered
    range [[0, 15]], which is managed by the other IOMMU (the node at 56);
    the resolver does not answer "no match" but defers. *)
Lemma virt_iommu_setup_own_transport_counterexample :
  (∃ h, h ∈ viommus example_topology
        ∧ is_own_iommu pci_dev_8 (viommu_at example_topology h) = true)
  ∧ (∃ ep, ep ∈ pci_endpoints example_topology
           ∧ viommu_device_match pci_dev_8 (ep_devid ep) = true)
  ∧ fst (virt_iommu_setup example_fwspec_init example_fwspec_add_ids
           pci_dev_8 example_topology) = ErrPtr (- EPROBE_DEFER)
  ∧ ¬ (∀ init add dev st h,
          h ∈ viommus st → is_own_iommu dev (viommu_at st h) = true →
          fst (virt_iommu_setup init add dev st) = Null).
Proof.
  assert (H1 : 1%nat ∈ viommus example_topology) by (vm_compute; constructor).
  assert (H2 : is_own_iommu pci_dev_8 (viommu_at example_topology 1%nat) = true)
    by (vm_compute; reflexivity).
  assert (H3 : fst (virt_iommu_setup example_fwspec_init example_fwspec_add_ids
                      pci_dev_8 example_topology) = ErrPtr (- EPROBE_DEFER))
    by (vm_compute; reflexivity).
  split; [exists 1%nat; split; [exact H1|exact H2]|]. split.
  - exists {| ep_devid := DEV_PCI 0 0 15; endpoint_id := 0; ep_viommu := Some 0%nat |}.
    split; [|vm_compute; reflexivity]. vm_compute. constructor. constructor.
  - split; [exact H3|]. intros Hall.
    specialize (Hall example_fwspec_init example_fwspec_add_ids
                     pci_dev_8 example_topology 1%nat H1 H2).
    rewrite H3 in Hall. discriminate.
Qed.

(** C2, amended: the self-exclusion concerns the IOMMU of the matched
    endpoint.  The test runs after the lookup in the endpoint lists: when
    the first endpoint entry that matches the device points to an IOMMU
    specification whose device id matches the device, or which is bound to
    the device, the resolver answers "no match" and leaves the state as it
    was, although the device lies in that endpoint's range, and whether or
    not the IOMMU has its ops. *)
Theorem virt_iommu_setup_self_exclusion
    iommu_fwspec_init iommu_fwspec_add_ids dev st epid h :
  virt_iommu_find dev st = Some (epid, Some h) →
  is_own_iommu dev (viommu_at st h) = true →
  virt_iommu_setup iommu_fwspec_init iommu_fwspec_add_ids dev st = (Null, st).
Proof.
  intros Hf Hown. unfold virt_iommu_setup.
  destruct (already_translated dev st); [done|].
  by rewrite Hf, Hown.
Qed.

Lemma virt_iommu_setup_self_exclusion_witness :
  virt_iommu_setup example_fwspec_init example_fwspec_add_ids
    pci_dev_31 example_topology = (Null, example_topology).
Proof.
  assert (Hf : virt_iommu_find pci_dev_31 example_topology = Some (115, Some 0%nat))
    by (vm_compute; reflexivity).
  assert (Hown : is_own_iommu pci_dev_31 (viommu_at example_topology 0%nat) = true)
    by (vm_compute; reflexivity).
  exact (virt_iommu_setup_self_exclusion
           example_fwspec_init example_fwspec_add_ids
           pci_dev_31 example_topology 115 0%nat Hf Hown).
Defined.

(** ** Attaching the IOMMU driver *)

(** The scan of [virt_set_iommu_ops] passes over the entries it does not
    claim and leaves them alone. *)
Lemma set_iommu_ops_scan_unclaimed dev ops pre l st :
  Forall (λ h, claims_iommu dev (viommu_at st h) = false) pre →
  set_iommu_ops_scan dev ops (pre ++ l) st = set_iommu_ops_scan dev ops l st.
Proof.
  induction pre as [|h pre IH]; simpl; intros Hpre; [done|].
  inversion Hpre as [|? ? Hh Hpre']; subst.
  unfold claims_iommu in Hh. apply orb_false_iff in Hh as [Hh1 Hh2].
  rewrite Hh1, Hh2. by apply IH.
Qed.

(** It stops at the first entry it claims, binds it to the device and sets
    its ops and fwnode. *)
Lemma set_iommu_ops_scan_claimed dev ops h l st :
  claims_iommu dev (viommu_at st h) = true →
  set_iommu_ops_scan dev ops (h :: l) st
  = set_heap
      (<[h := {| vs_devid := vs_devid (viommu_at st h);
                 vs_dev := Some (dev_addr dev);
                 vs_fwnode := match ops with Some _ => dev_fwnode dev | None => None end;
                 vs_ops := ops |}]> (heap st)) st.
Proof.
  unfold claims_iommu. intros Hc. simpl.
  destruct (negb (bool_decide (is_Some (vs_dev (viommu_at st h))))
            && viommu_device_match dev (vs_devid (viommu_at st h))) eqn:E1.
  - set (x := set_vs_dev (Some (dev_addr dev)) (viommu_at st h)).
    assert (Hat : viommu_at (set_heap (<[h:=x]> (heap st)) st) h = x).
    { unfold viommu_at. simpl. by rewrite lookup_insert_eq. }
    rewrite Hat. subst x. simpl.
    rewrite bool_decide_eq_true_2 by done.
    rewrite insert_insert_eq. by destruct st.
  - simpl in Hc. rewrite Hc. apply bool_decide_eq_true in Hc.
    unfold set_vs_ops. by rewrite Hc.
Qed.

Lemma virt_set_iommu_ops_claimed dev ops pre h post st :
  viommus st = pre ++ h :: post →
  Forall (λ h', claims_iommu dev (viommu_at st h') = false) pre →
  claims_iommu dev (viommu_at st h) = true →
  virt_set_iommu_ops dev ops st
  = set_heap
      (<[h := {| vs_devid := vs_devid (viommu_at st h);
                 vs_dev := Some (dev_addr dev);
                 vs_fwnode := match ops with Some _ => dev_fwnode dev | None => None end;
                 vs_ops := ops |}]> (heap st)) st.
Proof.
  intros Hl Hpre Hh. unfold virt_set_iommu_ops. rewrite Hl.
  rewrite set_iommu_ops_scan_unclaimed by done.
  by apply set_iommu_ops_scan_claimed.
Qed.

(** C7 as stated does not hold: in the topology discovered from
    [twin_iommu_viot] two IOMMU specifications have the device id of the PCI
    device at BDF 31.  The device at BDF 5 is matched by the range
    [[0, 15]], whose IOMMU (specification 0) has no ops, and is deferred.
    [virt_set_iommu_ops] for the device at BDF 31, the transport device of
    that IOMMU, stops at the first specification of [viommus] with its
    device id, specification 1, and sets the ops there; specification 0 is
    left without ops and the device at BDF 5 is deferred again. *)
Lemma virt_iommu_setup_still_deferred_counterexample :
  let deferred := virt_iommu_setup example_fwspec_init example_fwspec_add_ids
                    pci_dev_5 twin_topology in
  let st2 := virt_set_iommu_ops pci_dev_31 (Some 555) (snd deferred) in
  virt_iommu_find pci_dev_5 twin_topology = Some (5, Some 0%nat)
  ∧ vs_ops (viommu_at twin_topology 0%nat) = None
  ∧ claims_iommu pci_dev_31 (viommu_at twin_topology 0%nat) = true
  ∧ fst deferred = ErrPtr (- EPROBE_DEFER)
  ∧ vs_ops (viommu_at st2 1%nat) = Some 555
  ∧ vs_ops (viommu_at st2 0%nat) = None
  ∧ fst (virt_iommu_setup example_fwspec_init example_fwspec_add_ids pci_dev_5 st2)
    = ErrPtr (- EPROBE_DEFER)
  ∧ ¬ (∀ dev iommu_dev st epid h ops,
          already_translated dev st = false →
          virt_iommu_find dev st = Some (epid, Some h) →
          is_own_iommu dev (viommu_at st h) = false →
          vs_ops (viommu_at st h) = None →
          claims_iommu iommu_dev (viommu_at st h) = true →
          dev_addr dev ≠ dev_addr iommu_dev →
          fst (virt_iommu_setup example_fwspec_init example_fwspec_add_ids dev
                 (virt_set_iommu_ops iommu_dev (Some ops)
                    (snd (virt_iommu_setup example_fwspec_init
                            example_fwspec_add_ids dev st))))
          = Ptr ops).
Proof.
  intros deferred st2.
  assert (Ht : already_translated pci_dev_5 twin_topology = false)
    by (vm_compute; reflexivity).
  assert (Hf : virt_iommu_find pci_dev_5 twin_topology = Some (5, Some 0%nat))
    by (vm_compute; reflexivity).
  assert (Hown : is_own_iommu pci_dev_5 (viommu_at twin_topology 0%nat) = false)
    by (vm_compute; reflexivity).
  assert (Hops : vs_ops (viommu_at twin_topology 0%nat) = None)
    by (vm_compute; reflexivity).
  assert (Hclaim : claims_iommu pci_dev_31 (viommu_at twin_topology 0%nat) = true)
    by (vm_compute; reflexivity).
  assert (Hne : dev_addr pci_dev_5 ≠ dev_addr pci_dev_31) by (vm_compute; lia).
  assert (Hd : fst deferred = ErrPtr (- EPROBE_DEFER)) by (vm_compute; reflexivity).
  assert (H1 : vs_ops (viommu_at st2 1%nat) = Some 555) by (vm_compute; reflexivity).
  assert (H0 : vs_ops (viommu_at st2 0%nat) = None) by (vm_compute; reflexivity).
  assert (Hagain : fst (virt_iommu_setup example_fwspec_init example_fwspec_add_ids
                          pci_dev_5 st2) = ErrPtr (- EPROBE_DEFER))
    by (vm_compute; reflexivity).
  split; [exact Hf|]. split; [exact Hops|]. split; [exact Hclaim|].
  split; [exact Hd|]. split; [exact H1|]. split; [exact H0|].
  split; [exact Hagain|].
  intros Hall.
  specialize (Hall pci_dev_5 pci_dev_31 twin_topology 5 0%nat 555
                   Ht Hf Hown Hops Hclaim Hne).
  fold deferred in Hall. fold st2 in Hall. rewrite Hagain in Hall. discriminate.
Qed.

(** C7, amended: a device that is not yet translated, whose first matching
    endpoint points to an IOMMU other than the device itself, and whose IOMMU
    has no ops, gets the defer result [ERR_PTR(-EPROBE_DEFER)], which is
    neither "no match" nor another error.  If [virt_set_iommu_ops] is then
    called with non-null ops for a device other than the resolved one, and
    the specification of that IOMMU is the first one in [viommus] that the
    call claims (bound to the device, or unbound with a matching device id),
    the lookup of the same device yields the same endpoint id and the same
    IOMMU, and, [iommu_fwspec_init] succeeding, the resolver returns the ops
    and registers that id. *)
Theorem virt_iommu_setup_defer_then_resolve
    iommu_fwspec_init iommu_fwspec_add_ids dev st epid h :
  already_translated dev st = false →
  virt_iommu_find dev st = Some (epid, Some h) →
  is_own_iommu dev (viommu_at st h) = false →
  vs_ops (viommu_at st h) = None →
  let deferred := virt_iommu_setup iommu_fwspec_init iommu_fwspec_add_ids dev st in
  fst deferred = ErrPtr (- EPROBE_DEFER)
  ∧ fst deferred ≠ Null
  ∧ (∀ e, e ≠ - EPROBE_DEFER → fst deferred ≠ ErrPtr e)
  ∧ ∀ iommu_dev ops pre post,
      viommus st = pre ++ h :: post →
      Forall (λ h', claims_iommu iommu_dev (viommu_at st h') = false) pre →
      claims_iommu iommu_dev (viommu_at st h) = true →
      dev_addr dev ≠ dev_addr iommu_dev →
      let st2 := virt_set_iommu_ops iommu_dev (Some ops) (snd deferred) in
      let init := iommu_fwspec_init dev (dev_fwnode iommu_dev) ops (fwspecs st2) in
      fst init = 0 →
      virt_iommu_find dev st2 = Some (epid, Some h)
      ∧ fst (virt_iommu_setup iommu_fwspec_init iommu_fwspec_add_ids dev st2) = Ptr ops
      ∧ fwspecs (snd (virt_iommu_setup iommu_fwspec_init iommu_fwspec_add_ids dev st2))
        = iommu_fwspec_add_ids dev [epid] (snd init).
Proof.
  intros Ht Hf Hown Hops deferred.
  assert (Hd : deferred
               = (ErrPtr (- EPROBE_DEFER), if dev_is_pci dev then set_acs true st else st)).
  { subst deferred.
    rewrite (virt_iommu_setup_matched _ _ dev st epid h Ht Hf).
    by rewrite Hown, Hops. }
  rewrite Hd. simpl.
  split; [done|]. split; [done|]. split; [congruence|].
  intros iommu_dev ops pre post Hl Hpre Hclaim Hne.
  set (st1 := if dev_is_pci dev then set_acs true st else st).
  assert (Hst1 : heap st1 = heap st ∧ viommus st1 = viommus st
                 ∧ pci_endpoints st1 = pci_endpoints st
                 ∧ mmio_endpoints st1 = mmio_endpoints st
                 ∧ fwspecs st1 = fwspecs st).
  { subst st1. by destruct (dev_is_pci dev). }
  destruct Hst1 as (Hh1 & Hv1 & Hp1 & Hm1 & Hf1).
  assert (Hat : ∀ x, viommu_at st1 x = viommu_at st x).
  { intros x. unfold viommu_at. by rewrite Hh1. }
  rewrite (virt_set_iommu_ops_claimed iommu_dev (Some ops) pre h post st1);
    [|by rewrite Hv1
     |eapply Forall_impl; [exact Hpre|]; intros x Hx; simpl; by rewrite Hat
     |by rewrite Hat].
  set (st2 := set_heap _ st1).
  intros Hinit.
  assert (Hf2 : virt_iommu_find dev st2 = Some (epid, Some h)).
  { rewrite <- Hf. unfold virt_iommu_find. subst st2. simpl. by rewrite Hp1, Hm1. }
  assert (Ht2 : already_translated dev st2 = false).
  { rewrite <- Ht. unfold already_translated. subst st2. simpl. by rewrite Hf1. }
  assert (Hat2 : viommu_at st2 h
                 = {| vs_devid := vs_devid (viommu_at st h);
                      vs_dev := Some (dev_addr iommu_dev);
                      vs_fwnode := dev_fwnode iommu_dev;
                      vs_ops := Some ops |}).
  { unfold viommu_at at 1. subst st2. simpl. rewrite lookup_insert_eq. simpl.
    by rewrite Hat. }
  assert (Hown2 : is_own_iommu dev (viommu_at st2 h) = false).
  { rewrite Hat2. unfold is_own_iommu in *. simpl.
    apply orb_false_iff in Hown as [Hm _]. rewrite Hm. simpl.
    apply bool_decide_eq_false. congruence. }
  split; [exact Hf2|].
  rewrite (virt_iommu_setup_matched _ _ dev st2 epid h Ht2 Hf2).
  rewrite Hown2, Hat2. simpl.
  assert (Hfw2 : fwspecs (if dev_is_pci dev then set_acs true st2 else st2) = fwspecs st2)
    by (by destruct (dev_is_pci dev)).
  rewrite Hfw2.
  destruct (iommu_fwspec_init dev (dev_fwnode iommu_dev) ops (fwspecs st2))
    as [ret fw] eqn:Ei.
  simpl in Hinit. subst ret. simpl. split; [reflexivity|].
  change (fwspecs st2) with (fwspecs st1) in Ei. by rewrite Ei.
Qed.

Lemma virt_iommu_setup_defer_then_resolve_witness :
  fst (virt_iommu_setup example_fwspec_init example_fwspec_add_ids
         pci_dev_21 example_topology) = ErrPtr (- EPROBE_DEFER)
  ∧ fst (virt_iommu_setup example_fwspec_init example_fwspec_add_ids pci_dev_21
           (virt_set_iommu_ops pci_dev_31 (Some 555)
              (snd (virt_iommu_setup example_fwspec_init example_fwspec_add_ids
                      pci_dev_21 example_topology)))) = Ptr 555.
Proof.
  assert (Ht : already_translated pci_dev_21 example_topology = false)
    by (vm_compute; reflexivity).
  assert (Hf : virt_iommu_find pci_dev_21 example_topology = Some (105, Some 0%nat))
    by (vm_compute; reflexivity).
  assert (Hown : is_own_iommu pci_dev_21 (viommu_at example_topology 0%nat) = false)
    by (vm_compute; reflexivity).
  assert (Hops : vs_ops (viommu_at example_topology 0%nat) = None)
    by (vm_compute; reflexivity).
  destruct (virt_iommu_setup_defer_then_resolve
              example_fwspec_init example_fwspec_add_ids
              pci_dev_21 example_topology 105 0%nat Ht Hf Hown Hops)
    as (Hdefer & _ & _ & Hlater).
  split; [exact Hdefer|].
  assert (Hl : viommus example_topology = [1%nat] ++ 0%nat :: [])
    by (vm_compute; reflexivity).
  assert (Hpre : Forall (λ h', claims_iommu pci_dev_31 (viommu_at example_topology h')
                               = false) [1%nat]).
  { constructor; [vm_compute; reflexivity|constructor]. }
  assert (Hclaim : claims_iommu pci_dev_31 (viommu_at example_topology 0%nat) = true)
    by (vm_compute; reflexivity).
  assert (Hne : dev_addr pci_dev_21 ≠ dev_addr pci_dev_31) by (vm_compute; lia).
  refine (proj1 (proj2 (Hlater pci_dev_31 555 [1%nat] [] Hl Hpre Hclaim Hne _))).
  vm_compute. reflexivity.
Defined.

(** ** Firmware-table parser *)

Lemma kfree_kzalloc h k :
  heap k !! h = None →
  kfree_viommu h (set_heap (<[h := zero_viommu]> (heap k)) k) = k.
Proof.
  intros Hh. unfold kfree_viommu. simpl.
  rewrite delete_insert_eq, delete_id by done. by destruct k.
Qed.

Section ViotFacts.

Variable L : viot_layout.
Variable viot : acpi_table_viot.

(** The three outcomes of [viot_get_iommu]: the node was visited before;
    no specification (nothing changes but the allocation plan); a new
    specification, recorded and published. *)
Lemma viot_get_iommu_cases offset st :
  (∃ h, viot_find_iommu offset st = Some h
        ∧ viot_get_iommu L viot offset st = (Some h, st))
  ∨ (viot_find_iommu offset st = None
     ∧ ∃ k, plan_only st k ∧ viot_get_iommu L viot offset st = (None, k))
  ∨ (viot_find_iommu offset st = None
     ∧ viot_check_bounds viot offset = 0
     ∧ ∃ h d p,
         heap st !! h = None
         ∧ viot_get_iommu L viot offset st
           = (Some h,
              {| heap := <[h := set_vs_devid d zero_viommu]> (heap st);
                 endpoint_objs := endpoint_objs st;
                 viommus := h :: viommus st;
                 pci_endpoints := pci_endpoints st;
                 mmio_endpoints := mmio_endpoints st;
                 iommus := (offset, h) :: iommus st;
                 fwspecs := fwspecs st;
                 acs_requested := acs_requested st;
                 kzalloc_plan := p |})).
Proof.
  unfold viot_get_iommu.
  destruct (viot_find_iommu offset st) as [h|] eqn:Ef; [left; by exists h|].
  right.
  destruct (viot_check_bounds viot offset =? 0) eqn:Ec; simpl.
  2:{ left. split; [done|]. exists st. split; [apply plan_only_refl|done]. }
  apply Z.eqb_eq in Ec.
  pose proof (kzalloc_plan_only st) as Hk.
  destruct (kzalloc_viommu st) as [[h|] st1] eqn:Ek.
  2:{ left. split; [done|]. exists st1. split; [|done].
      by apply kzalloc_viommu_none. }
  apply kzalloc_viommu_some in Ek as [Hfresh ->].
  set (k := snd (kzalloc st)) in *.
  assert (Hkh : heap k !! h = None) by (by rewrite (plan_only_heap _ _ Hk)).
  assert (Hfree : kfree_viommu h (set_heap (<[h:=zero_viommu]> (heap st)) k) = k).
  { rewrite <- (plan_only_heap _ _ Hk). by apply kfree_kzalloc. }
  assert (Hreg : ∀ d,
    viot_register_iommu offset h d (set_heap (<[h:=zero_viommu]> (heap st)) k)
    = {| heap := <[h := set_vs_devid d zero_viommu]> (heap st);
         endpoint_objs := endpoint_objs st;
         viommus := h :: viommus st;
         pci_endpoints := pci_endpoints st;
         mmio_endpoints := mmio_endpoints st;
         iommus := (offset, h) :: iommus st;
         fwspecs := fwspecs st;
         acs_requested := acs_requested st;
         kzalloc_plan := kzalloc_plan k |}).
  { intros d. unfold viot_register_iommu, virt_iommu_add_iommu_spec, viommu_at.
    simpl. rewrite lookup_insert_eq, insert_insert_eq. simpl.
    rewrite Hk. by destruct st. }
  rewrite Hfree.
  destruct (node_type viot offset =? ACPI_VIOT_NODE_VIRTIO_IOMMU_PCI L).
  { destruct (node_length viot offset <? sizeof_viot_iommu_pci L).
    - left. split; [done|]. by exists k.
    - right. split; [done|]. split; [done|]. rewrite Hreg. by eexists h, _, _. }
  destruct (node_type viot offset =? ACPI_VIOT_NODE_VIRTIO_IOMMU_MMIO L).
  { destruct (node_length viot offset <? sizeof_viot_iommu_mmio L).
    - left. split; [done|]. by exists k.
    - right. split; [done|]. split; [done|]. rewrite Hreg. by eexists h, _, _. }
  left. split; [done|]. by exists k.
Qed.

Lemma registry_extends_refl st : registry_extends st st.
Proof.
  split; [by exists []|]. split; [by exists []|]. split; [by exists []|done].
Qed.

Lemma registry_extends_trans st1 st2 st3 :
  registry_extends st1 st2 → registry_extends st2 st3 → registry_extends st1 st3.
Proof.
  intros ([a1 H1] & [b1 H2] & [c1 H3] & H4) ([a2 H5] & [b2 H6] & [c2 H7] & H8).
  split; [|split; [|split]].
  - exists (a2 ++ a1). by rewrite H5, H1, app_assoc.
  - exists (b2 ++ b1). by rewrite H6, H2, app_assoc.
  - exists (c2 ++ c1). by rewrite H7, H3, app_assoc.
  - by etrans.
Qed.

Lemma alloc_only_extends st st' : alloc_only st st' → registry_extends st st'.
Proof.
  intros ->. simpl.
  split; [by exists []|]. split; [by exists []|]. split; [by exists []|done].
Qed.

Lemma plan_only_extends st st' : plan_only st st' → registry_extends st st'.
Proof. intros H. by apply alloc_only_extends, plan_only_alloc_only. Qed.

Lemma add_endpoint_extends ep st :
  registry_extends st (virt_iommu_add_endpoint_spec ep st).
Proof.
  unfold virt_iommu_add_endpoint_spec.
  destruct (_ =? _); (split; [|split; [|split]]); simpl;
    try (by exists []); try (by exists [ep]); done.
Qed.

Lemma viot_get_iommu_extends offset st :
  registry_extends st (snd (viot_get_iommu L viot offset st)).
Proof.
  destruct (viot_get_iommu_cases offset st)
    as [(h & _ & ->)|[(_ & k & Hk & ->)|(_ & _ & h & d & p & Hh & ->)]]; simpl.
  - apply registry_extends_refl.
  - by apply plan_only_extends.
  - split; [|split; [|split]]; simpl; try (by exists []).
    + by exists [h].
    + by apply insert_subseteq.
Qed.

(** A visited node stays recorded, with the same specification. *)
Lemma viot_get_iommu_keeps offset st off0 h0 :
  viot_find_iommu off0 st = Some h0 →
  viot_find_iommu off0 (snd (viot_get_iommu L viot offset st)) = Some h0.
Proof.
  intros H0.
  destruct (viot_get_iommu_cases offset st)
    as [(h & _ & ->)|[(_ & k & Hk & ->)|(Hnone & _ & h & d & p & Hh & ->)]]; simpl.
  - done.
  - by rewrite Hk.
  - unfold viot_find_iommu in *. simpl.
    destruct (offset =? off0) eqn:E; [|done].
    apply Z.eqb_eq in E. subst. by rewrite Hnone in H0.
Qed.

(** The specification returned is the one recorded for the offset. *)
Lemma viot_get_iommu_recorded offset st h :
  fst (viot_get_iommu L viot offset st) = Some h →
  viot_find_iommu offset (snd (viot_get_iommu L viot offset st)) = Some h.
Proof.
  destruct (viot_get_iommu_cases offset st)
    as [(h' & Hf & ->)|[(_ & k & Hk & ->)|(Hnone & _ & h' & d & p & Hh & ->)]];
    simpl; intros [= <-]; [done|].
  unfold viot_find_iommu. simpl. by rewrite Z.eqb_refl.
Qed.

Lemma viot_find_iommu_elem offset st h :
  viot_find_iommu offset st = Some h → (offset, h) ∈ iommus st.
Proof.
  unfold viot_find_iommu.
  destruct (find _ _) as [[o h']|] eqn:E; [|done].
  simpl. intros [= <-]. apply find_some in E as [Hin Ho].
  apply Z.eqb_eq in Ho. simpl in Ho. subst. by apply list_elem_of_In.
Qed.

Lemma viot_find_iommu_none offset st :
  viot_find_iommu offset st = None → offset ∉ (fst <$> iommus st).
Proof.
  unfold viot_find_iommu. intros Hn Hin.
  destruct (find _ _) as [e|] eqn:E; [done|].
  apply list_elem_of_fmap in Hin as ([o h] & -> & Hin).
  apply list_elem_of_In in Hin.
  pose proof (find_none _ _ E _ Hin) as Hf. simpl in Hf.
  by rewrite Z.eqb_refl in Hf.
Qed.

Lemma alloc_only_inv st st' : alloc_only st st' → viot_inv st → viot_inv st'.
Proof. by intros ->. Qed.

Lemma plan_only_inv st st' : plan_only st st' → viot_inv st → viot_inv st'.
Proof. intros H. by apply alloc_only_inv, plan_only_alloc_only. Qed.

Lemma viot_get_iommu_inv offset st :
  viot_inv st → viot_inv (snd (viot_get_iommu L viot offset st)).
Proof.
  intros Hinv.
  destruct (viot_get_iommu_cases offset st)
    as [(h & _ & ->)|[(_ & k & Hk & ->)|(Hnone & _ & h & d & p & Hh & ->)]]; simpl.
  - done.
  - by eapply plan_only_inv.
  - destruct Hinv as (Hoff & Hnd & Hlive & Hreg).
    assert (Hnew : h ∉ viommus st).
    { intros Hin. apply Hlive in Hin as [x Hx]. congruence. }
    unfold viot_inv. simpl. repeat split.
    + constructor; [by apply viot_find_iommu_none|done].
    + by constructor.
    + intros h' Hin. destruct (decide (h' = h)) as [->|Hne].
      * rewrite lookup_insert_eq. by eexists.
      * rewrite lookup_insert_ne by done. apply Hlive.
        by apply elem_of_cons in Hin as [?|?].
    + intros e He. apply elem_of_cons in He as [->|He]; simpl.
      * by left.
      * right. by apply Hreg.
Qed.

(** The outcomes of [viot_parse_node]: a failure or a skipped record
    (nothing changes but the allocation plan: the endpoint object, if it was
    allocated, is freed), or an endpoint published with the specification
    [viot_get_iommu] returned for its output node (its object stays
    allocated). *)
Lemma viot_parse_node_cases node st :
  (fst (viot_parse_node L viot node st) ≠ 0
   ∧ plan_only st (snd (viot_parse_node L viot node st)))
  ∨ (fst (viot_parse_node L viot node st) = 0
     ∧ plan_only st (snd (viot_parse_node L viot node st))
     ∧ viot_check_bounds viot node = 0
     ∧ node_type viot node ≠ ACPI_VIOT_NODE_PCI_RANGE L
     ∧ node_type viot node ≠ ACPI_VIOT_NODE_MMIO L)
  ∨ (fst (viot_parse_node L viot node st) = 0
     ∧ viot_check_bounds viot node = 0
     ∧ ∃ k off h ep,
         (alloc_only st k ∧ endpoint_objs k = endpoint_objs st + 1)
         ∧ fst (viot_get_iommu L viot off k) = Some h
         ∧ ep_viommu ep = Some h
         ∧ snd (viot_parse_node L viot node st)
           = virt_iommu_add_endpoint_spec ep (snd (viot_get_iommu L viot off k))
         ∧ off = node_output_node L viot node
         ∧ ((node_type viot node = ACPI_VIOT_NODE_PCI_RANGE L
             ∧ is_mmio_endpoint ep = false)
            ∨ (node_type viot node = ACPI_VIOT_NODE_MMIO L
               ∧ is_mmio_endpoint ep = true))).
Proof.
  unfold viot_parse_node.
  destruct (viot_check_bounds viot node =? 0) eqn:Ec; simpl; [|left; by auto with viommu].
  apply Z.eqb_eq in Ec.
  pose proof (kzalloc_plan_only st) as Hk0.
  destruct (kzalloc_endpoint_cases st) as [->| ->]; simpl; [left; by auto|].
  set (k0 := snd (kzalloc st)) in *.
  set (k := set_endpoint_objs _ k0).
  assert (Hfree : kfree_endpoint k = k0) by apply kfree_alloc_endpoint.
  assert (Hk : alloc_only st k ∧ endpoint_objs k = endpoint_objs st + 1).
  { subst k. rewrite Hk0. unfold alloc_only. simpl. split; [by destruct st|done]. }
  assert (Hfin : ∀ off d e,
    let spec := {| ep_devid := d; endpoint_id := e;
                   ep_viommu := fst (viot_get_iommu L viot off k) |} in
    (fst (viot_finish_node spec (snd (viot_get_iommu L viot off k))) ≠ 0
     ∧ plan_only st (snd (viot_finish_node spec (snd (viot_get_iommu L viot off k)))))
    ∨ (fst (viot_finish_node spec (snd (viot_get_iommu L viot off k))) = 0
       ∧ ∃ h, fst (viot_get_iommu L viot off k) = Some h
              ∧ snd (viot_finish_node spec (snd (viot_get_iommu L viot off k)))
                = virt_iommu_add_endpoint_spec spec (snd (viot_get_iommu L viot off k)))).
  { intros off d e spec. unfold viot_finish_node. subst spec. simpl.
    destruct (viot_get_iommu_cases off k)
      as [(h & _ & ->)|[(_ & k' & Hk' & ->)|(_ & _ & h & d' & p & Hh & ->)]]; simpl.
    - right. split; [done|]. by exists h.
    - left. split; [done|]. apply kfree_endpoint_plan_only in Hk'.
      rewrite Hfree in Hk'. by eapply plan_only_trans.
    - right. split; [done|]. by exists h. }
  destruct (node_type viot node =? ACPI_VIOT_NODE_PCI_RANGE L) eqn:Ep.
  { apply Z.eqb_eq in Ep.
    destruct (node_length viot node <? sizeof_viot_pci_range L).
    { left. rewrite Hfree. by auto. }
    set (off := read16 _ (node + viot_pci_output_node L)).
    assert (Hoff : off = node_output_node L viot node).
    { unfold node_output_node. by rewrite Ep, Z.eqb_refl. }
    destruct (viot_get_iommu L viot off k) as [v st2] eqn:Eg.
    specialize (Hfin off (DEV_PCI (read16 (viot_bytes viot) (node + viot_pci_segment L))
                                  (read16 (viot_bytes viot) (node + viot_pci_bdf_start L))
                                  (read16 (viot_bytes viot) (node + viot_pci_bdf_end L)))
                     (read32 (viot_bytes viot) (node + viot_pci_endpoint_start L))).
    rewrite Eg in Hfin. simpl in Hfin.
    destruct Hfin as [Hfail|(H0 & h & -> & Hs)]; [by left|].
    right. right. split; [done|]. split; [done|].
    eexists k, off, h, _. rewrite Eg. simpl.
    refine (conj Hk (conj eq_refl (conj _ (conj eq_refl (conj Hoff _)))));
      [reflexivity|]. left. split; [exact Ep|reflexivity]. }
  apply Z.eqb_neq in Ep.
  destruct (node_type viot node =? ACPI_VIOT_NODE_MMIO L) eqn:Em.
  { apply Z.eqb_eq in Em.
    destruct (node_length viot node <? sizeof_viot_mmio L).
    { left. rewrite Hfree. by auto. }
    set (off := read16 _ (node + viot_mmio_output_node L)).
    assert (Hoff : off = node_output_node L viot node).
    { unfold node_output_node. apply Z.eqb_neq in Ep. by rewrite Ep. }
    destruct (viot_get_iommu L viot off k) as [v st2] eqn:Eg.
    specialize (Hfin off (DEV_MMIO (read64 (viot_bytes viot) (node + viot_mmio_base_address L)))
                     (read32 (viot_bytes viot) (node + viot_mmio_endpoint L))).
    rewrite Eg in Hfin. simpl in Hfin.
    destruct Hfin as [Hfail|(H0 & h & -> & Hs)]; [by left|].
    right. right. split; [done|]. split; [done|].
    eexists k, off, h, _. rewrite Eg. simpl.
    refine (conj Hk (conj eq_refl (conj _ (conj eq_refl (conj Hoff _)))));
      [reflexivity|]. right. split; [exact Em|reflexivity]. }
  apply Z.eqb_neq in Em.
  right. left. simpl. rewrite Hfree. by auto.
Qed.

Lemma add_endpoint_iommus ep st :
  iommus (virt_iommu_add_endpoint_spec ep st) = iommus st
  ∧ viommus (virt_iommu_add_endpoint_spec ep st) = viommus st
  ∧ heap (virt_iommu_add_endpoint_spec ep st) = heap st.
Proof. unfold virt_iommu_add_endpoint_spec. by destruct (_ =? _). Qed.

Lemma add_endpoint_inv ep st :
  viot_inv st → viot_inv (virt_iommu_add_endpoint_spec ep st).
Proof.
  unfold viot_inv. destruct (add_endpoint_iommus ep st) as (-> & -> & ->). done.
Qed.

Lemma add_endpoint_find ep st offset :
  viot_find_iommu offset (virt_iommu_add_endpoint_spec ep st)
  = viot_find_iommu offset st.
Proof.
  unfold viot_find_iommu. by destruct (add_endpoint_iommus ep st) as (-> & _).
Qed.

Lemma alloc_only_find st st' offset :
  alloc_only st st' → viot_find_iommu offset st' = viot_find_iommu offset st.
Proof. by intros ->. Qed.

Lemma plan_only_find st st' offset :
  plan_only st st' → viot_find_iommu offset st' = viot_find_iommu offset st.
Proof. intros H. by apply alloc_only_find, plan_only_alloc_only. Qed.

Lemma viot_parse_node_extends node st :
  registry_extends st (snd (viot_parse_node L viot node st)).
Proof.
  destruct (viot_parse_node_cases node st)
    as [(_ & Hp)|[(_ & Hp & _)|(_ & _ & k & off & h & ep & [Hk _] & _ & _ & -> & _ & _)]].
  - by apply plan_only_extends.
  - by apply plan_only_extends.
  - eapply registry_extends_trans; [by apply alloc_only_extends|].
    eapply registry_extends_trans; [apply viot_get_iommu_extends|].
    apply add_endpoint_extends.
Qed.

Lemma viot_parse_node_keeps node st off0 h0 :
  viot_find_iommu off0 st = Some h0 →
  viot_find_iommu off0 (snd (viot_parse_node L viot node st)) = Some h0.
Proof.
  intros H0.
  destruct (viot_parse_node_cases node st)
    as [(_ & Hp)|[(_ & Hp & _)|(_ & _ & k & off & h & ep & [Hk _] & _ & _ & -> & _ & _)]].
  - by rewrite (plan_only_find _ _ _ Hp).
  - by rewrite (plan_only_find _ _ _ Hp).
  - rewrite add_endpoint_find. apply viot_get_iommu_keeps.
    by rewrite (alloc_only_find _ _ _ Hk).
Qed.

Lemma viot_parse_node_inv node st :
  viot_inv st → viot_inv (snd (viot_parse_node L viot node st)).
Proof.
  intros Hinv.
  destruct (viot_parse_node_cases node st)
    as [(_ & Hp)|[(_ & Hp & _)|(_ & _ & k & off & h & ep & [Hk _] & _ & _ & -> & _ & _)]].
  - by eapply plan_only_inv.
  - by eapply plan_only_inv.
  - apply add_endpoint_inv, viot_get_iommu_inv. by eapply alloc_only_inv.
Qed.

(** A record that makes [viot_parse_node] fail leaves the registry alone. *)
Lemma viot_parse_node_fail node st :
  fst (viot_parse_node L viot node st) ≠ 0 →
  plan_only st (snd (viot_parse_node L viot node st)).
Proof.
  intros Hne.
  destruct (viot_parse_node_cases node st)
    as [(_ & Hp)|[(H0 & _)|(H0 & _)]]; done.
Qed.

Lemma viot_walk_step n node st :
  viot_walk L viot (S n) node st
  = if negb (fst (viot_parse_node L viot node st) =? 0)
    then snd (viot_parse_node L viot node st)
    else viot_walk L viot n (node + node_length viot node)
           (snd (viot_parse_node L viot node st)).
Proof. simpl. by destruct (viot_parse_node L viot node st). Qed.

Lemma viot_walk_extends n : ∀ node st,
  registry_extends st (viot_walk L viot n node st).
Proof.
  induction n as [|n IH]; intros node st; [apply registry_extends_refl|].
  rewrite viot_walk_step.
  destruct (negb _); [apply viot_parse_node_extends|].
  eapply registry_extends_trans; [apply viot_parse_node_extends|apply IH].
Qed.

Lemma viot_walk_keeps n off0 h0 : ∀ node st,
  viot_find_iommu off0 st = Some h0 →
  viot_find_iommu off0 (viot_walk L viot n node st) = Some h0.
Proof.
  induction n as [|n IH]; intros node st H0; [done|].
  rewrite viot_walk_step.
  destruct (negb _); [by apply viot_parse_node_keeps|].
  by apply IH, viot_parse_node_keeps.
Qed.

Lemma viot_walk_inv n : ∀ node st,
  viot_inv st → viot_inv (viot_walk L viot n node st).
Proof.
  induction n as [|n IH]; intros node st Hinv; [done|].
  rewrite viot_walk_step.
  destruct (negb _); [by apply viot_parse_node_inv|].
  by apply IH, viot_parse_node_inv.
Qed.

(** What a longer walk publishes extends what a shorter walk of the same
    table published. *)
Lemma viot_walk_prefix k m : ∀ node st,
  registry_extends (viot_walk L viot k node st) (viot_walk L viot (k + m) node st).
Proof.
  induction k as [|k IH]; intros node st; [apply viot_walk_extends|].
  replace (S k + m)%nat with (S (k + m)) by lia.
  rewrite !viot_walk_step.
  destruct (negb _); [apply registry_extends_refl|apply IH].
Qed.

Lemma viot_get_iommu_endpoints offset st :
  pci_endpoints (snd (viot_get_iommu L viot offset st)) = pci_endpoints st
  ∧ mmio_endpoints (snd (viot_get_iommu L viot offset st)) = mmio_endpoints st.
Proof.
  destruct (viot_get_iommu_cases offset st)
    as [(h & _ & ->)|[(_ & k & Hk & ->)|(_ & _ & h & d & p & Hh & ->)]]; simpl;
    [done| |done].
  by rewrite Hk.
Qed.

Lemma viot_get_iommu_objs offset st :
  endpoint_objs (snd (viot_get_iommu L viot offset st)) = endpoint_objs st.
Proof.
  destruct (viot_get_iommu_cases offset st)
    as [(h & _ & ->)|[(_ & k & Hk & ->)|(_ & _ & h & d & p & Hh & ->)]]; simpl;
    [done| |done].
  by rewrite Hk.
Qed.

(** An endpoint record that is accepted publishes one endpoint, which
    points to the specification recorded for the record's output node. *)
Lemma viot_parse_node_endpoint node st :
  fst (viot_parse_node L viot node st) = 0 →
  node_type viot node = ACPI_VIOT_NODE_PCI_RANGE L
  ∨ node_type viot node = ACPI_VIOT_NODE_MMIO L →
  ∃ ep h,
    ep_viommu ep = Some h
    ∧ viot_find_iommu (node_output_node L viot node)
        (snd (viot_parse_node L viot node st)) = Some h
    ∧ published_by ep st (snd (viot_parse_node L viot node st)).
Proof.
  intros H0 Hty.
  destruct (viot_parse_node_cases node st)
    as [(Hne & _)|[(_ & _ & _ & Hp & Hm)|
                   (_ & _ & k & off & h & ep & [Hk _] & Hg & Hv & Hs & -> & Hkind)]].
  - done.
  - by destruct Hty.
  - exists ep, h. split; [done|]. rewrite Hs. split.
    + rewrite add_endpoint_find. by apply viot_get_iommu_recorded.
    + destruct (viot_get_iommu_endpoints (node_output_node L viot node) k) as [Hpe Hme].
      unfold published_by, virt_iommu_add_endpoint_spec.
      unfold is_mmio_endpoint in *.
      destruct Hkind as [[_ He]|[_ He]]; rewrite He; simpl; rewrite Hpe, Hme, Hk;
        [left|right]; done.
Qed.

End ViotFacts.

(** C5: the IOMMU lookup of the firmware-table parser is deduplicated by
    offset.  From a state in which no offset is recorded twice: (1) the
    lookup, and any walk, keep it so, and keep every specification in
    [viommus] exactly once; (2) a lookup that returns a specification
    returns the very same address again when repeated, at once or after any
    further records have been walked, and the repeated lookup changes
    nothing (no creation, no second publication); when the offset had not
    been visited, the returned address is newly allocated and put in
    [viommus] by this call; (3) two accepted endpoint records with the same
    output node, the second parsed at any later point of the walk, publish
    endpoints that point to one and the same specification. *)
Theorem viot_get_iommu_dedup (L : viot_layout) (viot : acpi_table_viot) offset st :
  viot_inv st →
  (viot_inv (snd (viot_get_iommu L viot offset st))
   ∧ ∀ n node, viot_inv (viot_walk L viot n node st))
  ∧ (∀ h, fst (viot_get_iommu L viot offset st) = Some h →
       let st1 := snd (viot_get_iommu L viot offset st) in
       viot_get_iommu L viot offset st1 = (Some h, st1)
       ∧ (∀ n node,
            viot_get_iommu L viot offset (viot_walk L viot n node st1)
            = (Some h, viot_walk L viot n node st1))
       ∧ h ∈ viommus st1 ∧ NoDup (viommus st1)
       ∧ (viot_find_iommu offset st = Some h → st1 = st)
       ∧ (viot_find_iommu offset st = None →
          heap st !! h = None ∧ (h ∉ viommus st) ∧ (viommus st1 = h :: viommus st)))
  ∧ (∀ node1 node2 n c,
       let s1 := snd (viot_parse_node L viot node1 st) in
       let s := viot_walk L viot n c s1 in
       let s2 := snd (viot_parse_node L viot node2 s) in
       fst (viot_parse_node L viot node1 st) = 0 →
       fst (viot_parse_node L viot node2 s) = 0 →
       node_type viot node1 = ACPI_VIOT_NODE_PCI_RANGE L
       ∨ node_type viot node1 = ACPI_VIOT_NODE_MMIO L →
       node_type viot node2 = ACPI_VIOT_NODE_PCI_RANGE L
       ∨ node_type viot node2 = ACPI_VIOT_NODE_MMIO L →
       node_output_node L viot node1 = node_output_node L viot node2 →
       ∃ ep1 ep2 h,
         published_by ep1 st s1 ∧ published_by ep2 s s2
         ∧ ep_viommu ep1 = Some h ∧ ep_viommu ep2 = Some h).
Proof.
  intros Hinv.
  assert (Hfound : ∀ s h, viot_find_iommu offset s = Some h →
                          viot_get_iommu L viot offset s = (Some h, s)).
  { intros s h Hf. unfold viot_get_iommu. by rewrite Hf. }
  split; [split; [by apply viot_get_iommu_inv|intros; by apply viot_walk_inv]|].
  split.
  - intros h Hh st1.
    pose proof (viot_get_iommu_recorded L viot offset st h Hh) as Hrec.
    pose proof (viot_get_iommu_inv L viot offset st Hinv) as (_ & Hnd & _ & Hreg).
    fold st1 in Hrec, Hnd, Hreg.
    split; [by apply Hfound|].
    split; [intros n node; by apply Hfound, viot_walk_keeps|].
    split; [apply (Hreg (offset, h)); by apply viot_find_iommu_elem|].
    split; [done|].
    subst st1.
    destruct (viot_get_iommu_cases L viot offset st)
      as [(h' & Hf & Hr)|[(Hf & k & Hk & Hr)|(Hf & _ & h' & d & p & Hfresh & Hr)]];
      rewrite Hr in *; simpl in *.
    + split; [done|]. by rewrite Hf.
    + done.
    + injection Hh as ->. split; [by rewrite Hf|]. intros _.
      split; [done|]. split; [|done].
      destruct Hinv as (_ & _ & Hlive & _).
      intros Hin. apply Hlive in Hin as [x Hx]. congruence.
  - intros node1 node2 n c s1 s s2 H1 H2 Ht1 Ht2 Hout.
    destruct (viot_parse_node_endpoint L viot node1 st H1 Ht1) as (ep1 & h1 & Hv1 & Hf1 & Hp1).
    destruct (viot_parse_node_endpoint L viot node2 s H2 Ht2) as (ep2 & h2 & Hv2 & Hf2 & Hp2).
    fold s1 in Hf1, Hp1. fold s2 in Hf2, Hp2.
    assert (Hsame : viot_find_iommu (node_output_node L viot node1) s2 = Some h1).
    { subst s2 s. by apply viot_parse_node_keeps, viot_walk_keeps. }
    rewrite Hout, Hf2 in Hsame. injection Hsame as ->.
    by exists ep1, ep2, h1.
Qed.

Lemma viot_inv_empty : viot_inv empty_state.
Proof.
  unfold viot_inv. simpl. repeat split; try constructor.
  - intros h Hh. by apply elem_of_nil in Hh.
  - intros e He. by apply elem_of_nil in He.
Qed.

Lemma viot_get_iommu_dedup_witness :
  let st1 := snd (viot_get_iommu spec_viot_layout example_viot 56 empty_state) in
  fst (viot_get_iommu spec_viot_layout example_viot 56 empty_state) = Some 0%nat
  ∧ viot_get_iommu spec_viot_layout example_viot 56 st1 = (Some 0%nat, st1)
  ∧ viommus st1 = [0%nat].
Proof.
  intros st1.
  assert (Hget : fst (viot_get_iommu spec_viot_layout example_viot 56 empty_state)
                 = Some 0%nat) by (vm_compute; reflexivity).
  assert (Hnone : viot_find_iommu 56 empty_state = None) by (vm_compute; reflexivity).
  destruct (viot_get_iommu_dedup spec_viot_layout example_viot 56 empty_state
              viot_inv_empty) as (_ & Hsame & _).
  destruct (Hsame 0%nat Hget) as (Hagain & _ & _ & _ & _ & Hnew).
  split; [exact Hget|]. split; [exact Hagain|].
  exact (proj2 (proj2 (Hnew Hnone))).
Defined.

(** C6 as stated does not hold: the MMIO record at offset 108 of
    [truncated_viot] starts inside [[node_offset, table length)] but its
    declared 20 bytes reach past the table length 120; the bounds check
    accepts it, the record is parsed and its endpoint is published. *)
Lemma viot_check_bounds_overhang_counterexample :
  node_offset truncated_viot ≤ 108 < header_length truncated_viot
  ∧ header_length truncated_viot < 108 + node_length truncated_viot 108
  ∧ viot_check_bounds truncated_viot 108 = 0
  ∧ fst (viot_parse_node spec_viot_layout truncated_viot 108 empty_state) = 0
  ∧ mmio_endpoints (viot_parse_nodes spec_viot_layout truncated_viot empty_state)
    = [{| ep_devid := DEV_MMIO 268435456; endpoint_id := 7; ep_viommu := Some 1%nat |}]
  ∧ ¬ (∀ viot node,
         ¬ (node_offset viot ≤ node
            ∧ node + node_length viot node ≤ header_length viot) →
         viot_check_bounds viot node = - EOVERFLOW).
Proof.
  split; [vm_compute; split; congruence|].
  split; [vm_compute; reflexivity|].
  split; [vm_compute; reflexivity|].
  split; [vm_compute; reflexivity|].
  split; [vm_compute; reflexivity|].
  intros Hall. specialize (Hall truncated_viot 108).
  assert (Hc : viot_check_bounds truncated_viot 108 = 0) by (vm_compute; reflexivity).
  rewrite Hc in Hall. discriminate Hall.
  vm_compute. intros [_ H]. by apply H.
Qed.

(** C6, amended: the bounds check looks at the start of the record only.
    A record is rejected with [-EOVERFLOW] exactly when its first byte lies
    outside [[node_offset, table length)], whatever its declared length;
    a record that starts inside is rejected with [-EINVAL] ("empty node")
    exactly when its declared length is smaller than the sub-header, and is
    accepted otherwise.  A rejected record makes [viot_parse_node] fail and
    ends the walk there, with the state as it was. *)
Theorem viot_check_bounds_spec (L : viot_layout) (viot : acpi_table_viot) node :
  (viot_check_bounds viot node = - EOVERFLOW
   ↔ node < node_offset viot ∨ header_length viot ≤ node)
  ∧ (viot_check_bounds viot node = - EINVAL
     ↔ (node_offset viot ≤ node < header_length viot)
       ∧ node_length viot node < sizeof_acpi_viot_node)
  ∧ (viot_check_bounds viot node = 0
     ↔ (node_offset viot ≤ node < header_length viot)
       ∧ sizeof_acpi_viot_node ≤ node_length viot node)
  ∧ (viot_check_bounds viot node ≠ 0 →
     ∀ n st, fst (viot_parse_node L viot node st) ≠ 0
             ∧ viot_walk L viot (S n) node st = st).
Proof.
  unfold viot_check_bounds, EOVERFLOW, EINVAL.
  destruct (node <? node_offset viot) eqn:E1; simpl.
  { apply Z.ltb_lt in E1. unfold viot_parse_node, viot_check_bounds.
    rewrite (proj2 (Z.ltb_lt _ _) E1). simpl.
    repeat split; try done; try lia; intros; lia. }
  apply Z.ltb_ge in E1.
  destruct (header_length viot <=? node) eqn:E2; simpl.
  { apply Z.leb_le in E2. unfold viot_parse_node, viot_check_bounds.
    rewrite (proj2 (Z.leb_le _ _) E2), orb_true_r. simpl.
    repeat split; try done; try lia; intros; lia. }
  apply Z.leb_gt in E2.
  destruct (node_length viot node <? sizeof_acpi_viot_node) eqn:E3.
  { apply Z.ltb_lt in E3. unfold viot_parse_node, viot_check_bounds.
    rewrite (proj2 (Z.ltb_ge _ _) E1), (proj2 (Z.leb_gt _ _) E2),
      (proj2 (Z.ltb_lt _ _) E3). simpl.
    repeat split; try done; try lia; intros; lia. }
  apply Z.ltb_ge in E3.
  repeat split; try done; try lia; intros; lia.
Qed.

Lemma viot_check_bounds_spec_witness :
  viot_check_bounds example_viot 128 = - EOVERFLOW
  ∧ viot_walk spec_viot_layout example_viot 3 128 empty_state = empty_state.
Proof.
  destruct (viot_check_bounds_spec spec_viot_layout example_viot 128)
    as (Hovf & _ & _ & Habort).
  assert (Hout : 128 < node_offset example_viot ∨ header_length example_viot ≤ 128).
  { right. vm_compute. congruence. }
  pose proof (proj2 Hovf Hout) as Hc.
  split; [exact Hc|].
  assert (Hne : viot_check_bounds example_viot 128 ≠ 0).
  { rewrite Hc. vm_compute. congruence. }
  exact (proj2 (Habort Hne 2%nat empty_state)).
Defined.

(** C8: the firmware-table walk.  (1) A record that passes the bounds
    check and whose type is neither PCI_RANGE nor MMIO is skipped:
    [viot_parse_node] returns 0, the registry is as before, and the walk goes
    on with the next record.  (2) A record for which [viot_parse_node] fails
    ends the walk: the records after it are not looked at and the failing
    record adds nothing.  (3) A record failing the bounds check fails
    ([-EINVAL]); (4) so does an endpoint record whose declared length is
    below the size of the structure of its type ([-EINVAL]); (5) and so does
    an endpoint record whose IOMMU cannot be resolved ([-ENODEV]).  (6) An
    endpoint record that passes these checks is published at once: the
    decoded endpoint, pointing to the specification [viot_get_iommu]
    returned, is put at the head of its registry list, its object stays
    allocated, and the walk goes on with the next record.  (7) Nothing is
    rolled back: what a walk of the first [k] records has published is still
    there, in the same order, after a walk of [k + m] records, wherever the
    longer walk stopped. *)
Theorem viot_walk_skip_abort_keep (L : viot_layout) (viot : acpi_table_viot) :
  (∀ node st n,
      viot_check_bounds viot node = 0 →
      node_type viot node ≠ ACPI_VIOT_NODE_PCI_RANGE L →
      node_type viot node ≠ ACPI_VIOT_NODE_MMIO L →
      fst (kzalloc st) = true →
      viot_parse_node L viot node st = (0, snd (kzalloc st))
      ∧ registry (snd (kzalloc st)) = registry st
      ∧ heap (snd (kzalloc st)) = heap st
      ∧ viot_walk L viot (S n) node st
        = viot_walk L viot n (node + node_length viot node) (snd (kzalloc st)))
  ∧ (∀ node st n,
      fst (viot_parse_node L viot node st) ≠ 0 →
      viot_walk L viot (S n) node st = snd (viot_parse_node L viot node st)
      ∧ registry (viot_walk L viot (S n) node st) = registry st
      ∧ heap (viot_walk L viot (S n) node st) = heap st)
  ∧ (∀ node st,
      viot_check_bounds viot node ≠ 0 →
      fst (viot_parse_node L viot node st) = - EINVAL)
  ∧ (∀ node st,
      viot_check_bounds viot node = 0 →
      fst (kzalloc st) = true →
      node_too_short L viot node = true →
      viot_parse_node L viot node st = (- EINVAL, snd (kzalloc st)))
  ∧ (∀ node st,
      viot_check_bounds viot node = 0 →
      fst (kzalloc st) = true →
      (node_type viot node = ACPI_VIOT_NODE_PCI_RANGE L
       ∧ sizeof_viot_pci_range L ≤ node_length viot node)
      ∨ (node_type viot node ≠ ACPI_VIOT_NODE_PCI_RANGE L
         ∧ node_type viot node = ACPI_VIOT_NODE_MMIO L
         ∧ sizeof_viot_mmio L ≤ node_length viot node) →
      fst (viot_get_iommu L viot (node_output_node L viot node)
             (snd (kzalloc_endpoint st)))
      = None →
      fst (viot_parse_node L viot node st) = - ENODEV)
  ∧ (∀ node st n h,
      viot_check_bounds viot node = 0 →
      fst (kzalloc st) = true →
      node_type viot node = ACPI_VIOT_NODE_PCI_RANGE L
      ∨ node_type viot node = ACPI_VIOT_NODE_MMIO L →
      node_too_short L viot node = false →
      fst (viot_get_iommu L viot (node_output_node L viot node)
             (snd (kzalloc_endpoint st)))
      = Some h →
      viot_parse_node L viot node st
      = (0, virt_iommu_add_endpoint_spec (node_endpoint L viot h node)
              (snd (viot_get_iommu L viot (node_output_node L viot node)
                      (snd (kzalloc_endpoint st)))))
      ∧ published_by (node_endpoint L viot h node) st
          (snd (viot_parse_node L viot node st))
      ∧ endpoint_objs (snd (viot_parse_node L viot node st)) = endpoint_objs st + 1
      ∧ viot_walk L viot (S n) node st
        = viot_walk L viot n (node + node_length viot node)
            (snd (viot_parse_node L viot node st)))
  ∧ (∀ k m node st,
      registry_extends (viot_walk L viot k node st)
                       (viot_walk L viot (k + m) node st)).
Proof.
  split; [|split; [|split; [|split; [|split; [|split]]]]].
  - intros node st n Hc Hp Hm Hk.
    pose proof (kzalloc_plan_only st) as Hpo.
    assert (Hr : viot_parse_node L viot node st = (0, snd (kzalloc st))).
    { unfold viot_parse_node. rewrite Hc. simpl.
      pose proof (kfree_kzalloc_endpoint _ Hk) as Hf.
      rewrite <- kzalloc_endpoint_fst in Hk.
      destruct (kzalloc_endpoint st) as [ok k]; simpl in *. subst ok. simpl.
      apply Z.eqb_neq in Hp, Hm. by rewrite Hp, Hm, Hf. }
    split; [done|]. split; [by apply plan_only_registry|].
    split; [by apply plan_only_heap|].
    rewrite viot_walk_step, Hr. done.
  - intros node st n Hne.
    assert (Hw : viot_walk L viot (S n) node st = snd (viot_parse_node L viot node st)).
    { rewrite viot_walk_step. apply Z.eqb_neq in Hne. by rewrite Hne. }
    rewrite Hw. split; [done|].
    pose proof (viot_parse_node_fail L viot node st Hne) as Hpo.
    split; [by apply plan_only_registry|by apply plan_only_heap].
  - intros node st Hc. unfold viot_parse_node.
    apply Z.eqb_neq in Hc. by rewrite Hc.
  - intros node st Hc Hk Hshort.
    unfold viot_parse_node. rewrite Hc. simpl.
    pose proof (kfree_kzalloc_endpoint _ Hk) as Hf.
    rewrite <- kzalloc_endpoint_fst in Hk.
    destruct (kzalloc_endpoint st) as [ok k]; simpl in *. subst ok. simpl.
    unfold node_too_short in Hshort.
    destruct (node_type viot node =? ACPI_VIOT_NODE_PCI_RANGE L).
    { by rewrite Hshort, Hf. }
    destruct (node_type viot node =? ACPI_VIOT_NODE_MMIO L); [|done].
    by rewrite Hshort, Hf.
  - intros node st Hc Hk Hty Hg.
    unfold viot_parse_node. rewrite Hc. simpl.
    rewrite <- kzalloc_endpoint_fst in Hk.
    destruct (kzalloc_endpoint st) as [ok k]; simpl in *. subst ok. simpl.
    unfold node_output_node in Hg.
    destruct Hty as [[Hty Hlen]|(Hnp & Hty & Hlen)].
    + rewrite Hty, Z.eqb_refl in *. rewrite (proj2 (Z.ltb_ge _ _) Hlen).
      destruct (viot_get_iommu L viot _ k) as [v st2]. simpl in Hg. by subst v.
    + apply Z.eqb_neq in Hnp. rewrite Hnp in *.
      rewrite Hty, Z.eqb_refl. rewrite (proj2 (Z.ltb_ge _ _) Hlen).
      destruct (viot_get_iommu L viot _ k) as [v st2]. simpl in Hg. by subst v.
  - intros node st n h Hc Hk Hty Hshort Hg.
    pose proof (kzalloc_endpoint_alloc_only st) as Ha.
    pose proof (kzalloc_endpoint_true _ Hk) as Hke.
    assert (Hobj : endpoint_objs (snd (kzalloc_endpoint st)) = endpoint_objs st + 1)
      by (by rewrite Hke).
    pose proof (viot_get_iommu_endpoints L viot (node_output_node L viot node)
                  (snd (kzalloc_endpoint st))) as [Hpe Hme].
    pose proof (viot_get_iommu_objs L viot (node_output_node L viot node)
                  (snd (kzalloc_endpoint st))) as Hge.
    destruct (alloc_only_registry_fields _ _ Ha) as [Hp0 Hm0].
    rewrite Hp0 in Hpe. rewrite Hm0 in Hme.
    assert (Hr : viot_parse_node L viot node st
                 = (0, virt_iommu_add_endpoint_spec (node_endpoint L viot h node)
                         (snd (viot_get_iommu L viot (node_output_node L viot node)
                                 (snd (kzalloc_endpoint st)))))).
    { unfold viot_parse_node. rewrite Hc. simpl.
      rewrite <- kzalloc_endpoint_fst in Hk. clear Ha Hke Hobj Hpe Hme Hge.
      destruct (kzalloc_endpoint st) as [ok k]; simpl in *. subst ok. simpl.
      unfold node_output_node, node_too_short, node_endpoint in *.
      destruct (node_type viot node =? ACPI_VIOT_NODE_PCI_RANGE L) eqn:Ep.
      { rewrite Hshort. destruct (viot_get_iommu L viot _ k) as [v st2].
        simpl in *. by subst v. }
      destruct (node_type viot node =? ACPI_VIOT_NODE_MMIO L) eqn:Em.
      { rewrite Hshort. destruct (viot_get_iommu L viot _ k) as [v st2].
        simpl in *. by subst v. }
      apply Z.eqb_neq in Ep, Em. by destruct Hty. }
    rewrite viot_walk_step, Hr. simpl. split; [done|].
    split; [|split; [|done]].
    + unfold published_by, virt_iommu_add_endpoint_spec, is_mmio_endpoint.
      destruct (dev_spec_type (ep_devid (node_endpoint L viot h node))
                =? VIRT_IOMMU_DEV_TYPE_MMIO); simpl; rewrite Hpe, Hme;
        [right|left]; done.
    + unfold virt_iommu_add_endpoint_spec.
      destruct (_ =? VIRT_IOMMU_DEV_TYPE_MMIO); simpl; lia.
  - intros. apply viot_walk_prefix.
Qed.

Lemma viot_walk_skip_abort_keep_witness :
  (viot_parse_node spec_viot_layout example_viot 104 empty_state
   = (0, snd (kzalloc empty_state))
   ∧ viot_walk spec_viot_layout example_viot 2 104 empty_state
     = viot_walk spec_viot_layout example_viot 1
         (104 + node_length example_viot 104) (snd (kzalloc empty_state)))
  ∧ registry (viot_walk spec_viot_layout truncated_viot 3 120 example_topology)
    = registry example_topology
  ∧ viot_parse_node spec_viot_layout short_range_viot 48 empty_state
    = (- EINVAL, empty_state)
  ∧ (fst (viot_parse_node spec_viot_layout example_viot 64 empty_state) = 0
     ∧ pci_endpoints (snd (viot_parse_node spec_viot_layout example_viot 64
                             empty_state))
       = [{| ep_devid := DEV_PCI 0 0 15; endpoint_id := 0;
             ep_viommu := Some 0%nat |}]
     ∧ endpoint_objs (snd (viot_parse_node spec_viot_layout example_viot 64
                             empty_state)) = 1).
Proof.
  destruct (viot_walk_skip_abort_keep spec_viot_layout example_viot)
    as (Hskip & _ & _ & _ & _ & Hpub & _).
  destruct (viot_walk_skip_abort_keep spec_viot_layout truncated_viot)
    as (_ & Habort & _).
  destruct (viot_walk_skip_abort_keep spec_viot_layout short_range_viot)
    as (_ & _ & _ & Hshort & _).
  assert (Hk : fst (kzalloc empty_state) = true) by (vm_compute; reflexivity).
  split; [|split; [|split]].
  - assert (Hc : viot_check_bounds example_viot 104 = 0) by (vm_compute; reflexivity).
    assert (Hp : node_type example_viot 104 ≠ ACPI_VIOT_NODE_PCI_RANGE spec_viot_layout)
      by (vm_compute; congruence).
    assert (Hm : node_type example_viot 104 ≠ ACPI_VIOT_NODE_MMIO spec_viot_layout)
      by (vm_compute; congruence).
    destruct (Hskip 104 empty_state 1%nat Hc Hp Hm Hk) as (Hs1 & _ & _ & Hs2).
    split; [exact Hs1|exact Hs2].
  - assert (Hne : fst (viot_parse_node spec_viot_layout truncated_viot 120
                         example_topology) ≠ 0) by (vm_compute; congruence).
    exact (proj1 (proj2 (Habort 120 example_topology 2%nat Hne))).
  - assert (Hc : viot_check_bounds short_range_viot 48 = 0) by (vm_compute; reflexivity).
    assert (Hs : node_too_short spec_viot_layout short_range_viot 48 = true)
      by (vm_compute; reflexivity).
    exact (Hshort 48 empty_state Hc Hk Hs).
  - assert (Hc : viot_check_bounds example_viot 64 = 0) by (vm_compute; reflexivity).
    assert (Hty : node_type example_viot 64 = ACPI_VIOT_NODE_PCI_RANGE spec_viot_layout
                  ∨ node_type example_viot 64 = ACPI_VIOT_NODE_MMIO spec_viot_layout)
      by (left; vm_compute; reflexivity).
    assert (Hs : node_too_short spec_viot_layout example_viot 64 = false)
      by (vm_compute; reflexivity).
    assert (Hg : fst (viot_get_iommu spec_viot_layout example_viot
                        (node_output_node spec_viot_layout example_viot 64)
                        (snd (kzalloc_endpoint empty_state))) = Some 0%nat)
      by (vm_compute; reflexivity).
    destruct (Hpub 64 empty_state 0%nat 0%nat Hc Hk Hty Hs Hg)
      as (Hr & _ & Hobj & _).
    rewrite Hobj, Hr. vm_compute. auto.
Defined.

(** Facts about the cursor of the walk. *)
Lemma viot_walk_cursors_step (L : viot_layout) (viot : acpi_table_viot) n node st :
  viot_walk_cursors L viot (S n) node st
  = if negb (fst (viot_parse_node L viot node st) =? 0)
    then [node]
    else node :: viot_walk_cursors L viot n (node + node_length viot node)
                   (snd (viot_parse_node L viot node st)).
Proof. simpl. by destruct (viot_parse_node L viot node st). Qed.

Lemma viot_parse_node_ok_bounds (L : viot_layout) (viot : acpi_table_viot) node st :
  fst (viot_parse_node L viot node st) = 0 → viot_check_bounds viot node = 0.
Proof.
  unfold viot_parse_node.
  destruct (viot_check_bounds viot node =? 0) eqn:E; simpl; [|done].
  intros _. by apply Z.eqb_eq.
Qed.

Lemma viot_check_bounds_ok_length (viot : acpi_table_viot) node :
  viot_check_bounds viot node = 0 → sizeof_acpi_viot_node ≤ node_length viot node.
Proof.
  unfold viot_check_bounds.
  destruct (_ || _); [done|].
  destruct (node_length viot node <? sizeof_acpi_viot_node) eqn:E; [done|].
  intros _. by apply Z.ltb_ge.
Qed.

(** C9: the firmware-table walk terminates.  The loop body runs at most
    [node_count] times; the walk is the parsing of the records at the
    successive cursors; and whenever the walk goes from a cursor to the next,
    the record it leaves has a declared length of at least the sub-header
    size, so the next cursor is that much further and strictly greater. *)
Theorem viot_walk_terminates (L : viot_layout) (viot : acpi_table_viot) n node st :
  (length (viot_walk_cursors L viot n node st) ≤ n)%nat
  ∧ viot_walk L viot n node st
    = fold_left (λ s c, snd (viot_parse_node L viot c s))
        (viot_walk_cursors L viot n node st) st
  ∧ (∀ i c c',
       viot_walk_cursors L viot n node st !! i = Some c →
       viot_walk_cursors L viot n node st !! S i = Some c' →
       sizeof_acpi_viot_node ≤ node_length viot c
       ∧ c' = c + node_length viot c
       ∧ c < c')
  ∧ (length (viot_walk_cursors L viot (Z.to_nat (node_count viot))
               (node_offset viot) st) ≤ Z.to_nat (node_count viot))%nat.
Proof.
  assert (Hlen : ∀ n node st, (length (viot_walk_cursors L viot n node st) ≤ n)%nat).
  { clear. induction n as [|n IH]; intros node st; [done|].
    rewrite viot_walk_cursors_step. destruct (negb _); simpl; [lia|].
    specialize (IH (node + node_length viot node)
                   (snd (viot_parse_node L viot node st))). lia. }
  split; [apply Hlen|]. split; [|split; [|apply Hlen]].
  - revert node st. induction n as [|n IH]; intros node st; [done|].
    rewrite viot_walk_step, viot_walk_cursors_step.
    destruct (negb _); simpl; [done|]. apply IH.
  - revert node st. induction n as [|n IH]; intros node st i c c'; [done|].
    rewrite viot_walk_cursors_step.
    destruct (fst (viot_parse_node L viot node st) =? 0) eqn:E; simpl.
    2:{ intros _ Hn. by destruct i. }
    apply Z.eqb_eq in E.
    pose proof (viot_check_bounds_ok_length viot node
                  (viot_parse_node_ok_bounds L viot node st E)) as Hl.
    destruct i as [|i]; simpl.
    + intros [= <-] Hnext.
      destruct n as [|n]; [done|].
      rewrite viot_walk_cursors_step in Hnext.
      unfold sizeof_acpi_viot_node in *.
      destruct (negb _); simpl in Hnext; injection Hnext as <-; lia.
    + apply IH.
Qed.

Lemma viot_walk_terminates_witness :
  viot_walk_cursors spec_viot_layout example_viot 6 48 empty_state
  = [48; 56; 64; 84; 104; 108]
  ∧ sizeof_acpi_viot_node ≤ node_length example_viot 64 ∧ 64 < 84.
Proof.
  assert (Hcs : viot_walk_cursors spec_viot_layout example_viot 6 48 empty_state
                = [48; 56; 64; 84; 104; 108]) by (vm_compute; reflexivity).
  split; [exact Hcs|].
  destruct (viot_walk_terminates spec_viot_layout example_viot 6 48 empty_state)
    as (_ & _ & Hstep & _).
  rewrite Hcs in Hstep.
  destruct (Hstep 2%nat 64 84 eq_refl eq_refl) as (Hl & _ & Hlt).
  split; [exact Hl|exact Hlt].
Defined.

(** The walk of [corrupt_viot] stops at the record that lies outside the
    table; the two PCI ranges parsed before it, and their IOMMU, stay
    published. *)
Lemma viot_partial_topology_kept :
  viot_walk_cursors spec_viot_layout corrupt_viot 6 48 empty_state
  = [48; 56; 64; 84; 104]
  ∧ viommus (viot_parse_nodes spec_viot_layout corrupt_viot empty_state) = [0%nat]
  ∧ pci_endpoints (viot_parse_nodes spec_viot_layout corrupt_viot empty_state)
    = [{| ep_devid := DEV_PCI 0 16 31; endpoint_id := 100; ep_viommu := Some 0%nat |};
       {| ep_devid := DEV_PCI 0 0 15; endpoint_id := 0; ep_viommu := Some 0%nat |}].
Proof. repeat split; vm_compute; reflexivity. Qed.

(** ** Integer ranges

    The cursors are computed in [Z]; the bounds below show that the C
    computation in [size_t] does not wrap around. *)


Lemma item_offset_bound cfg k : ∀ offset,
  offset ≤ item_offset cfg offset k ≤ offset + 65535 * Z.of_nat k.
Proof.
  induction k as [|k IH]; intros offset; simpl; [lia|].
  pose proof (read16_range cfg (offset + 2)).
  specialize (IH (offset + read16 cfg (offset + 2))). lia.
Qed.

(** X16.  With [offset] and [num_items] read from 16-bit fields, every cursor
    of the configuration walk, and the cursor plus a 16-bit length, is below
    [2^32]. *)
Lemma viommu_cursor_fits (L : topo_layout) cfg k :
  let offset := ioread16 cfg (topo_config_offset L) in
  let num_items := ioread16 cfg (topo_config_num_items L) in
  Z.of_nat k < num_items →
  0 ≤ item_offset cfg offset k
  ∧ item_offset cfg offset k + 65535 < 4294967296.
Proof.
  intros offset num_items Hk.
  pose proof (read16_range cfg (topo_config_offset L)).
  pose proof (read16_range cfg (topo_config_num_items L)).
  pose proof (item_offset_bound cfg k offset).
  unfold ioread16 in *. subst offset num_items. lia.
Qed.

(** * Further properties of the code *)

(** ** Registry: adding an endpoint and looking a device up *)

Lemma viommu_device_match_bus dev spec :
  viommu_device_match dev spec = true →
  (dev_is_pci dev = true ∧ dev_spec_type spec = VIRT_IOMMU_DEV_TYPE_PCI)
  ∨ (dev_is_platform dev = true ∧ dev_spec_type spec = VIRT_IOMMU_DEV_TYPE_MMIO).
Proof.
  unfold viommu_device_match, dev_is_pci, dev_is_platform.
  destruct spec, (dev_bus_info dev); try done; auto.
Qed.

(** X1.  The entry added last is looked at first: a device that the new entry
    matches resolves to it, with the id computed from it, whatever was
    registered before; for a device it does not match, the lookup is as
    before the addition. *)
Theorem virt_iommu_find_add_endpoint dev ep st :
  virt_iommu_find dev (virt_iommu_add_endpoint_spec ep st)
  = if viommu_device_match dev (ep_devid ep)
    then Some (endpoint_id_for dev ep, ep_viommu ep)
    else virt_iommu_find dev st.
Proof.
  unfold virt_iommu_find, virt_iommu_add_endpoint_spec, endpoint_id_for.
  destruct (viommu_device_match dev (ep_devid ep)) eqn:Em.
  - destruct (viommu_device_match_bus _ _ Em) as [[Hb Ht]|[Hb Ht]].
    + rewrite Ht. simpl.
      unfold dev_is_pci in Hb. destruct (dev_bus_info dev); try done.
      simpl. by rewrite Em.
    + rewrite Ht. simpl.
      unfold dev_is_platform in Hb. destruct (dev_bus_info dev); try done.
      simpl. by rewrite Em.
  - destruct (dev_spec_type (ep_devid ep) =? VIRT_IOMMU_DEV_TYPE_MMIO);
      destruct (dev_bus_info dev); simpl; try done; by rewrite Em.
Qed.

(** ** [virt_set_iommu_ops] *)

Lemma claims_iommu_zero dev : claims_iommu dev zero_viommu = false.
Proof.
  reflexivity.
Qed.

(** The scan either claims no entry of the list and changes nothing, or
    stops at the first entry it claims, which is live, and rewrites that
    one specification. *)
Lemma set_iommu_ops_scan_spec dev ops l st :
  (Forall (λ h, claims_iommu dev (viommu_at st h) = false) l
   ∧ set_iommu_ops_scan dev ops l st = st)
  ∨ (∃ pre h post,
       l = pre ++ h :: post
       ∧ Forall (λ h', claims_iommu dev (viommu_at st h') = false) pre
       ∧ claims_iommu dev (viommu_at st h) = true
       ∧ is_Some (heap st !! h)
       ∧ set_iommu_ops_scan dev ops l st
         = set_heap (<[h := bound_viommu dev ops (viommu_at st h)]> (heap st)) st).
Proof.
  induction l as [|h l IH].
  - left. by split.
  - destruct (claims_iommu dev (viommu_at st h)) eqn:Ec.
    + right. exists [], h, l. split; [done|]. split; [constructor|].
      split; [done|]. split.
      * unfold viommu_at in Ec. destruct (heap st !! h) eqn:Eh; [by eexists|].
        simpl in Ec. by rewrite claims_iommu_zero in Ec.
      * by apply set_iommu_ops_scan_claimed.
    + assert (Hstep : set_iommu_ops_scan dev ops (h :: l) st
                      = set_iommu_ops_scan dev ops l st).
      { apply (set_iommu_ops_scan_unclaimed dev ops [h] l st).
        by constructor. }
      rewrite Hstep.
      destruct IH as [[Hall Hs]|(pre & h' & post & -> & Hpre & Hc & Hlive & Hs)].
      * left. split; [by constructor|done].
      * right. exists (h :: pre), h', post.
        split; [done|]. split; [by constructor|]. done.
Qed.

(** X2.  [virt_set_iommu_ops] leaves the registry lists alone and rewrites at
    most one IOMMU specification: the first entry of [viommus] that is
    bound to the device, or is unbound and has a matching device id.  That
    entry is bound to the device, gets the ops, and gets the device's fwnode
    when the ops are non-null and no fwnode otherwise.  When no entry
    qualifies the state is unchanged. *)
Theorem virt_set_iommu_ops_one_spec dev ops st :
  registry (virt_set_iommu_ops dev ops st) = registry st
  ∧ iommus (virt_set_iommu_ops dev ops st) = iommus st
  ∧ fwspecs (virt_set_iommu_ops dev ops st) = fwspecs st
  ∧ ((Forall (λ h, claims_iommu dev (viommu_at st h) = false) (viommus st)
      ∧ virt_set_iommu_ops dev ops st = st)
     ∨ (∃ pre h post,
          viommus st = pre ++ h :: post
          ∧ Forall (λ h', claims_iommu dev (viommu_at st h') = false) pre
          ∧ claims_iommu dev (viommu_at st h) = true
          ∧ heap (virt_set_iommu_ops dev ops st) !! h
            = Some (bound_viommu dev ops (viommu_at st h))
          ∧ ∀ h', h' ≠ h →
                  heap (virt_set_iommu_ops dev ops st) !! h' = heap st !! h')).
Proof.
  unfold virt_set_iommu_ops.
  destruct (set_iommu_ops_scan_spec dev ops (viommus st) st)
    as [[Hall ->]|(pre & h & post & Hl & Hpre & Hc & Hlive & ->)].
  - split; [done|]. split; [done|]. split; [done|]. by left.
  - split; [done|]. split; [done|]. split; [done|]. right.
    exists pre, h, post. split; [done|]. split; [done|]. split; [done|].
    simpl. split; [by rewrite lookup_insert_eq|].
    intros h' Hne. by rewrite lookup_insert_ne.
Qed.

Lemma viommu_at_insert_ne st h x h' :
  h' ≠ h → viommu_at (set_heap (<[h := x]> (heap st)) st) h' = viommu_at st h'.
Proof. intros Hne. unfold viommu_at. simpl. by rewrite lookup_insert_ne. Qed.

Lemma viommu_at_insert_eq st h x :
  viommu_at (set_heap (<[h := x]> (heap st)) st) h = x.
Proof. unfold viommu_at. simpl. by rewrite lookup_insert_eq. Qed.

(** X3.  Calling [virt_set_iommu_ops] again for the same device overwrites the
    first call: the second call stops at the same specification, so only
    the last ops (and the fwnode that goes with them) remain.  With null
    ops as the second call this is the unregistration path. *)
Theorem virt_set_iommu_ops_last_wins dev ops1 ops2 st :
  virt_set_iommu_ops dev ops2 (virt_set_iommu_ops dev ops1 st)
  = virt_set_iommu_ops dev ops2 st.
Proof.
  unfold virt_set_iommu_ops at 2 3.
  destruct (set_iommu_ops_scan_spec dev ops1 (viommus st) st)
    as [[Hall ->]|(pre & h & post & Hl & Hpre & Hc & Hlive & ->)]; [done|].
  set (st1 := set_heap _ st).
  assert (Hnotin : ∀ h', h' ∈ pre → h' ≠ h).
  { intros h' Hin ->. rewrite Forall_forall in Hpre.
    specialize (Hpre h Hin). congruence. }
  assert (Hpre1 : Forall (λ h', claims_iommu dev (viommu_at st1 h') = false) pre).
  { rewrite Forall_forall in *. intros h' Hin. subst st1.
    rewrite viommu_at_insert_ne by auto. auto. }
  assert (Hc1 : claims_iommu dev (viommu_at st1 h) = true).
  { subst st1. rewrite viommu_at_insert_eq. unfold claims_iommu, bound_viommu. simpl.
    rewrite (bool_decide_eq_true_2 (Some (dev_addr dev) = Some (dev_addr dev))) by done.
    by rewrite ?orb_true_r. }
  rewrite (virt_set_iommu_ops_claimed dev ops2 pre h post st1 Hl Hpre1 Hc1).
  unfold virt_set_iommu_ops.
  rewrite Hl, (set_iommu_ops_scan_unclaimed dev ops2 pre (h :: post) st Hpre).
  rewrite (set_iommu_ops_scan_claimed dev ops2 h post st Hc).
  subst st1. rewrite viommu_at_insert_eq. simpl.
  rewrite insert_insert_eq. by destruct st.
Qed.


(** X4.  When [viommu_parse_topology] changes the registry, what it adds is the
    decoding of the items of the region, in item order, in front of what was
    registered: the PCI ranges in [pci_endpoints], the MMIO regions in
    [mmio_endpoints], all pointing to the one new IOMMU specification, which
    is bound to the transport device and has neither device id nor ops.
    The resolver takes the first match, so among the items of one region the
    earlier item wins. *)
Theorem viommu_parse_topology_publishes_items
    (L : topo_layout) dev cfg max_len st :
  registry (snd (viommu_parse_topology L dev cfg max_len st)) ≠ registry st →
  ∃ h,
    heap st !! h = None
    ∧ viommus (snd (viommu_parse_topology L dev cfg max_len st)) = h :: viommus st
    ∧ viommu_at (snd (viommu_parse_topology L dev cfg max_len st)) h
      = {| vs_devid := DEV_UNSET; vs_dev := Some (dev_addr dev);
           vs_fwnode := None; vs_ops := None |}
    ∧ pci_endpoints (snd (viommu_parse_topology L dev cfg max_len st))
      = List.filter (λ ep, negb (is_mmio_endpoint ep))
          (topology_items L cfg h (ioread16 cfg (topo_config_offset L))
             (Z.to_nat (ioread16 cfg (topo_config_num_items L))))
        ++ pci_endpoints st
    ∧ mmio_endpoints (snd (viommu_parse_topology L dev cfg max_len st))
      = List.filter is_mmio_endpoint
          (topology_items L cfg h (ioread16 cfg (topo_config_offset L))
             (Z.to_nat (ioread16 cfg (topo_config_num_items L))))
        ++ mmio_endpoints st.
Proof.
  intros Hreg.
  destruct (viommu_parse_topology_outcome L dev cfg max_len st)
    as [[_ Hp]|[[_ Heq]|(_ & _ & h & p & Hfresh & Heq)]].
  - destruct Hreg. by apply plan_only_registry.
  - destruct Hreg. by rewrite Heq.
  - exists h. rewrite Heq. simpl. split; [done|]. split; [done|].
    split; [|done]. unfold viommu_at. simpl. by rewrite lookup_insert_eq.
Qed.

Lemma viommu_parse_topology_publishes_items_witness :
  pci_endpoints (snd (viommu_parse_topology spec_topo_layout viommu_pci_dev
                        cfg_three_items 88 empty_state))
  = [{| ep_devid := DEV_PCI 0 16 31; endpoint_id := 100; ep_viommu := Some 0%nat |};
     {| ep_devid := DEV_PCI 0 32 47; endpoint_id := 200; ep_viommu := Some 0%nat |}].
Proof.
  assert (Hreg : registry (snd (viommu_parse_topology spec_topo_layout viommu_pci_dev
                                  cfg_three_items 88 empty_state))
                 ≠ registry empty_state) by (vm_compute; congruence).
  destruct (viommu_parse_topology_publishes_items
              spec_topo_layout viommu_pci_dev cfg_three_items 88 empty_state Hreg)
    as (h & _ & Hv & _ & Hpci & _).
  assert (Hh : h = 0%nat).
  { revert Hv. vm_compute. congruence. }
  subst h. rewrite Hpci. vm_compute. reflexivity.
Defined.

(** The codes of a failing walk. *)
Lemma viommu_walk_error_codes (L : topo_layout) cfg max_len v n :
  ∀ offset eps st e st1,
  viommu_walk L cfg max_len v n offset eps st = (inl e, st1) →
  (e = - EOVERFLOW ∨ e = - EINVAL)
  ∨ (e = - ENOMEM ∧ kzalloc_plan st ≠ []).
Proof.
  induction n as [|n IH]; intros offset eps st e st1; simpl; [done|].
  destruct (max_len <? _); [intros [= <- _]; auto|].
  destruct (max_len <? _); [intros [= <- _]; auto|].
  assert (Hplan : ∀ st2, kzalloc_plan (snd (kzalloc st)) = kzalloc_plan st2 →
                         kzalloc_plan st2 ≠ [] → kzalloc_plan st ≠ []).
  { intros st2 Heq Hne Hnil. rewrite (kzalloc_no_plan _ Hnil) in Heq. simpl in Heq.
    congruence. }
  unfold viommu_parse_node, kzalloc_endpoint.
  destruct (kzalloc st) as [ok k] eqn:Ek. simpl in Hplan.
  destruct ok; simpl.
  2:{ intros [= <- _]. right. split; [done|]. intros Hnil.
      rewrite (kzalloc_no_plan _ Hnil) in Ek. done. }
  assert (Hrec : ∀ off eps',
    viommu_walk L cfg max_len v n off eps'
      (set_endpoint_objs (endpoint_objs k + 1) k) = (inl e, st1) →
    (e = - EOVERFLOW ∨ e = - EINVAL) ∨ (e = - ENOMEM ∧ kzalloc_plan st ≠ [])).
  { intros off eps' Hw. destruct (IH _ _ _ _ _ Hw) as [?|[? Hne]]; [auto|].
    right. split; [done|]. by apply (Hplan k). }
  destruct (ioread8 cfg offset =? VIRTIO_IOMMU_TOPO_PCI_RANGE L).
  { destruct (_ <? sizeof_topo_pci_range L); [intros [= <- _]; auto|apply Hrec]. }
  destruct (ioread8 cfg offset =? VIRTIO_IOMMU_TOPO_MMIO L).
  { destruct (_ <? sizeof_topo_mmio L); [intros [= <- _]; auto|apply Hrec]. }
  intros [= <- _]; auto.
Qed.

(** X5.  The status of [viommu_parse_topology] is 0, [-ENOMEM], [-EOVERFLOW] or
    [-EINVAL], and [-ENOMEM] needs an allocation to fail. *)
Theorem viommu_parse_topology_status (L : topo_layout) dev cfg max_len st :
  (fst (viommu_parse_topology L dev cfg max_len st) = 0
   ∨ fst (viommu_parse_topology L dev cfg max_len st) = - ENOMEM
   ∨ fst (viommu_parse_topology L dev cfg max_len st) = - EOVERFLOW
   ∨ fst (viommu_parse_topology L dev cfg max_len st) = - EINVAL)
  ∧ (kzalloc_plan st = [] →
     fst (viommu_parse_topology L dev cfg max_len st) ≠ - ENOMEM).
Proof.
  unfold viommu_parse_topology.
  destruct (_ || _); [split; [auto|done]|].
  unfold kzalloc_viommu.
  destruct (kzalloc st) as [ok k] eqn:Ek. destruct ok.
  2:{ split; [auto|]. intros Hnil. rewrite (kzalloc_no_plan _ Hnil) in Ek. done. }
  set (h := fresh _). set (st2 := set_heap _ (set_heap _ k)).
  destruct (viommu_walk L cfg max_len h _ _ [] st2) as [[e|eps] st3] eqn:Ew; simpl.
  2:{ split; [auto|done]. }
  destruct (viommu_walk_error_codes L _ _ _ _ _ _ _ _ _ Ew) as [[->| ->]|[-> Hne]].
  - split; [auto|done].
  - split; [auto|done].
  - split; [auto|]. intros Hnil. destruct Hne. subst st2. simpl.
    rewrite (kzalloc_no_plan _ Hnil) in Ek. by injection Ek as <-.
Qed.

Lemma viommu_parse_topology_status_witness :
  fst (viommu_parse_topology spec_topo_layout viommu_pci_dev cfg_three_items 88
         (set_plan [true; true; false] empty_state)) = - ENOMEM
  ∧ fst (viommu_parse_topology spec_topo_layout viommu_pci_dev cfg_three_items 88
           empty_state) ≠ - ENOMEM.
Proof.
  split; [vm_compute; reflexivity|].
  exact (proj2 (viommu_parse_topology_status spec_topo_layout viommu_pci_dev
                  cfg_three_items 88 empty_state) eq_refl).
Defined.

(** X6.  After [viommu_parse_topology] has published a topology for a transport
    device, [virt_set_iommu_ops] for that device reaches the specification
    just published (it is at the head of [viommus] and bound to the device),
    and the transport device itself, should it lie in one of its own
    endpoint ranges, is answered "no match". *)
Theorem viommu_parse_topology_then_set_ops
    (L : topo_layout) dev cfg max_len st ops :
  registry (snd (viommu_parse_topology L dev cfg max_len st)) ≠ registry st →
  ∃ h,
    viommus (snd (viommu_parse_topology L dev cfg max_len st)) = h :: viommus st
    ∧ virt_set_iommu_ops dev ops (snd (viommu_parse_topology L dev cfg max_len st))
      = set_heap
          (<[h := {| vs_devid := DEV_UNSET; vs_dev := Some (dev_addr dev);
                     vs_fwnode := match ops with
                                  | Some _ => dev_fwnode dev
                                  | None => None
                                  end;
                     vs_ops := ops |}]>
             (heap (snd (viommu_parse_topology L dev cfg max_len st))))
          (snd (viommu_parse_topology L dev cfg max_len st))
    ∧ ∀ init add epid,
        virt_iommu_find dev (snd (viommu_parse_topology L dev cfg max_len st))
        = Some (epid, Some h) →
        virt_iommu_setup init add dev (snd (viommu_parse_topology L dev cfg max_len st))
        = (Null, snd (viommu_parse_topology L dev cfg max_len st)).
Proof.
  intros Hreg.
  destruct (viommu_parse_topology_outcome L dev cfg max_len st)
    as [[_ Hp]|[[_ Heq]|(_ & _ & h & p & Hfresh & Heq)]].
  - destruct Hreg. by apply plan_only_registry.
  - destruct Hreg. by rewrite Heq.
  - exists h. rewrite Heq. simpl. set (st1 := mk_state _ _ _ _ _ _ _ _ _).
    assert (Hat : viommu_at st1 h
                  = {| vs_devid := DEV_UNSET; vs_dev := Some (dev_addr dev);
                       vs_fwnode := None; vs_ops := None |}).
    { unfold viommu_at. subst st1. simpl. by rewrite lookup_insert_eq. }
    assert (Hclaim : claims_iommu dev (viommu_at st1 h) = true).
    { rewrite Hat. unfold claims_iommu. simpl.
      rewrite (bool_decide_eq_true_2 (Some (dev_addr dev) = Some (dev_addr dev))) by done.
      by rewrite ?orb_true_r. }
    split; [done|]. split.
    + rewrite (virt_set_iommu_ops_claimed dev ops [] h (viommus st) st1);
        [by rewrite Hat|done|constructor|done].
    + intros init add epid Hf. unfold virt_iommu_setup.
      destruct (already_translated dev st1); [done|].
      rewrite Hf, Hat. unfold is_own_iommu. simpl.
      rewrite (bool_decide_eq_true_2 (Some (dev_addr dev) = Some (dev_addr dev))) by done.
      by rewrite ?orb_true_r.
Qed.

Lemma viommu_parse_topology_then_set_ops_witness :
  vs_ops (viommu_at
            (virt_set_iommu_ops viommu_pci_dev (Some 555)
               (snd (viommu_parse_topology spec_topo_layout viommu_pci_dev
                       cfg_three_items 88 empty_state))) 0%nat) = Some 555.
Proof.
  assert (Hreg : registry (snd (viommu_parse_topology spec_topo_layout viommu_pci_dev
                                  cfg_three_items 88 empty_state))
                 ≠ registry empty_state) by (vm_compute; congruence).
  destruct (viommu_parse_topology_then_set_ops
              spec_topo_layout viommu_pci_dev cfg_three_items 88 empty_state
              (Some 555) Hreg) as (h & Hv & Hset & _).
  assert (Hh : h = 0%nat) by (revert Hv; vm_compute; congruence).
  subst h. rewrite Hset. rewrite viommu_at_insert_eq. reflexivity.
Defined.

(** ** The registry stays well formed *)

Lemma endpoint_ok_mono st st' m ep :
  registry_extends st st' → endpoint_ok st m ep → endpoint_ok st' m ep.
Proof.
  intros ([l Hl] & _ & _ & Hheap) [Hty (h & Hv & Hin & Hlive)].
  split; [done|]. exists h. split; [done|]. split.
  - rewrite Hl. apply elem_of_app. by right.
  - destruct Hlive as [x Hx]. exists x. by eapply lookup_weaken.
Qed.

Lemma registry_wf_same_lists st st' :
  registry_extends st st' →
  pci_endpoints st' = pci_endpoints st →
  mmio_endpoints st' = mmio_endpoints st →
  registry_wf st → registry_wf st'.
Proof.
  intros Hext Hp Hm [H1 H2]. unfold registry_wf. rewrite Hp, Hm.
  split; (eapply Forall_impl; [eassumption|]); intros ep Hep;
    by eapply endpoint_ok_mono.
Qed.

Lemma alloc_only_wf st st' : alloc_only st st' → topology_wf st → topology_wf st'.
Proof. by intros ->. Qed.

Lemma plan_only_wf st st' : plan_only st st' → topology_wf st → topology_wf st'.
Proof. intros H. by apply alloc_only_wf, plan_only_alloc_only. Qed.

Lemma add_endpoint_wf ep st :
  registry_wf st →
  endpoint_ok st (is_mmio_endpoint ep) ep →
  registry_wf (virt_iommu_add_endpoint_spec ep st).
Proof.
  intros [H1 H2] Hep.
  assert (Hext := add_endpoint_extends ep st).
  unfold registry_wf, virt_iommu_add_endpoint_spec, is_mmio_endpoint in *.
  destruct (dev_spec_type (ep_devid ep) =? VIRT_IOMMU_DEV_TYPE_MMIO); simpl.
  - split; [done|]. by constructor.
  - split; [|done]. by constructor.
Qed.

Section ViotWf.

Variable L : viot_layout.
Variable viot : acpi_table_viot.

Lemma viot_get_iommu_wf offset st :
  topology_wf st → topology_wf (snd (viot_get_iommu L viot offset st)).
Proof.
  intros [Hinv Hwf]. split; [by apply viot_get_iommu_inv|].
  destruct (viot_get_iommu_endpoints L viot offset st) as [Hp Hm].
  eapply registry_wf_same_lists; [apply viot_get_iommu_extends|done|done|done].
Qed.

(** The specification [viot_get_iommu] returns is live and registered. *)
Lemma viot_get_iommu_live offset st h :
  viot_inv st →
  fst (viot_get_iommu L viot offset st) = Some h →
  h ∈ viommus (snd (viot_get_iommu L viot offset st))
  ∧ is_Some (heap (snd (viot_get_iommu L viot offset st)) !! h).
Proof.
  intros Hinv Hh.
  pose proof (viot_get_iommu_inv L viot offset st Hinv) as (_ & _ & Hlive & Hreg).
  pose proof (viot_find_iommu_elem _ _ _ (viot_get_iommu_recorded L viot offset st h Hh))
    as Hin.
  apply Hreg in Hin. simpl in Hin. auto.
Qed.

(** [viot_parse_node] either changes the allocation plan only, or
    publishes one endpoint, a PCI range or an MMIO region, that points to
    the specification [viot_get_iommu] returned. *)
Lemma viot_parse_node_typed node st :
  plan_only st (snd (viot_parse_node L viot node st))
  ∨ ∃ k off h d e,
      alloc_only st k
      ∧ fst (viot_get_iommu L viot off k) = Some h
      ∧ ((∃ s b e', d = DEV_PCI s b e') ∨ (∃ b, d = DEV_MMIO b))
      ∧ snd (viot_parse_node L viot node st)
        = virt_iommu_add_endpoint_spec
            {| ep_devid := d; endpoint_id := e; ep_viommu := Some h |}
            (snd (viot_get_iommu L viot off k)).
Proof.
  unfold viot_parse_node.
  destruct (viot_check_bounds viot node =? 0); simpl; [|left; apply plan_only_refl].
  pose proof (kzalloc_plan_only st) as Hk0.
  destruct (kzalloc_endpoint_cases st) as [->| ->]; simpl; [by left|].
  set (k0 := snd (kzalloc st)) in *.
  set (k := set_endpoint_objs _ k0).
  assert (Hfree : kfree_endpoint k = k0) by apply kfree_alloc_endpoint.
  assert (Hk : alloc_only st k).
  { subst k. rewrite Hk0. unfold alloc_only. simpl. by destruct st. }
  assert (Hfin : ∀ off d e,
    (∃ s b e', d = DEV_PCI s b e') ∨ (∃ b, d = DEV_MMIO b) →
    plan_only st
      (snd (viot_finish_node
              {| ep_devid := d; endpoint_id := e;
                 ep_viommu := fst (viot_get_iommu L viot off k) |}
              (snd (viot_get_iommu L viot off k))))
    ∨ ∃ k' off' h d' e',
        alloc_only st k'
        ∧ fst (viot_get_iommu L viot off' k') = Some h
        ∧ ((∃ s b e'', d' = DEV_PCI s b e'') ∨ (∃ b, d' = DEV_MMIO b))
        ∧ snd (viot_finish_node
                 {| ep_devid := d; endpoint_id := e;
                    ep_viommu := fst (viot_get_iommu L viot off k) |}
                 (snd (viot_get_iommu L viot off k)))
          = virt_iommu_add_endpoint_spec
              {| ep_devid := d'; endpoint_id := e'; ep_viommu := Some h |}
              (snd (viot_get_iommu L viot off' k'))).
  { intros off d e Hd. unfold viot_finish_node. simpl.
    destruct (fst (viot_get_iommu L viot off k)) as [h|] eqn:Eg.
    - right. exists k, off, h, d, e. by rewrite Eg.
    - left. destruct (viot_get_iommu_cases L viot off k)
        as [(h & _ & Hr)|[(_ & k' & Hk' & Hr)|(_ & _ & h & d' & p & _ & Hr)]];
        rewrite Hr in *; simpl in *; try done.
      apply kfree_endpoint_plan_only in Hk'. rewrite Hfree in Hk'.
      by eapply plan_only_trans. }
  destruct (node_type viot node =? ACPI_VIOT_NODE_PCI_RANGE L).
  { destruct (node_length viot node <? sizeof_viot_pci_range L).
    { left. by rewrite Hfree. }
    destruct (viot_get_iommu L viot _ k) as [v st2] eqn:Eg.
    specialize (Hfin (read16 (viot_bytes viot) (node + viot_pci_output_node L))).
    rewrite Eg in Hfin. simpl in Hfin. apply Hfin. left. by do 3 eexists. }
  destruct (node_type viot node =? ACPI_VIOT_NODE_MMIO L).
  { destruct (node_length viot node <? sizeof_viot_mmio L).
    { left. by rewrite Hfree. }
    destruct (viot_get_iommu L viot _ k) as [v st2] eqn:Eg.
    specialize (Hfin (read16 (viot_bytes viot) (node + viot_mmio_output_node L))).
    rewrite Eg in Hfin. simpl in Hfin. apply Hfin. right. by eexists. }
  left. simpl. by rewrite Hfree.
Qed.

Lemma viot_parse_node_wf node st :
  topology_wf st → topology_wf (snd (viot_parse_node L viot node st)).
Proof.
  intros Hwf.
  destruct (viot_parse_node_typed node st)
    as [Hp|(k & off & h & d & e & Hk & Hg & Hd & ->)].
  - by eapply plan_only_wf.
  - pose proof (alloc_only_wf _ _ Hk Hwf) as Hwfk.
    pose proof (viot_get_iommu_wf off k Hwfk) as [Hinv2 Hwf2].
    destruct (viot_get_iommu_live off k h (proj1 Hwfk) Hg) as [Hin Hlive].
    split; [by apply add_endpoint_inv|].
    apply add_endpoint_wf; [done|].
    split.
    + unfold is_mmio_endpoint. simpl.
      destruct Hd as [(s & b & e' & ->)|(b & ->)]; simpl; by repeat eexists.
    + by exists h.
Qed.

Lemma viot_walk_wf n : ∀ node st,
  topology_wf st → topology_wf (viot_walk L viot n node st).
Proof.
  induction n as [|n IH]; intros node st Hwf; [done|].
  rewrite viot_walk_step.
  destruct (negb _); [by apply viot_parse_node_wf|].
  by apply IH, viot_parse_node_wf.
Qed.

End ViotWf.

Lemma item_endpoint_typed (L : topo_layout) cfg h offset :
  ep_viommu (item_endpoint L cfg h offset) = Some h
  ∧ if is_mmio_endpoint (item_endpoint L cfg h offset)
    then ∃ b, ep_devid (item_endpoint L cfg h offset) = DEV_MMIO b
    else ∃ s b e, ep_devid (item_endpoint L cfg h offset) = DEV_PCI s b e.
Proof.
  unfold item_endpoint, is_mmio_endpoint.
  destruct (read8 cfg offset =? VIRTIO_IOMMU_TOPO_PCI_RANGE L); simpl;
    split; try done; by repeat eexists.
Qed.

Lemma viommu_parse_topology_wf (L : topo_layout) dev cfg max_len st :
  topology_wf st → topology_wf (snd (viommu_parse_topology L dev cfg max_len st)).
Proof.
  intros Hwf.
  destruct (viommu_parse_topology_outcome L dev cfg max_len st)
    as [[_ Hp]|[[_ Heq]|(_ & _ & h & p & Hfresh & Heq)]].
  - by eapply plan_only_wf.
  - by rewrite Heq.
  - rewrite Heq. simpl.
    destruct Hwf as [(Hoff & Hnd & Hlive & Hreg) [Hpci Hmmio]].
    assert (Hnew : h ∉ viommus st).
    { intros Hin. apply Hlive in Hin as [x Hx]. congruence. }
    set (st' := mk_state _ _ _ _ _ _ _ _ _).
    assert (Hext : registry_extends st st').
    { split; [by exists [h]|]. split; [by eexists|]. split; [by eexists|].
      by apply insert_subseteq. }
    assert (Hitem : ∀ m ep,
      ep ∈ List.filter (λ ep, Bool.eqb (is_mmio_endpoint ep) m)
             (topology_items L cfg h (ioread16 cfg (topo_config_offset L))
                (Z.to_nat (ioread16 cfg (topo_config_num_items L)))) →
      endpoint_ok st' m ep).
    { intros m ep Hin. apply list_elem_of_In, filter_In in Hin as [Hin Hm].
      apply Bool.eqb_prop in Hm.
      unfold topology_items in Hin. apply in_map_iff in Hin as (k & <- & _).
      destruct (item_endpoint_typed L cfg h
                  (item_offset cfg (ioread16 cfg (topo_config_offset L)) k))
        as [Hv Hty].
      rewrite Hm in Hty. split; [done|]. exists h. split; [done|].
      subst st'. simpl. split; [by left|]. rewrite lookup_insert_eq. by eexists. }
    split.
    + unfold viot_inv. subst st'. simpl. split; [done|]. split; [by constructor|].
      split.
      * intros h' Hin. destruct (decide (h' = h)) as [->|Hne].
        -- rewrite lookup_insert_eq. by eexists.
        -- rewrite lookup_insert_ne by done. apply Hlive.
           by apply elem_of_cons in Hin as [?|?].
      * intros e He. right. by apply Hreg.
    + split; simpl; apply Forall_app; split.
      * apply Forall_forall. intros ep Hin. apply (Hitem false).
        erewrite List.filter_ext; [exact Hin|].
        intros a. simpl. by destruct (is_mmio_endpoint a).
      * eapply Forall_impl; [exact Hpci|]. intros ep Hep.
        by eapply endpoint_ok_mono.
      * apply Forall_forall. intros ep Hin. apply (Hitem true).
        erewrite List.filter_ext; [exact Hin|].
        intros a. simpl. by destruct (is_mmio_endpoint a).
      * eapply Forall_impl; [exact Hmmio|]. intros ep Hep.
        by eapply endpoint_ok_mono.
Qed.

Lemma virt_set_iommu_ops_wf dev ops st :
  topology_wf st → topology_wf (virt_set_iommu_ops dev ops st).
Proof.
  intros Hwf. unfold virt_set_iommu_ops.
  destruct (set_iommu_ops_scan_spec dev ops (viommus st) st)
    as [[_ ->]|(pre & h & post & _ & _ & _ & Hlive & ->)]; [done|].
  set (st' := set_heap _ st).
  assert (Hl : ∀ h', is_Some (heap st !! h') → is_Some (heap st' !! h')).
  { intros h' Hs. subst st'. simpl. destruct (decide (h' = h)) as [->|Hne].
    - rewrite lookup_insert_eq. by eexists.
    - by rewrite lookup_insert_ne. }
  destruct Hwf as [(Hoff & Hnd & Hlv & Hreg) [Hpci Hmmio]].
  split.
  - unfold viot_inv. subst st'. simpl. split; [done|]. split; [done|].
    split; [|done]. intros h' Hin. apply Hl. by apply Hlv.
  - split; simpl; (eapply Forall_impl; [eassumption|]);
      intros ep [Hty (h' & Hv & Hin & Hs)]; (split; [done|]);
      exists h'; auto.
Qed.

Lemma virt_iommu_setup_frame init add dev st :
  heap (snd (virt_iommu_setup init add dev st)) = heap st
  ∧ registry (snd (virt_iommu_setup init add dev st)) = registry st
  ∧ iommus (snd (virt_iommu_setup init add dev st)) = iommus st
  ∧ kzalloc_plan (snd (virt_iommu_setup init add dev st)) = kzalloc_plan st.
Proof.
  unfold virt_iommu_setup.
  destruct (already_translated dev st); [done|].
  destruct (virt_iommu_find dev st) as [[epid [h|]]|]; [|done|done].
  destruct (is_own_iommu dev (viommu_at st h)); [done|].
  destruct (vs_ops (viommu_at st h)) as [o|].
  - destruct (init dev _ o _) as [ret fw].
    destruct (negb (ret =? 0)); simpl; by destruct (dev_is_pci dev).
  - simpl. by destruct (dev_is_pci dev).
Qed.

Lemma virt_iommu_setup_wf init add dev st :
  topology_wf st → topology_wf (snd (virt_iommu_setup init add dev st)).
Proof.
  destruct (virt_iommu_setup_frame init add dev st) as (Hh & Hr & Hi & _).
  unfold registry in Hr. injection Hr as Hv Hp Hm.
  unfold topology_wf, viot_inv, registry_wf, endpoint_ok.
  by rewrite Hh, Hv, Hp, Hm, Hi.
Qed.

(** ** Locating the topology of a PCI device *)

Lemma read32_range m a : 0 ≤ read32 m a < 4294967296.
Proof.
  unfold read32.
  pose proof (read16_range m a). pose proof (read16_range m (a + 2)). lia.
Qed.

Lemma viommu_pci_find_capability_from_spec (P : virtio_pci_layout)
    config cfg_type cap caps :
  (fst (viommu_pci_find_capability_from P config cfg_type cap caps) = 0
   ∧ snd (viommu_pci_find_capability_from P config cfg_type cap caps) = cap
   ∧ ∀ pre p post,
       caps = pre ++ p :: post → Forall (λ q, 0 < q) pre → 0 < p →
       cap_qualifies P config cfg_type p = false)
  ∨ (∃ pre pos post,
       caps = pre ++ pos :: post
       ∧ Forall (λ q, 0 < q ∧ cap_qualifies P config cfg_type q = false) pre
       ∧ 0 < pos
       ∧ cap_qualifies P config cfg_type pos = true
       ∧ viommu_pci_find_capability_from P config cfg_type cap caps
         = (pos, cap_at P config pos)).
Proof.
  induction caps as [|pos caps IH]; simpl.
  - left. split; [done|]. split; [done|]. intros [|] ? ? ?; done.
  - destruct (pos <=? 0) eqn:Epos.
    { apply Z.leb_le in Epos. left. split; [done|]. split; [done|].
      intros [|q pre] p post Heq Hpre Hp; injection Heq as <- ->; [lia|].
      inversion Hpre; subst. lia. }
    apply Z.leb_gt in Epos.
    assert (Hskip : cap_qualifies P config cfg_type pos = false →
      (fst (viommu_pci_find_capability_from P config cfg_type cap caps) = 0
       ∧ snd (viommu_pci_find_capability_from P config cfg_type cap caps) = cap
       ∧ ∀ pre p post,
           pos :: caps = pre ++ p :: post → Forall (λ q, 0 < q) pre → 0 < p →
           cap_qualifies P config cfg_type p = false)
      ∨ (∃ pre pos' post,
           pos :: caps = pre ++ pos' :: post
           ∧ Forall (λ q, 0 < q ∧ cap_qualifies P config cfg_type q = false) pre
           ∧ 0 < pos'
           ∧ cap_qualifies P config cfg_type pos' = true
           ∧ viommu_pci_find_capability_from P config cfg_type cap caps
             = (pos', cap_at P config pos'))).
    { intros Hq.
      destruct IH as [(H0 & Hc & Hnone)|(pre & pos' & post & -> & Hpre & Hp & Hq' & Hr)].
      - left. split; [done|]. split; [done|].
        intros [|q pre] p post Heq Hpre Hp; injection Heq as <- ->; [done|].
        inversion Hpre; subst. by eapply Hnone.
      - right. exists (pos :: pre), pos', post.
        split; [done|]. split; [by constructor|]. done. }
    unfold cap_qualifies in Hskip.
    destruct (read8 config (pos + vpci_cfg_type P) =? cfg_type) eqn:Et; simpl in *.
    2:{ by apply Hskip. }
    destruct (negb (read8 config (pos + vpci_cfg_type P) =? VIRTIO_PCI_CAP_PCI_CFG P)
              && (5 <? read8 config (pos + vpci_bar P))) eqn:Eb; simpl in *.
    { by apply Hskip. }
    right. exists [], pos, caps. split; [done|]. split; [constructor|].
    split; [done|]. split; [|done].
    unfold cap_qualifies. by rewrite Et, Eb.
Qed.

(** X7.  [viommu_pci_find_capability] returns 0 and leaves [*cap] alone when no
    vendor capability that the iteration reaches qualifies; otherwise it
    returns the position of the first capability that qualifies, a positive
    position of the device's list, and fills [*cap] from it: a BAR that is
    at most 5 unless the type looked for is [VIRTIO_PCI_CAP_PCI_CFG], and a
    32-bit offset and length. *)
Theorem viommu_pci_find_capability_spec (P : virtio_pci_layout) dev cfg_type cap :
  (fst (viommu_pci_find_capability P dev cfg_type cap) = 0
   ∧ snd (viommu_pci_find_capability P dev cfg_type cap) = cap
   ∧ ∀ pre p post,
       pd_vndr_caps dev = pre ++ p :: post → Forall (λ q, 0 < q) pre → 0 < p →
       cap_qualifies P (pd_config dev) cfg_type p = false)
  ∨ (∃ pre pos post,
       pd_vndr_caps dev = pre ++ pos :: post
       ∧ Forall (λ q, 0 < q ∧ cap_qualifies P (pd_config dev) cfg_type q = false) pre
       ∧ 0 < pos
       ∧ cap_qualifies P (pd_config dev) cfg_type pos = true
       ∧ viommu_pci_find_capability P dev cfg_type cap
         = (pos, cap_at P (pd_config dev) pos)
       ∧ (cfg_type ≠ VIRTIO_PCI_CAP_PCI_CFG P →
          0 ≤ cap_bar (cap_at P (pd_config dev) pos) ≤ 5)
       ∧ 0 ≤ cap_offset (cap_at P (pd_config dev) pos) < 4294967296
       ∧ 0 ≤ cap_length (cap_at P (pd_config dev) pos) < 4294967296).
Proof.
  unfold viommu_pci_find_capability.
  destruct (viommu_pci_find_capability_from_spec P (pd_config dev) cfg_type cap
              (pd_vndr_caps dev))
    as [H0|(pre & pos & post & Hl & Hpre & Hp & Hq & Hr)]; [by left|].
  right. exists pre, pos, post.
  split; [done|]. split; [done|]. split; [done|]. split; [done|]. split; [done|].
  split; [|split; apply read32_range].
  intros Hne. simpl. unfold cap_qualifies in Hq.
  apply andb_true_iff in Hq as [Ht Hb]. apply Z.eqb_eq in Ht.
  rewrite Ht in Hb. apply Z.eqb_neq in Hne. rewrite Hne in Hb. simpl in Hb.
  apply negb_true_iff, Z.ltb_ge in Hb.
  pose proof (read8_range (pd_config dev) (pos + vpci_bar P)). lia.
Qed.

(** [viommu_pci_parse_topology] either leaves the state as it was or is a
    call of [viommu_parse_topology] for the embedded device. *)
Lemma viommu_pci_parse_topology_cases (P : virtio_pci_layout) (L : topo_layout)
    dev st :
  viommu_pci_parse_topology P L dev st = st
  ∨ ∃ c1 regs c2 regs2,
      0 < fst (viommu_pci_find_capability P dev (VIRTIO_PCI_CAP_COMMON_CFG P)
                 {| cap_bar := 0; cap_length := 0; cap_offset := 0 |})
      ∧ c1 = snd (viommu_pci_find_capability P dev (VIRTIO_PCI_CAP_COMMON_CFG P)
                    {| cap_bar := 0; cap_length := 0; cap_offset := 0 |})
      ∧ pd_enable_device_mem dev = 0
      ∧ pd_iomap dev (cap_bar c1) = Some regs
      ∧ Z.testbit (read32 regs (cap_offset c1 + common_cfg_device_feature P))
          (VIRTIO_IOMMU_F_TOPOLOGY P) = true
      ∧ 0 < fst (viommu_pci_find_capability P dev (VIRTIO_PCI_CAP_DEVICE_CFG P) c1)
      ∧ c2 = snd (viommu_pci_find_capability P dev (VIRTIO_PCI_CAP_DEVICE_CFG P) c1)
      ∧ pd_iomap dev (cap_bar c2) = Some regs2
      ∧ viommu_pci_parse_topology P L dev st
        = snd (viommu_parse_topology L (pd_dev dev)
                 (λ a, regs2 (cap_offset c2 + a))
                 (wrap64 (pd_resource_len0 dev - cap_offset c2)) st).
Proof.
  unfold viommu_pci_parse_topology.
  set (cap0 := mk_cap 0 0 0).
  assert (Hpos : ∀ t c, fst (viommu_pci_find_capability P dev t c) ≠ 0 →
                        0 < fst (viommu_pci_find_capability P dev t c)).
  { intros t c Hne.
    destruct (viommu_pci_find_capability_from_spec P (pd_config dev) t c (pd_vndr_caps dev))
      as [(H0 & _)|(pre & pos & post & _ & _ & Hp & _ & Hr)].
    - done.
    - unfold viommu_pci_find_capability. by rewrite Hr. }
  pose proof (Hpos (VIRTIO_PCI_CAP_COMMON_CFG P) cap0) as Hp1.
  destruct (viommu_pci_find_capability P dev (VIRTIO_PCI_CAP_COMMON_CFG P) cap0)
    as [ret c1]. simpl in Hp1.
  destruct (ret =? 0) eqn:Er; [by left|]. apply Z.eqb_neq in Er.
  destruct (pd_enable_device_mem dev =? 0) eqn:Ee; simpl; [|by left].
  apply Z.eqb_eq in Ee.
  destruct (pd_iomap dev (cap_bar c1)) as [regs|] eqn:Em; [|by left].
  destruct (Z.testbit _ _) eqn:Ef; simpl; [|by left].
  pose proof (Hpos (VIRTIO_PCI_CAP_DEVICE_CFG P) c1) as Hp2.
  destruct (viommu_pci_find_capability P dev (VIRTIO_PCI_CAP_DEVICE_CFG P) c1)
    as [ret2 c2] eqn:E2. simpl in Hp2.
  destruct (ret2 =? 0) eqn:Er2; [by left|]. apply Z.eqb_neq in Er2.
  destruct (pd_iomap dev (cap_bar c2)) as [regs2|] eqn:Em2; [|by left].
  right. exists c1, regs, c2, regs2. rewrite E2. simpl.
  repeat (split; [by auto|]). done.
Qed.

(** X8.  [viommu_pci_parse_topology] changes the registry only when the device
    has a usable common configuration capability, could be enabled and
    mapped, offers the topology feature bit, and has a usable device
    configuration capability; what it then publishes is one IOMMU
    specification, new and bound to the embedded device, with the endpoints
    of the region in front of the lists.  In every other case, and whenever
    the parse fails, registry and heap are as they were. *)
Theorem viommu_pci_parse_topology_effect (P : virtio_pci_layout) (L : topo_layout)
    dev st :
  (registry (viommu_pci_parse_topology P L dev st) = registry st
   ∧ heap (viommu_pci_parse_topology P L dev st) = heap st)
  ∨ (∃ c1 regs c2 regs2 h,
       0 < fst (viommu_pci_find_capability P dev (VIRTIO_PCI_CAP_COMMON_CFG P)
                  {| cap_bar := 0; cap_length := 0; cap_offset := 0 |})
       ∧ c1 = snd (viommu_pci_find_capability P dev (VIRTIO_PCI_CAP_COMMON_CFG P)
                     {| cap_bar := 0; cap_length := 0; cap_offset := 0 |})
       ∧ pd_enable_device_mem dev = 0
       ∧ pd_iomap dev (cap_bar c1) = Some regs
       ∧ Z.testbit (read32 regs (cap_offset c1 + common_cfg_device_feature P))
           (VIRTIO_IOMMU_F_TOPOLOGY P) = true
       ∧ 0 < fst (viommu_pci_find_capability P dev (VIRTIO_PCI_CAP_DEVICE_CFG P) c1)
       ∧ c2 = snd (viommu_pci_find_capability P dev (VIRTIO_PCI_CAP_DEVICE_CFG P) c1)
       ∧ pd_iomap dev (cap_bar c2) = Some regs2
       ∧ heap st !! h = None
       ∧ viommus (viommu_pci_parse_topology P L dev st) = h :: viommus st
       ∧ viommu_at (viommu_pci_parse_topology P L dev st) h
         = {| vs_devid := DEV_UNSET; vs_dev := Some (dev_addr (pd_dev dev));
              vs_fwnode := None; vs_ops := None |}
       ∧ (∃ l, pci_endpoints (viommu_pci_parse_topology P L dev st)
               = l ++ pci_endpoints st
               ∧ Forall (λ ep, ep_viommu ep = Some h) l)
       ∧ (∃ l, mmio_endpoints (viommu_pci_parse_topology P L dev st)
               = l ++ mmio_endpoints st
               ∧ Forall (λ ep, ep_viommu ep = Some h) l)).
Proof.
  destruct (viommu_pci_parse_topology_cases P L dev st)
    as [->|(c1 & regs & c2 & regs2 & H1 & H2 & H3 & H4 & H5 & H6 & H7 & H8 & ->)];
    [by left|].
  set (cfg := λ a, regs2 (cap_offset c2 + a)).
  set (max_len := wrap64 _).
  destruct (viommu_parse_topology_outcome L (pd_dev dev) cfg max_len st)
    as [[_ Hp]|[[_ Heq]|(_ & _ & h & p & Hfresh & Heq)]].
  - left. split; [by apply plan_only_registry|by apply plan_only_heap].
  - left. by rewrite Heq.
  - right. exists c1, regs, c2, regs2, h. rewrite Heq. simpl.
    assert (Hall : ∀ f, Forall (λ ep, ep_viommu ep = Some h)
                          (List.filter f
                             (topology_items L cfg h (ioread16 cfg (topo_config_offset L))
                                (Z.to_nat (ioread16 cfg (topo_config_num_items L)))))).
    { intros f. apply Forall_forall. intros ep Hin.
      apply list_elem_of_In, filter_In in Hin as [Hin _].
      unfold topology_items in Hin. apply in_map_iff in Hin as (k & <- & _).
      apply item_endpoint_typed. }
    repeat (split; [done|]).
    split; [unfold viommu_at; simpl; by rewrite lookup_insert_eq|].
    split; eexists; (split; [reflexivity|apply Hall]).
Qed.

Lemma topology_wf_empty : topology_wf empty_state.
Proof. split; [apply viot_inv_empty|]. split; constructor. Qed.

Lemma viot_parse_nodes_wf (LV : viot_layout) viot st :
  topology_wf st → topology_wf (viot_parse_nodes LV viot st).
Proof.
  intros Hwf. unfold viot_parse_nodes. destruct (_ <? _); [done|].
  by apply viot_walk_wf.
Qed.

(** X9.  Discovery keeps the store well formed: after [viot_parse_nodes] (and
    [acpi_viot_init]), [viommu_parse_topology] or
    [viommu_pci_parse_topology], whether they succeed or stop on an error,
    no offset is recorded twice, [viommus] has no duplicate and only live
    specifications, the PCI list holds PCI ranges only and the MMIO list MMIO
    regions only, and every endpoint points to a live specification that is
    in [viommus]. *)
Theorem topology_wf_discovery
    (LV : viot_layout) (LT : topo_layout) (P : virtio_pci_layout) st :
  topology_wf st →
  (∀ viot, topology_wf (viot_parse_nodes LV viot st))
  ∧ (∀ table, topology_wf (acpi_viot_init LV table st))
  ∧ (∀ dev cfg max_len, topology_wf (snd (viommu_parse_topology LT dev cfg max_len st)))
  ∧ (∀ pdev, topology_wf (viommu_pci_parse_topology P LT pdev st)).
Proof.
  intros Hwf.
  assert (Hviot : ∀ viot, topology_wf (viot_parse_nodes LV viot st)).
  { intros viot. by apply viot_parse_nodes_wf. }
  split; [done|]. split.
  { intros [viot|]; simpl; [apply Hviot|done]. }
  split; [intros; by apply viommu_parse_topology_wf|].
  intros pdev.
  destruct (viommu_pci_parse_topology_cases P LT pdev st)
    as [->|(c1 & regs & c2 & regs2 & _ & _ & _ & _ & _ & _ & _ & _ & ->)]; [done|].
  by apply viommu_parse_topology_wf.
Qed.

Lemma topology_wf_discovery_witness :
  topology_wf (viot_parse_nodes spec_viot_layout example_viot empty_state)
  ∧ topology_wf (viommu_pci_parse_topology example_pci_layout spec_topo_layout
                   example_pci_dev empty_state).
Proof.
  destruct (topology_wf_discovery spec_viot_layout spec_topo_layout
              example_pci_layout empty_state topology_wf_empty)
    as (Hviot & _ & _ & Hpci).
  split; [apply Hviot|apply Hpci].
Defined.

(** X10.  In a well-formed store the resolver never meets a null or dangling
    IOMMU pointer: whenever a registered endpoint matches the device, the
    lookup yields a specification that is live and in [viommus]; for a PCI
    device the entry is a range of its segment that contains its BDF and the
    id is the first id of the range plus the distance from the start of the
    range (in [u32] arithmetic).  [virt_set_iommu_ops] and
    [virt_iommu_setup] keep the store well formed. *)
Theorem topology_wf_runtime init add st :
  topology_wf st →
  (∀ dev ops, topology_wf (virt_set_iommu_ops dev ops st))
  ∧ (∀ dev, topology_wf (snd (virt_iommu_setup init add dev st)))
  ∧ (∀ dev epid v,
       virt_iommu_find dev st = Some (epid, v) →
       ∃ h, v = Some h ∧ h ∈ viommus st ∧ is_Some (heap st !! h))
  ∧ (∀ dev domain devid epid v,
       dev_bus_info dev = BUS_PCI domain devid →
       virt_iommu_find dev st = Some (epid, v) →
       ∃ ep bdf_start bdf_end,
         ep ∈ pci_endpoints st
         ∧ ep_devid ep = DEV_PCI domain bdf_start bdf_end
         ∧ bdf_start ≤ devid ≤ bdf_end
         ∧ epid = wrap32 (endpoint_id ep + (devid - bdf_start))
         ∧ v = ep_viommu ep).
Proof.
  intros Hwf.
  split; [intros; by apply virt_set_iommu_ops_wf|].
  split; [intros; by apply virt_iommu_setup_wf|].
  destruct Hwf as [_ [Hpci Hmmio]].
  rewrite Forall_forall in Hpci, Hmmio.
  split.
  - intros dev epid v. unfold virt_iommu_find.
    destruct (dev_bus_info dev); [| |done].
    + destruct (find _ (pci_endpoints st)) as [ep|] eqn:Ef; [|done].
      intros [= <- <-]. apply find_some in Ef as [Hin _].
      apply list_elem_of_In in Hin.
      destruct (Hpci ep Hin) as [_ (h & Hv & Hh & Hl)]. by exists h.
    + destruct (find _ (mmio_endpoints st)) as [ep|] eqn:Ef; [|done].
      intros [= <- <-]. apply find_some in Ef as [Hin _].
      apply list_elem_of_In in Hin.
      destruct (Hmmio ep Hin) as [_ (h & Hv & Hh & Hl)]. by exists h.
  - intros dev domain devid epid v Hbus. unfold virt_iommu_find. rewrite Hbus.
    destruct (find _ (pci_endpoints st)) as [ep|] eqn:Ef; [|done].
    intros [= <- <-]. apply find_some in Ef as [Hin Hm].
    apply list_elem_of_In in Hin.
    destruct (Hpci ep Hin) as [(s & b & e & Hd) _].
    unfold viommu_device_match in Hm. rewrite Hd, Hbus in Hm.
    apply andb_true_iff in Hm as [Hm He]. apply andb_true_iff in Hm as [Hs Hb].
    apply Z.eqb_eq in Hs. apply Z.leb_le in Hb, He. subst s.
    exists ep, b, e. rewrite Hd. simpl.
    split; [done|]. split; [done|]. split; [lia|]. split; [|done].
    f_equal. lia.
Qed.

Lemma topology_wf_example : topology_wf example_topology.
Proof. apply viot_parse_nodes_wf, topology_wf_empty. Qed.

Lemma topology_wf_runtime_witness :
  ∃ h, h ∈ viommus example_topology ∧ is_Some (heap example_topology !! h).
Proof.
  destruct (topology_wf_runtime example_fwspec_init example_fwspec_add_ids
              example_topology topology_wf_example) as (_ & _ & Hlive & _).
  assert (Hf : virt_iommu_find pci_dev_21 example_topology = Some (105, Some 0%nat))
    by (vm_compute; reflexivity).
  destruct (Hlive pci_dev_21 105 (Some 0%nat) Hf) as (h & _ & Hin & Hl).
  exists h. split; [exact Hin|exact Hl].
Defined.

(** ** The resolver and [virt_dma_configure] *)

(** X11.  What [virt_iommu_setup] touches: never the heap, the registry lists or
    the visited-node list.  A "no match" answer leaves the whole state as it
    was.  [pci_request_acs()] is called only for a PCI device and only
    together with an answer other than "no match"; a device whose matched
    IOMMU has no ops is deferred without its firmware specification being
    touched. *)
Theorem virt_iommu_setup_effects init add dev st :
  heap (snd (virt_iommu_setup init add dev st)) = heap st
  ∧ registry (snd (virt_iommu_setup init add dev st)) = registry st
  ∧ iommus (snd (virt_iommu_setup init add dev st)) = iommus st
  ∧ (fst (virt_iommu_setup init add dev st) = Null →
     snd (virt_iommu_setup init add dev st) = st)
  ∧ (acs_requested (snd (virt_iommu_setup init add dev st)) ≠ acs_requested st →
     dev_is_pci dev = true ∧ fst (virt_iommu_setup init add dev st) ≠ Null)
  ∧ (∀ epid h,
       already_translated dev st = false →
       virt_iommu_find dev st = Some (epid, Some h) →
       is_own_iommu dev (viommu_at st h) = false →
       vs_ops (viommu_at st h) = None →
       fst (virt_iommu_setup init add dev st) = ErrPtr (- EPROBE_DEFER)
       ∧ fwspecs (snd (virt_iommu_setup init add dev st)) = fwspecs st
       ∧ acs_requested (snd (virt_iommu_setup init add dev st))
         = dev_is_pci dev || acs_requested st).
Proof.
  destruct (virt_iommu_setup_frame init add dev st) as (Hh & Hr & Hi & _).
  split; [done|]. split; [done|]. split; [done|].
  split; [|split].
  - unfold virt_iommu_setup.
    destruct (already_translated dev st); [done|].
    destruct (virt_iommu_find dev st) as [[epid [h|]]|]; [|done|done].
    destruct (is_own_iommu dev (viommu_at st h)); [done|].
    destruct (vs_ops (viommu_at st h)) as [o|]; [|done].
    destruct (init dev _ o _) as [ret fw].
    by destruct (negb (ret =? 0)).
  - unfold virt_iommu_setup.
    destruct (already_translated dev st); [done|].
    destruct (virt_iommu_find dev st) as [[epid [h|]]|]; [|done|done].
    destruct (is_own_iommu dev (viommu_at st h)); [done|].
    destruct (vs_ops (viommu_at st h)) as [o|].
    + destruct (init dev _ o _) as [ret fw].
      destruct (negb (ret =? 0)); simpl; by destruct (dev_is_pci dev).
    + simpl. by destruct (dev_is_pci dev).
  - intros epid h Ht Hf Hown Hops.
    rewrite (virt_iommu_setup_matched init add dev st epid h Ht Hf), Hown, Hops.
    simpl. by destruct (dev_is_pci dev).
Qed.

Lemma virt_iommu_setup_effects_witness :
  fst (virt_iommu_setup example_fwspec_init example_fwspec_add_ids
         pci_dev_21 example_topology) = ErrPtr (- EPROBE_DEFER)
  ∧ acs_requested (snd (virt_iommu_setup example_fwspec_init example_fwspec_add_ids
                          pci_dev_21 example_topology)) = true.
Proof.
  destruct (virt_iommu_setup_effects example_fwspec_init example_fwspec_add_ids
              pci_dev_21 example_topology) as (_ & _ & _ & _ & _ & Hdefer).
  assert (Ht : already_translated pci_dev_21 example_topology = false)
    by (vm_compute; reflexivity).
  assert (Hf : virt_iommu_find pci_dev_21 example_topology = Some (105, Some 0%nat))
    by (vm_compute; reflexivity).
  assert (Hown : is_own_iommu pci_dev_21 (viommu_at example_topology 0%nat) = false)
    by (vm_compute; reflexivity).
  assert (Hops : vs_ops (viommu_at example_topology 0%nat) = None)
    by (vm_compute; reflexivity).
  destruct (Hdefer 105 0%nat Ht Hf Hown Hops) as (H1 & _ & H3).
  split; [exact H1|exact H3].
Defined.

(** X12.  The status of [virt_dma_configure] is 0 or [-EPROBE_DEFER], and it is
    [-EPROBE_DEFER] exactly when the resolver returned that error pointer.
    Whenever the resolver answers "no match" or an error pointer, no call
    into the DMA core is made; when it returns ops, the DMA ops are set up
    with them, after [iommu_probe_device] if the device is on a bus and not
    yet mapped. *)
Theorem virt_dma_configure_status init add has_bus mapped dev st :
  let setup := virt_iommu_setup init add dev st in
  let r := virt_dma_configure init add has_bus mapped dev st in
  snd (fst r) = snd setup
  ∧ (fst (fst r) = 0 ∨ fst (fst r) = - EPROBE_DEFER)
  ∧ (fst (fst r) = - EPROBE_DEFER ↔ fst setup = ErrPtr (- EPROBE_DEFER))
  ∧ (IS_ERR_OR_NULL (fst setup) = true → snd r = [])
  ∧ (∀ ops, fst setup = Ptr ops →
       fst (fst r) = 0
       ∧ snd r
         = (if has_bus dev && negb (mapped dev (snd setup))
            then [IOMMU_PROBE_DEVICE (dev_addr dev)] else [])
           ++ [SETUP_DMA_OPS (dev_addr dev) ops]).
Proof.
  intros setup r. subst r. unfold virt_dma_configure. fold setup.
  destruct setup as [p st1]. simpl.
  destruct p as [ops| |e]; simpl.
  - split; [done|]. split; [by left|]. split; [split; [done|done]|].
    split; [done|]. intros ops' [= <-]. done.
  - unfold PTR_ERR. simpl. split; [done|]. split; [by left|].
    split; [split; done|]. split; [done|]. done.
  - unfold PTR_ERR. simpl.
    destruct ((- MAX_ERRNO <=? e) && (e <? 0)) eqn:Eerr.
    + destruct (e =? - EPROBE_DEFER) eqn:Ed; simpl.
      * apply Z.eqb_eq in Ed. subst e. split; [done|]. split; [by right|].
        split; [split; done|]. split; done.
      * apply Z.eqb_neq in Ed.
        assert (Hrest : (if e =? 0 then (e, st1, @nil dma_call) else (0, st1, []))
                        = (0, st1, [])).
        { destruct (e =? 0) eqn:E0; [|done]. apply Z.eqb_eq in E0. by subst. }
        rewrite Hrest. simpl. split; [done|]. split; [by left|].
        split; [split; [done|intros [= ->]; done]|]. split; done.
    + split; [done|]. split; [by left|].
      split; [split; [done|]|].
      * intros [= ->]. done.
      * split; done.
Qed.

(** ** Firmware-table parser: creation of IOMMU specifications *)

(** X13.  For an offset not visited before, [viot_get_iommu] returns a
    specification exactly when the node starts inside the table, has at
    least a sub-header, is a PCI or MMIO IOMMU node long enough for its type,
    and the allocation succeeds.  The specification is then newly allocated,
    carries the device id read from the node (for a PCI node the one-BDF
    range of its BDF), has no device, fwnode or ops, and is recorded for the
    offset and published.  Otherwise nothing is recorded, published or left
    allocated. *)
Theorem viot_get_iommu_create (L : viot_layout) (viot : acpi_table_viot) offset st :
  viot_find_iommu offset st = None →
  (is_Some (fst (viot_get_iommu L viot offset st))
   ↔ viot_check_bounds viot offset = 0
     ∧ fst (kzalloc st) = true
     ∧ iommu_node_ok L viot offset = true)
  ∧ (fst (viot_get_iommu L viot offset st) = None →
     plan_only st (snd (viot_get_iommu L viot offset st)))
  ∧ (∀ h, fst (viot_get_iommu L viot offset st) = Some h →
       heap st !! h = None
       ∧ viommu_at (snd (viot_get_iommu L viot offset st)) h
         = {| vs_devid := iommu_node_devid L viot offset; vs_dev := None;
              vs_fwnode := None; vs_ops := None |}
       ∧ iommus (snd (viot_get_iommu L viot offset st)) = (offset, h) :: iommus st
       ∧ viommus (snd (viot_get_iommu L viot offset st)) = h :: viommus st).
Proof.
  intros Hnone. unfold viot_get_iommu, iommu_node_ok, iommu_node_devid. rewrite Hnone.
  destruct (viot_check_bounds viot offset =? 0) eqn:Ec; simpl.
  2:{ apply Z.eqb_neq in Ec. split; [split; [by intros []|by intros [? _]]|].
      split; [intros _; apply plan_only_refl|done]. }
  apply Z.eqb_eq in Ec.
  pose proof (kzalloc_plan_only st) as Hk.
  unfold kzalloc_viommu.
  destruct (kzalloc st) as [ok k] eqn:Ek. simpl in Hk. destruct ok.
  2:{ simpl. split; [split; [by intros []|by intros (_ & ? & _)]|].
      split; [done|done]. }
  set (h := fresh (dom (heap k))).
  assert (Hfresh : heap st !! h = None).
  { rewrite <- (plan_only_heap _ _ Hk). apply not_elem_of_dom, is_fresh. }
  assert (Hkh : heap k !! h = None) by (by rewrite (plan_only_heap _ _ Hk)).
  assert (Hfree : plan_only st (kfree_viommu h (set_heap (<[h:=zero_viommu]> (heap k)) k))).
  { by rewrite kfree_kzalloc. }
  assert (Hreg : ∀ d,
    let st' := viot_register_iommu offset h d (set_heap (<[h:=zero_viommu]> (heap k)) k) in
    viommu_at st' h = {| vs_devid := d; vs_dev := None; vs_fwnode := None; vs_ops := None |}
    ∧ iommus st' = (offset, h) :: iommus st
    ∧ viommus st' = h :: viommus st).
  { intros d. unfold viot_register_iommu, virt_iommu_add_iommu_spec, viommu_at. simpl.
    rewrite !lookup_insert_eq. simpl. by rewrite Hk. }
  destruct (node_type viot offset =? ACPI_VIOT_NODE_VIRTIO_IOMMU_PCI L).
  { destruct (node_length viot offset <? sizeof_viot_iommu_pci L); simpl.
    - split; [split; [by intros []|by intros (_ & _ & ?)]|]. split; done.
    - split; [split; [done|by eexists]|]. split; [done|].
      intros h' [= <-]. split; [done|]. apply Hreg. }
  destruct (node_type viot offset =? ACPI_VIOT_NODE_VIRTIO_IOMMU_MMIO L); simpl.
  { destruct (node_length viot offset <? sizeof_viot_iommu_mmio L); simpl.
    - split; [split; [by intros []|by intros (_ & _ & ?)]|]. split; done.
    - split; [split; [done|by eexists]|]. split; [done|].
      intros h' [= <-]. split; [done|]. apply Hreg. }
  split; [split; [by intros []|by intros (_ & _ & ?)]|]. split; done.
Qed.

Lemma viot_get_iommu_create_witness :
  viommu_at (snd (viot_get_iommu spec_viot_layout example_viot 56 empty_state)) 0%nat
  = {| vs_devid := DEV_PCI 0 31 31; vs_dev := None; vs_fwnode := None; vs_ops := None |}.
Proof.
  assert (Hnone : viot_find_iommu 56 empty_state = None) by (vm_compute; reflexivity).
  destruct (viot_get_iommu_create spec_viot_layout example_viot 56 empty_state Hnone)
    as (_ & _ & Hnew).
  assert (Hget : fst (viot_get_iommu spec_viot_layout example_viot 56 empty_state)
                 = Some 0%nat) by (vm_compute; reflexivity).
  destruct (Hnew 0%nat Hget) as (_ & Hat & _).
  rewrite Hat. vm_compute. reflexivity.
Defined.

(** X14.  The status of [viot_parse_node] is 0, [-EINVAL], [-ENOMEM] or [-ENODEV],
    never [-EOVERFLOW]: the code of a failed bounds check is replaced by
    [-EINVAL].  It is [-ENOMEM] exactly when the record passes the bounds
    check and the allocation of the endpoint fails; a failed allocation
    inside [viot_get_iommu] surfaces as [-ENODEV]. *)
Theorem viot_parse_node_status (L : viot_layout) (viot : acpi_table_viot) node st :
  (fst (viot_parse_node L viot node st) = 0
   ∨ fst (viot_parse_node L viot node st) = - EINVAL
   ∨ fst (viot_parse_node L viot node st) = - ENOMEM
   ∨ fst (viot_parse_node L viot node st) = - ENODEV)
  ∧ fst (viot_parse_node L viot node st) ≠ - EOVERFLOW
  ∧ (fst (viot_parse_node L viot node st) = - ENOMEM
     ↔ viot_check_bounds viot node = 0 ∧ fst (kzalloc st) = false).
Proof.
  unfold viot_parse_node.
  destruct (viot_check_bounds viot node =? 0) eqn:Ec; simpl.
  2:{ apply Z.eqb_neq in Ec. split; [auto|]. split; [done|].
      split; [done|by intros [? _]]. }
  apply Z.eqb_eq in Ec. unfold kzalloc_endpoint.
  destruct (kzalloc st) as [ok k]. destruct ok; simpl.
  2:{ split; [auto|]. split; [done|]. split; done. }
  assert (Hfin : ∀ spec s,
    (fst (viot_finish_node spec s) = 0 ∨ fst (viot_finish_node spec s) = - ENODEV)).
  { intros spec s. unfold viot_finish_node. destruct (ep_viommu spec); auto. }
  assert (Hgoal : ∀ z, z = 0 ∨ z = - EINVAL ∨ z = - ENODEV →
    (z = 0 ∨ z = - EINVAL ∨ z = - ENOMEM ∨ z = - ENODEV)
    ∧ z ≠ - EOVERFLOW
    ∧ (z = - ENOMEM ↔ viot_check_bounds viot node = 0 ∧ true = false)).
  { intros z [->|[->| ->]]; (split; [auto|]); (split; [done|]);
      (split; [done|by intros [_ ?]]). }
  destruct (node_type viot node =? ACPI_VIOT_NODE_PCI_RANGE L).
  { destruct (node_length viot node <? sizeof_viot_pci_range L); [apply Hgoal; auto|].
    destruct (viot_get_iommu L viot _ _) as [v st2].
    apply Hgoal. match goal with |- context [viot_finish_node ?sp st2] =>
      destruct (Hfin sp st2) as [->| ->]; auto end. }
  destruct (node_type viot node =? ACPI_VIOT_NODE_MMIO L).
  { destruct (node_length viot node <? sizeof_viot_mmio L); [apply Hgoal; auto|].
    destruct (viot_get_iommu L viot _ _) as [v st2].
    apply Hgoal. match goal with |- context [viot_finish_node ?sp st2] =>
      destruct (Hfin sp st2) as [->| ->]; auto end. }
  apply Hgoal. auto.
Qed.

(** ** Endpoint ids within one range *)

Lemma wrap32_inj_near x y :
  wrap32 x = wrap32 y → - 4294967296 < x - y < 4294967296 → x = y.
Proof.
  unfold wrap32. intros Hm Hd.
  pose proof (Z.div_mod x 4294967296 ltac:(lia)) as Hx.
  pose proof (Z.div_mod y 4294967296 ltac:(lia)) as Hy.
  assert (x - y = 4294967296 * (x / 4294967296 - y / 4294967296)) by lia.
  assert (x / 4294967296 - y / 4294967296 = 0) by lia.
  lia.
Qed.

(** X15.  Two PCI devices with different BDFs that resolve through the same
    endpoint entry get different endpoint ids: within a range the ids are
    pairwise distinct, also when the sum wraps around in [u32]. *)
Theorem virt_iommu_find_id_injective dev1 dev2 st ep dom1 dom2 d1 d2 id1 id2 v1 v2 :
  dev_bus_info dev1 = BUS_PCI dom1 d1 →
  dev_bus_info dev2 = BUS_PCI dom2 d2 →
  0 ≤ d1 < 65536 → 0 ≤ d2 < 65536 →
  find (λ e, viommu_device_match dev1 (ep_devid e)) (pci_endpoints st) = Some ep →
  find (λ e, viommu_device_match dev2 (ep_devid e)) (pci_endpoints st) = Some ep →
  virt_iommu_find dev1 st = Some (id1, v1) →
  virt_iommu_find dev2 st = Some (id2, v2) →
  d1 ≠ d2 → id1 ≠ id2.
Proof.
  intros Hb1 Hb2 Hr1 Hr2 Hf1 Hf2. unfold virt_iommu_find.
  rewrite Hb1, Hb2, Hf1, Hf2. intros [= <- <-] [= <- <-] Hne Heq.
  apply wrap32_inj_near in Heq; lia.
Qed.

Lemma virt_iommu_find_id_injective_witness :
  virt_iommu_find pci_dev_21 example_topology = Some (105, Some 0%nat)
  ∧ virt_iommu_find pci_dev_31 example_topology = Some (115, Some 0%nat)
  ∧ 105 ≠ 115.
Proof.
  assert (H1 : virt_iommu_find pci_dev_21 example_topology = Some (105, Some 0%nat))
    by (vm_compute; reflexivity).
  assert (H2 : virt_iommu_find pci_dev_31 example_topology = Some (115, Some 0%nat))
    by (vm_compute; reflexivity).
  assert (Hf1 : find (λ e, viommu_device_match pci_dev_21 (ep_devid e))
                  (pci_endpoints example_topology)
                = Some {| ep_devid := DEV_PCI 0 16 31; endpoint_id := 100;
                          ep_viommu := Some 0%nat |}) by (vm_compute; reflexivity).
  assert (Hf2 : find (λ e, viommu_device_match pci_dev_31 (ep_devid e))
                  (pci_endpoints example_topology)
                = Some {| ep_devid := DEV_PCI 0 16 31; endpoint_id := 100;
                          ep_viommu := Some 0%nat |}) by (vm_compute; reflexivity).
  split; [exact H1|]. split; [exact H2|].
  exact (virt_iommu_find_id_injective pci_dev_21 pci_dev_31 example_topology _
           0 0 21 31 105 115 _ _ eq_refl eq_refl ltac:(lia) ltac:(lia)
           Hf1 Hf2 H1 H2 ltac:(lia)).
Defined.

Lemma viommu_cursor_fits_witness :
  0 ≤ item_offset cfg_three_items 40 2
  ∧ item_offset cfg_three_items 40 2 + 65535 < 4294967296.
Proof.
  assert (Hk : Z.of_nat 2 < ioread16 cfg_three_items
                              (topo_config_num_items spec_topo_layout))
    by (vm_compute; reflexivity).
  exact (viommu_cursor_fits spec_topo_layout cfg_three_items 2 Hk).
Defined.

Lemma viommu_pci_parse_topology_effect_witness :
  ∃ h, viommus (viommu_pci_parse_topology example_pci_layout spec_topo_layout
                  example_pci_dev empty_state) = h :: viommus empty_state
       ∧ vs_dev (viommu_at (viommu_pci_parse_topology example_pci_layout
                              spec_topo_layout example_pci_dev empty_state) h)
         = Some (dev_addr viommu_pci_dev).
Proof.
  destruct (viommu_pci_parse_topology_effect example_pci_layout spec_topo_layout
              example_pci_dev empty_state)
    as [[Hsame _]|(c1 & regs & c2 & regs2 & h & _ & _ & _ & _ & _ & _ & _ & _ & _
                   & Hv & Hat & _)].
  - exfalso. revert Hsame. vm_compute. congruence.
  - exists h. split; [exact Hv|]. rewrite Hat. reflexivity.
Defined.

Lemma virt_dma_configure_status_witness :
  fst (fst (virt_dma_configure example_fwspec_init example_fwspec_add_ids
              (λ _, true) (λ _ _, false) pci_dev_21 example_topology))
  = - EPROBE_DEFER
  ∧ snd (virt_dma_configure example_fwspec_init example_fwspec_add_ids
           (λ _, true) (λ _ _, false) pci_dev_21
           (virt_set_iommu_ops pci_dev_31 (Some 555) example_topology))
    = [IOMMU_PROBE_DEVICE 12; SETUP_DMA_OPS 12 555].
Proof.
  destruct (virt_dma_configure_status example_fwspec_init example_fwspec_add_ids
              (λ _, true) (λ _ _, false) pci_dev_21 example_topology)
    as (_ & _ & Hdefer & _).
  destruct (virt_dma_configure_status example_fwspec_init example_fwspec_add_ids
              (λ _, true) (λ _ _, false) pci_dev_21
              (virt_set_iommu_ops pci_dev_31 (Some 555) example_topology))
    as (_ & _ & _ & _ & Hops).
  split.
  - apply Hdefer. vm_compute. reflexivity.
  - assert (Hs : fst (virt_iommu_setup example_fwspec_init example_fwspec_add_ids
                        pci_dev_21
                        (virt_set_iommu_ops pci_dev_31 (Some 555) example_topology))
                 = Ptr 555) by (vm_compute; reflexivity).
    destruct (Hops 555 Hs) as [_ Hcalls]. rewrite Hcalls. reflexivity.
Defined.
